(** * OPAL locking-range utilities (lib/luks2/hw_opal/hw_opal.c)

    A shallow embedding of the HAVE_HW_OPAL half of hw_opal.c and the
    properties of its status translator, capability queries, range
    attribute verifier, provisioning sequence, lock/unlock and reset
    operations.

    Integers are modelled as [Z]; the wrap-around of the unsigned 64-bit
    products in the verifier is written out.  The kernel, the drive, the
    secure allocator and the logger are collaborators: they are an
    interface ([Env]) over which the general theorems are universally
    quantified; a simulated drive, an instance of it, gives the concrete
    inputs.  What an operation does with its collaborators is recorded as
    a trace of events, and the properties are stated on that trace. *)

From Stdlib Require Import ZArith Lia Bool String.
From Stdlib Require Import Strings.Byte.
From stdpp Require Import base option list.

Local Open Scope string_scope.
Local Open Scope list_scope.
Local Open Scope Z_scope.

(** ** Platform constants *)

(** Values of <errno.h> on Linux; the operations return them negated. *)
Module Errno.
Definition EPERM : Z := 1.
Definition EIO : Z := 5.
Definition ENOMEM : Z := 12.
Definition EINVAL : Z := 22.
Definition ENOTSUP : Z := 95.
End Errno.
Export Errno.

(** Constants of <linux/sed-opal.h>, the kernel's control interface.  The
    header is not part of the repository; the values are those of the
    kernel ABI. *)
Module SedOpal.
Definition OPAL_KEY_MAX : Z := 256.

(* enum opal_user *)
Definition OPAL_ADMIN1 : Z := 0.

(* enum opal_lock_state *)
Definition OPAL_RO : Z := 1.
Definition OPAL_RW : Z := 2.
Definition OPAL_LK : Z := 4.

(* enum opal_lock_flags *)
Definition OPAL_SAVE_FOR_LOCK : Z := 1.

(* struct opal_status flags *)
Definition OPAL_FL_SUPPORTED : Z := 1.
Definition OPAL_FL_LOCKING_SUPPORTED : Z := 2.
Definition OPAL_FL_LOCKING_ENABLED : Z := 4.
End SedOpal.
Export SedOpal.

(** SECTOR_SIZE is (1 << SECTOR_SHIFT) with SECTOR_SHIFT 9 (internal.h). *)
Definition SECTOR_SHIFT : Z := 9.
Definition SECTOR_SIZE : Z := Z.shiftl 1 SECTOR_SHIFT.

(** Unsigned wrap-around of uint32_t and uint64_t arithmetic, and the
    conversion of a value that is stored in a __u8 field. *)
Definition u8 (z : Z) : Z := z mod 2 ^ 8.
Definition u32 (z : Z) : Z := z mod 2 ^ 32.
Definition u64 (z : Z) : Z := z mod 2 ^ 64.

(** ** Status translator *)

(** enum OpalStatus: the enumerators count up from 0, OPAL_STATUS_FAIL is
    0x3F and _OPAL_STATUS_MAX is the next value. *)
Definition OPAL_STATUS_SUCCESS : Z := 0.
Definition OPAL_STATUS_NOT_AUTHORIZED : Z := 1.
Definition OPAL_STATUS_OBSOLETE0 : Z := 2.
Definition OPAL_STATUS_SP_BUSY : Z := 3.
Definition OPAL_STATUS_SP_FAILED : Z := 4.
Definition OPAL_STATUS_SP_DISABLED : Z := 5.
Definition OPAL_STATUS_SP_FROZEN : Z := 6.
Definition OPAL_STATUS_NO_SESSIONS_AVAILABLE : Z := 7.
Definition OPAL_STATUS_UNIQUENESS_CONFLICT : Z := 8.
Definition OPAL_STATUS_INSUFFICIENT_SPACE : Z := 9.
Definition OPAL_STATUS_INSUFFICIENT_ROWS : Z := 10.
Definition OPAL_STATUS_INVALID_PARAMETER : Z := 11.
Definition OPAL_STATUS_OBSOLETE1 : Z := 12.
Definition OPAL_STATUS_OBSOLETE2 : Z := 13.
Definition OPAL_STATUS_TPER_MALFUNCTION : Z := 14.
Definition OPAL_STATUS_TRANSACTION_FAILURE : Z := 15.
Definition OPAL_STATUS_RESPONSE_OVERFLOW : Z := 16.
Definition OPAL_STATUS_AUTHORITY_LOCKED_OUT : Z := 17.
Definition OPAL_STATUS_FAIL : Z := 0x3F.
Definition _OPAL_STATUS_MAX : Z := OPAL_STATUS_FAIL + 1.
Definition _OPAL_STATUS_INVALID : Z := - EINVAL.

(** A [const char *] is [option string]: [None] is the null pointer. *)
Definition cstr := option string.

(** The designated initialisers of opal_status_table, in source order. *)
Definition opal_status_designators : list (Z * string) :=
  [ (OPAL_STATUS_SUCCESS,               "success");
    (OPAL_STATUS_NOT_AUTHORIZED,        "not authorized");
    (OPAL_STATUS_OBSOLETE0,             "obsolete");
    (OPAL_STATUS_SP_BUSY,               "SP busy");
    (OPAL_STATUS_SP_FAILED,             "SP failed");
    (OPAL_STATUS_SP_DISABLED,           "SP disabled");
    (OPAL_STATUS_SP_FROZEN,             "SP frozen");
    (OPAL_STATUS_NO_SESSIONS_AVAILABLE, "no sessions available");
    (OPAL_STATUS_UNIQUENESS_CONFLICT,   "uniqueness conflict");
    (OPAL_STATUS_INSUFFICIENT_SPACE,    "insufficient space");
    (OPAL_STATUS_INSUFFICIENT_ROWS,     "insufficient rows");
    (OPAL_STATUS_INVALID_PARAMETER,     "invalid parameter");
    (OPAL_STATUS_OBSOLETE1,             "obsolete");
    (OPAL_STATUS_OBSOLETE2,             "obsolete");
    (OPAL_STATUS_TPER_MALFUNCTION,      "TPer malfunction");
    (OPAL_STATUS_TRANSACTION_FAILURE,   "transaction failure");
    (OPAL_STATUS_RESPONSE_OVERFLOW,     "response overflow");
    (OPAL_STATUS_AUTHORITY_LOCKED_OUT,  "authority locked out");
    (OPAL_STATUS_FAIL,                  "unknown failure") ].

(** A C array of [n] pointers with designated initialisers: the elements
    that no designator names are null. *)
Definition designated_array (n : Z) (ds : list (Z * string)) : list cstr :=
  foldl (fun arr d => <[Z.to_nat (fst d) := Some (snd d)]> arr)
        (replicate (Z.to_nat n) None) ds.

Definition opal_status_table : list cstr :=
  Eval cbv in designated_array _OPAL_STATUS_MAX opal_status_designators.

Section StatusTranslator.
(** strerror(3) of the platform. *)
Variable strerror : Z -> string.

Definition opal_status_to_string (t : Z) : cstr :=
  if t <? 0 then Some (strerror (- t))
  else if t >=? _OPAL_STATUS_MAX then Some "unknown error"
  else mjoin (opal_status_table !! Z.to_nat t).
End StatusTranslator.

(** ** Parameter blocks of the control interface

    The structures of <linux/sed-opal.h>, with the fields the source
    reads or writes.  The fields [lr] and [key_len] of struct opal_key are
    __u8 and [who] is __u32: where the source assigns a wider value to
    them (a uint32_t segment number, a size_t length) the model stores
    the converted value, [u8 _] or [u32 _].  The key array holds
    OPAL_KEY_MAX bytes. *)

Record opal_key := mk_opal_key
  { k_lr : Z; k_key_len : Z; k_key : list byte }.

Record opal_session_info := mk_opal_session_info
  { si_who : Z; si_opal_key : opal_key }.

Record opal_lr_act := mk_opal_lr_act
  { act_key : opal_key; act_num_lrs : Z; act_lr : list Z }.

(** struct opal_lock_unlock; the plain name is taken by the function. *)
Record struct_opal_lock_unlock := mk_opal_lock_unlock
  { lu_session : opal_session_info; lu_l_state : Z; lu_flags : Z }.

Record opal_new_pw := mk_opal_new_pw
  { pw_session : opal_session_info; pw_new_user_pw : opal_session_info }.

Record opal_user_lr_setup := mk_opal_user_lr_setup
  { ls_range_start : Z; ls_range_length : Z; ls_RLE : Z; ls_WLE : Z;
    ls_session : opal_session_info }.

Record opal_lr_status := mk_opal_lr_status
  { lrs_session : opal_session_info;
    lrs_range_start : Z; lrs_range_length : Z;
    lrs_RLE : Z; lrs_WLE : Z; lrs_l_state : Z }.

Record opal_status := mk_opal_status { st_flags : Z }.

Record struct_opal_geometry := mk_opal_geometry
  { geo_align : Z; geo_logical_block_size : Z;
    geo_alignment_granularity : Z; geo_lowest_aligned_lba : Z }.

(** struct volume_key (the fields used here). *)
Record volume_key := mk_volume_key { keylength : Z; vk_key : list byte }.

(** Zero-initialised members of a compound literal. *)
Definition zero_key_array : list byte := replicate (Z.to_nat OPAL_KEY_MAX) x00.
Definition zero_opal_key : opal_key := mk_opal_key 0 0 zero_key_array.
Definition zero_session : opal_session_info := mk_opal_session_info 0 zero_opal_key.

(** The bytes of [dst] after memcpy(dst, src, n), for [n] within [dst];
    the caller's buffer [src] holds at least [n] bytes.  The operations
    reach it through [memcpy_key] only, which checks [n] against the
    size of the key array. *)
Definition memcpy (dst src : list byte) (n : Z) : list byte :=
  take (Z.to_nat n) src ++ drop (Z.to_nat n) dst.

(** crypt_safe_memzero(buf, n). *)
Definition crypt_safe_memzero (buf : list byte) (n : Z) : list byte :=
  replicate (Z.to_nat n) x00 ++ drop (Z.to_nat n) buf.

Arguments zero_key_array : simpl never.
Arguments memcpy : simpl never.
Arguments crypt_safe_memzero : simpl never.

Definition set_key (k : opal_key) (bytes : list byte) : opal_key :=
  mk_opal_key (k_lr k) (k_key_len k) bytes.

Definition set_session_key (s : opal_session_info) (bytes : list byte)
  : opal_session_info :=
  mk_opal_session_info (si_who s) (set_key (si_opal_key s) bytes).

(** ** The control transport *)

Inductive ioctl_code :=
| IOC_OPAL_GET_STATUS
| IOC_OPAL_GET_GEOMETRY
| IOC_OPAL_GET_LR_STATUS
| IOC_OPAL_TAKE_OWNERSHIP
| IOC_OPAL_ACTIVATE_LSP
| IOC_OPAL_ERASE_LR
| IOC_OPAL_SECURE_ERASE_LR
| IOC_OPAL_ACTIVATE_USR
| IOC_OPAL_ADD_USR_TO_LR
| IOC_OPAL_SET_PW
| IOC_OPAL_LR_SETUP
| IOC_OPAL_LOCK_UNLOCK
| IOC_OPAL_SAVE
| IOC_OPAL_PSID_REVERT_TPR.

(** The parameter block passed with each request code. *)
Definition ioctl_arg (c : ioctl_code) : Type :=
  match c with
  | IOC_OPAL_GET_STATUS => opal_status
  | IOC_OPAL_GET_GEOMETRY => unit
  | IOC_OPAL_GET_LR_STATUS => opal_lr_status
  | IOC_OPAL_TAKE_OWNERSHIP => opal_key
  | IOC_OPAL_ACTIVATE_LSP => opal_lr_act
  | IOC_OPAL_ERASE_LR => opal_session_info
  | IOC_OPAL_SECURE_ERASE_LR => opal_session_info
  | IOC_OPAL_ACTIVATE_USR => opal_session_info
  | IOC_OPAL_ADD_USR_TO_LR => struct_opal_lock_unlock
  | IOC_OPAL_SET_PW => opal_new_pw
  | IOC_OPAL_LR_SETUP => opal_user_lr_setup
  | IOC_OPAL_LOCK_UNLOCK => struct_opal_lock_unlock
  | IOC_OPAL_SAVE => struct_opal_lock_unlock
  | IOC_OPAL_PSID_REVERT_TPR => opal_key
  end.

(** What the kernel writes back: the three queries fill their block, the
    commands only read theirs. *)
Definition ioctl_out (c : ioctl_code) : Type :=
  match c with
  | IOC_OPAL_GET_STATUS => opal_status
  | IOC_OPAL_GET_GEOMETRY => struct_opal_geometry
  | IOC_OPAL_GET_LR_STATUS => opal_lr_status
  | _ => unit
  end.

(** The collaborators of the module: opening the device, the control call
    itself, the secure allocator (whether the next allocation succeeds),
    the device name used in messages and strerror. *)
Class Env (E : Type) := {
  env_open : E -> Z * E;
  env_ioctl : Z -> forall c : ioctl_code, ioctl_arg c -> E -> (Z * ioctl_out c) * E;
  env_alloc : E -> bool * E;
  env_device_name : E -> cstr;
  env_strerror : E -> Z -> string
}.

(** ** Observable events, secure heap and the monad of the operations *)

Inductive log_level := LOG_DEBUG | LOG_ERROR | LOG_NORMAL.
Inductive log_arg := LInt (z : Z) | LStr (s : cstr).

Definition ptr := option nat.
Definition NULL : ptr := None.

(** What an operation does with its collaborators, in order: opening the
    device (the descriptor obtained), control calls (request, parameter
    block, returned status and what the kernel wrote back), secure
    allocations (the pointer obtained) and log records (format and
    arguments). *)
Inductive event :=
| EvOpen (fd : Z)
| EvIoctl (c : ioctl_code) (a : ioctl_arg c) (r : Z) (o : ioctl_out c)
| EvAlloc (p : ptr)
| EvLog (lvl : log_level) (fmt : string) (args : list log_arg).

(** A block obtained from crypt_safe_alloc holds one of the parameter
    blocks; crypt_safe_free wipes and releases it. *)
Inductive block_val :=
| BZero
| BLrStatus (v : opal_lr_status)
| BKey (v : opal_key)
| BLrAct (v : opal_lr_act)
| BSession (v : opal_session_info)
| BLockUnlock (v : struct_opal_lock_unlock)
| BNewPw (v : opal_new_pw)
| BLrSetup (v : opal_user_lr_setup).

(** [Stack v] is an automatic variable: it is never released, and keeps
    its last contents when its function returns. *)
Inductive block := Live (v : block_val) | Freed | Stack (v : block_val).

Record state (E : Type) := mk_state { st_env : E; st_heap : list block }.
Arguments mk_state {E} _ _.
Arguments st_env {E} _.
Arguments st_heap {E} _.

(** An operation returns a value, stops at a failed assert(), or writes
    past the end of a key array (undefined behaviour: nothing is said of
    what follows, the run ends there). *)
Inductive outcome (A : Type) := Ret (a : A) | AssertFail | Overrun.
Arguments Ret {A} _.
Arguments AssertFail {A}.
Arguments Overrun {A}.

Definition M (E A : Type) : Type := state E -> outcome A * list event * state E.

Definition M_ret {E A} (a : A) : M E A := fun s => (Ret a, [], s).

Definition M_bind {E A B} (k : A -> M E B) (m : M E A) : M E B :=
  fun s =>
    match m s with
    | (Ret a, t1, s1) =>
        match k a s1 with (o, t2, s2) => (o, t1 ++ t2, s2) end
    | (AssertFail, t1, s1) => (AssertFail, t1, s1)
    | (Overrun, t1, s1) => (Overrun, t1, s1)
    end.

#[export] Instance M_mret {E} : MRet (M E) := @M_ret E.
#[export] Instance M_mbind {E} : MBind (M E) := @M_bind E.

(** The three components of a run. *)
Definition result {E A} (x : outcome A * list event * state E) : outcome A := x.1.1.
Definition events {E A} (x : outcome A * list event * state E) : list event := x.1.2.
Definition final {E A} (x : outcome A * list event * state E) : state E := x.2.

(** *** Projections of a trace *)

#[export] Instance ioctl_code_eq_dec : EqDecision ioctl_code.
Proof. solve_decision. Defined.

#[export] Instance log_level_eq_dec : EqDecision log_level.
Proof. solve_decision. Defined.

(** The control calls of a trace: request code and returned status. *)
Definition call_of (ev : event) : option (ioctl_code * Z) :=
  match ev with EvIoctl c _ r _ => Some (c, r) | _ => None end.
Definition calls (t : list event) : list (ioctl_code * Z) := omap call_of t.
Definition codes (t : list event) : list ioctl_code := (calls t).*1.

(** The parameter blocks passed with request [c]. *)
Definition arg_of (c : ioctl_code) (ev : event) : option (ioctl_arg c) :=
  match ev with
  | EvIoctl c' a _ _ =>
      match decide (c' = c) with
      | left Heq => Some (eq_rect c' ioctl_arg a c Heq)
      | right _ => None
      end
  | _ => None
  end.
Definition args_of (c : ioctl_code) (t : list event) : list (ioctl_arg c) :=
  omap (arg_of c) t.

(** The answers to request [c]: returned status and block written back. *)
Definition reply_of (c : ioctl_code) (ev : event) : option (Z * ioctl_out c) :=
  match ev with
  | EvIoctl c' _ r o =>
      match decide (c' = c) with
      | left Heq => Some (r, eq_rect c' ioctl_out o c Heq)
      | right _ => None
      end
  | _ => None
  end.
Definition replies_of (c : ioctl_code) (t : list event) : list (Z * ioctl_out c) :=
  omap (reply_of c) t.

(** The log records of a trace. *)
Definition log_of (ev : event) : option (log_level * string * list log_arg) :=
  match ev with EvLog lvl fmt args => Some (lvl, fmt, args) | _ => None end.
Definition logs (t : list event) : list (log_level * string * list log_arg) :=
  omap log_of t.

(** The allocations of a trace. *)
Definition alloc_of (ev : event) : option ptr :=
  match ev with EvAlloc p => Some p | _ => None end.
Definition allocs (t : list event) : list ptr := omap alloc_of t.

(** The handles [cd] and [dev] of the source are the environment: the
    assertions that they, [vk], [admin_key] or [password] are non-null hold
    by construction and are not represented ([vk] may be null only in
    opal_lock_unlock, where it is an [option]).  In the format strings
    PRIu64 is written lu. *)

Section Operations.
Context {E : Type} `{Env E}.

(** *** Primitives *)

Definition device_open : M E Z :=
  fun s => let '(fd, e) := env_open (st_env s) in
           (Ret fd, [EvOpen fd], mk_state e (st_heap s)).

Definition ioctl (fd : Z) (c : ioctl_code) (a : ioctl_arg c)
  : M E (Z * ioctl_out c) :=
  fun s => let '(r, o, e) := env_ioctl fd c a (st_env s) in
           (Ret (r, o), [EvIoctl c a r o], mk_state e (st_heap s)).

Definition assertM (b : bool) : M E unit :=
  fun s => if b then (Ret tt, [], s) else (AssertFail, [], s).

(** memcpy(key, src, n) into the key array of a parameter block, which
    has OPAL_KEY_MAX bytes. *)
Definition memcpy_key (key src : list byte) (n : Z) : M E (list byte) :=
  fun s => if n <=? OPAL_KEY_MAX then (Ret (memcpy key src n), [], s)
           else (Overrun, [], s).

Definition crypt_safe_alloc : M E ptr :=
  fun s => let '(ok, e) := env_alloc (st_env s) in
           if ok
           then (Ret (Some (length (st_heap s))),
                 [EvAlloc (Some (length (st_heap s)))],
                 mk_state e (st_heap s ++ [Live BZero]))
           else (Ret NULL, [EvAlloc NULL], mk_state e (st_heap s)).

Definition crypt_safe_free (p : ptr) : M E unit :=
  fun s => match p with
           | None => (Ret tt, [], s)
           | Some n => (Ret tt, [], mk_state (st_env s) (<[n := Freed]> (st_heap s)))
           end.

(** [*p = v] for a block of the secure heap. *)
Definition store (n : nat) (v : block_val) : M E unit :=
  fun s => (Ret tt, [], mk_state (st_env s) (<[n := Live v]> (st_heap s))).

(** An automatic variable and an assignment to it. *)
Definition stack_var (v : block_val) : M E nat :=
  fun s => (Ret (length (st_heap s)), [], mk_state (st_env s) (st_heap s ++ [Stack v])).

Definition stack_set (n : nat) (v : block_val) : M E unit :=
  fun s => (Ret tt, [], mk_state (st_env s) (<[n := Stack v]> (st_heap s))).

Definition log (lvl : log_level) (fmt : string) (args : E -> list log_arg)
  : M E unit :=
  fun s => (Ret tt, [EvLog lvl fmt (args (st_env s))], s).

Definition log_dbg := log LOG_DEBUG.
Definition log_err := log LOG_ERROR.
Definition log_std := log LOG_NORMAL.

Definition dev_name (e : E) : log_arg := LStr (env_device_name e).
Definition status_str (e : E) (r : Z) : log_arg :=
  LStr (opal_status_to_string (env_strerror e) r).

(** *** opal_geometry_fd

    The four out-parameters are returned together (a caller that passes a
    null pointer ignores the field); they are written only on success. *)

Record geometry_ret := mk_geometry_ret
  { ret_align : bool; ret_block_size : Z;
    ret_alignment_granularity_blocks : Z; ret_lowest_lba_blocks : Z }.

Definition opal_geometry_fd (fd : Z) : M E (Z * option geometry_ret) :=
  assertM (0 <=? fd);;
  '(r, geo) ← ioctl fd IOC_OPAL_GET_GEOMETRY tt;
  if negb (r =? OPAL_STATUS_SUCCESS) then mret (r, None)
  else mret (r, Some (mk_geometry_ret (geo_align geo =? 1)
                                       (geo_logical_block_size geo)
                                       (geo_alignment_granularity geo)
                                       (geo_lowest_aligned_lba geo))).

(** *** opal_query_status, opal_supported, opal_enabled *)

Definition opal_query_status (expected : Z) : M E Z :=
  fd ← device_open;
  if fd <? 0 then mret (- EIO) else
  '(r, st) ← ioctl fd IOC_OPAL_GET_STATUS (mk_opal_status 0);
  mret (if r <? 0 then - EINVAL
        else if negb (Z.land (st_flags st) expected =? 0) then 1 else 0).

Definition opal_supported : M E Z :=
  opal_query_status (Z.lor OPAL_FL_SUPPORTED OPAL_FL_LOCKING_SUPPORTED).

Definition opal_enabled : M E Z :=
  opal_query_status OPAL_FL_LOCKING_ENABLED.

(** *** opal_range_check_attributes_fd *)

Definition read_locked_of (l_state : Z) : bool := l_state =? OPAL_LK.
Definition write_locked_of (l_state : Z) : bool :=
  negb (Z.land l_state (Z.lor OPAL_RO OPAL_LK) =? 0).

Definition opal_range_check_attributes_fd
    (fd : Z) (segment_number : Z) (vk : volume_key)
    (check_offset_sectors check_length_sectors : option Z)
    (check_read_locked check_write_locked : option bool) : M E Z :=
  assertM (0 <=? fd);;
  '(r, g) ← opal_geometry_fd fd;
  if negb (r =? OPAL_STATUS_SUCCESS) then mret (- EINVAL) else
  let opal_block_bytes := from_option ret_block_size 0 g in
  lrs ← crypt_safe_alloc;
  let out (r : Z) : M E Z := crypt_safe_free lrs;; mret r in
  match lrs with
  | None => out (- ENOMEM)
  | Some p =>
    let session (key : list byte) :=
      mk_opal_session_info (u32 (segment_number + 1))
        (mk_opal_key (u8 segment_number) (u8 (keylength vk)) key) in
    store p (BLrStatus (mk_opal_lr_status (session zero_key_array)
                                          0 0 0 0 0));;
    (* no check of vk->keylength precedes this copy *)
    key ← memcpy_key zero_key_array (vk_key vk) (keylength vk);
    let lrs0 := mk_opal_lr_status (session key) 0 0 0 0 0 in
    store p (BLrStatus lrs0);;
    '(r, lrs1) ← ioctl fd IOC_OPAL_GET_LR_STATUS lrs0;
    store p (BLrStatus lrs1);;
    if negb (r =? OPAL_STATUS_SUCCESS) then
      log_dbg "Failed to get locking range status on device '%s'."
              (fun e => [dev_name e]);;
      out (- EINVAL)
    else
    let r := 0 in
    let offset := u64 (lrs_range_start lrs1 * opal_block_bytes) / SECTOR_SIZE in
    r ← match check_offset_sectors with
        | Some expected =>
          if negb (offset =? expected) then
            log_err "OPAL range %d offset %lu does not match expected values %lu."
                    (fun _ => [LInt segment_number; LInt offset; LInt expected]);;
            mret (- EINVAL)
          else mret r
        | None => mret r
        end;
    let length := u64 (lrs_range_length lrs1 * opal_block_bytes) / SECTOR_SIZE in
    r ← match check_length_sectors with
        | Some expected =>
          if negb (length =? expected) then
            log_err "OPAL range %d length %lu does not match device length %lu."
                    (fun _ => [LInt segment_number; LInt length; LInt expected]);;
            mret (- EINVAL)
          else mret r
        | None => mret r
        end;
    r ← (if (lrs_RLE lrs1 =? 0) || (lrs_WLE lrs1 =? 0) then
           log_err "OPAL range %d locking is disabled."
                   (fun _ => [LInt segment_number]);;
           mret (- EINVAL)
         else mret r);
    let read_locked := read_locked_of (lrs_l_state lrs1) in
    let write_locked := write_locked_of (lrs_l_state lrs1) in
    r ← match check_read_locked with
        | Some expected =>
          if negb (Bool.eqb read_locked expected) then
            log_dbg "OPAL range %d read lock is %slocked."
                    (fun _ => [LInt segment_number;
                               LStr (Some (if expected then "" else "not "))]);;
            log_err "Unexpected OPAL range %d lock state."
                    (fun _ => [LInt segment_number]);;
            mret (- EINVAL)
          else mret r
        | None => mret r
        end;
    r ← match check_write_locked with
        | Some expected =>
          if negb (Bool.eqb write_locked expected) then
            log_dbg "OPAL range %d write lock is %slocked."
                    (fun _ => [LInt segment_number;
                               LStr (Some (if expected then "" else "not "))]);;
            log_err "Unexpected OPAL range %d lock state."
                    (fun _ => [LInt segment_number]);;
            mret (- EINVAL)
          else mret r
        | None => mret r
        end;
    out r
  end.

Definition opal_range_check_attributes
    (segment_number : Z) (vk : volume_key)
    (check_offset_sectors check_length_sectors : option Z)
    (check_read_locked check_write_locked : option bool) : M E Z :=
  fd ← device_open;
  if fd <? 0 then mret (- EIO) else
  opal_range_check_attributes_fd fd segment_number vk
    check_offset_sectors check_length_sectors
    check_read_locked check_write_locked.

(** *** opal_setup_ranges *)

(** The pointer variables released at the [out] label. *)
Record setup_ptrs := mk_setup_ptrs
  { p_activate : ptr; p_user_session : ptr; p_user_add_to_lr : ptr;
    p_new_pw : ptr; p_setup : ptr; p_lock : ptr }.

Definition setup_out (L : setup_ptrs) (r : Z) : M E Z :=
  crypt_safe_free (p_activate L);;
  crypt_safe_free (p_user_session L);;
  crypt_safe_free (p_user_add_to_lr L);;
  crypt_safe_free (p_new_pw L);;
  crypt_safe_free (p_setup L);;
  crypt_safe_free (p_lock L);;
  mret r.

(** How the if/else block on opal_enabled's result is left: by a jump to
    [out] or by falling through to the common steps. *)
Inductive flow := GotoOut (r : Z) | FallThrough.

Definition opal_setup_ranges
    (vk : volume_key) (range_start range_length : Z) (segment_number : Z)
    (admin_key : list byte) (admin_key_len : Z) : M E Z :=
  let L := mk_setup_ptrs NULL NULL NULL NULL NULL NULL in
  assertM (keylength vk <=? OPAL_KEY_MAX);;
  if admin_key_len >? OPAL_KEY_MAX then mret (- EINVAL) else
  fd ← device_open;
  if fd <? 0 then mret (- EIO) else
  r ← opal_enabled;
  if r <? 0 then mret r else
  (* If OPAL has never been enabled, take ownership and do basic setup
     first; if it is already enabled, wipe the locking range first. *)
  '(L, f) ←
    (if r =? 0 then
       activate ← crypt_safe_alloc;
       let L := mk_setup_ptrs activate NULL NULL NULL NULL NULL in
       match activate with
       | None => mret (L, GotoOut (- ENOMEM))
       | Some p =>
         let activate_ (key : list byte) :=
           mk_opal_lr_act (mk_opal_key 0 (u8 admin_key_len) key)
                          8 [1; 2; 3; 4; 5; 6; 7; 8] in
         store p (BLrAct (activate_ zero_key_array));;
         key ← memcpy_key zero_key_array admin_key admin_key_len;
         let act := activate_ key in
         store p (BLrAct act);;
         '(r, _) ← ioctl fd IOC_OPAL_TAKE_OWNERSHIP (act_key act);
         if r <? 0 then
           log_dbg "OPAL not supported on this kernel version, refusing."
                   (fun _ => []);;
           mret (L, GotoOut (- ENOTSUP))
         else if r =? OPAL_STATUS_NOT_AUTHORIZED then
           log_dbg "Failed to take ownership of OPAL device '%s': permission denied"
                   (fun e => [dev_name e]);;
           mret (L, GotoOut (- EPERM))
         else if negb (r =? OPAL_STATUS_SUCCESS) then
           log_dbg "Failed to take ownership of OPAL device '%s': %s"
                   (fun e => [dev_name e; status_str e r]);;
           mret (L, GotoOut (- EINVAL))
         else
         '(r, _) ← ioctl fd IOC_OPAL_ACTIVATE_LSP act;
         if negb (r =? OPAL_STATUS_SUCCESS) then
           log_dbg "Failed to activate OPAL device '%s': %s"
                   (fun e => [dev_name e; status_str e r]);;
           mret (L, GotoOut (- EINVAL))
         else mret (L, FallThrough)
       end
     else
       user_session ← crypt_safe_alloc;
       let L := mk_setup_ptrs NULL user_session NULL NULL NULL NULL in
       match user_session with
       | None => mret (L, GotoOut (- ENOMEM))
       | Some p =>
         let session (key : list byte) :=
           mk_opal_session_info OPAL_ADMIN1
             (mk_opal_key (u8 segment_number) (u8 admin_key_len) key) in
         store p (BSession (session zero_key_array));;
         key ← memcpy_key zero_key_array admin_key admin_key_len;
         let us := session key in
         store p (BSession us);;
         '(r, _) ← ioctl fd IOC_OPAL_ERASE_LR us;
         if negb (r =? OPAL_STATUS_SUCCESS) then
           log_dbg "Failed to reset (erase) OPAL locking range %u on device '%s': %s"
                   (fun e => [LInt segment_number; dev_name e; status_str e r]);;
           '(r, _) ← ioctl fd IOC_OPAL_SECURE_ERASE_LR us;
           if negb (r =? OPAL_STATUS_SUCCESS) then
             log_dbg "Failed to reset (secure erase) OPAL locking range %u on device '%s': %s"
                     (fun e => [LInt segment_number; dev_name e; status_str e r]);;
             mret (L, GotoOut (- EINVAL))
           else mret (L, FallThrough)
         else mret (L, FallThrough)
       end);
  match f with
  | GotoOut r => setup_out L r
  | FallThrough =>
  user_session ← crypt_safe_alloc;
  let L := mk_setup_ptrs (p_activate L) user_session NULL NULL NULL NULL in
  match user_session with
  | None => setup_out L (- ENOMEM)
  | Some p =>
  let session (key : list byte) :=
    mk_opal_session_info (u32 (segment_number + 1))
      (mk_opal_key 0 (u8 admin_key_len) key) in
  store p (BSession (session zero_key_array));;
  key ← memcpy_key zero_key_array admin_key admin_key_len;
  let us := session key in
  store p (BSession us);;
  '(r, _) ← ioctl fd IOC_OPAL_ACTIVATE_USR us;
  if negb (r =? OPAL_STATUS_SUCCESS) then
    log_dbg "Failed to activate OPAL user on device '%s': %s"
            (fun e => [dev_name e; status_str e r]);;
    setup_out L (- EINVAL)
  else
  user_add_to_lr ← crypt_safe_alloc;
  let L := mk_setup_ptrs (p_activate L) (p_user_session L) user_add_to_lr
                         NULL NULL NULL in
  match user_add_to_lr with
  | None => setup_out L (- ENOMEM)
  | Some p =>
  let add_ (key : list byte) :=
    mk_opal_lock_unlock
      (mk_opal_session_info (u32 (segment_number + 1))
         (mk_opal_key (u8 segment_number) (u8 admin_key_len) key))
      OPAL_RO 0 in
  store p (BLockUnlock (add_ zero_key_array));;
  key ← memcpy_key zero_key_array admin_key admin_key_len;
  let add := add_ key in
  store p (BLockUnlock add);;
  '(r, _) ← ioctl fd IOC_OPAL_ADD_USR_TO_LR add;
  if negb (r =? OPAL_STATUS_SUCCESS) then
    log_dbg "Failed to add OPAL user to locking range %u (RO) on device '%s': %s"
            (fun e => [LInt segment_number; dev_name e; status_str e r]);;
    setup_out L (- EINVAL)
  else
  let add := mk_opal_lock_unlock (lu_session add) OPAL_RW (lu_flags add) in
  store p (BLockUnlock add);;
  '(r, _) ← ioctl fd IOC_OPAL_ADD_USR_TO_LR add;
  if negb (r =? OPAL_STATUS_SUCCESS) then
    log_dbg "Failed to add OPAL user to locking range %u (RW) on device '%s': %s"
            (fun e => [LInt segment_number; dev_name e; status_str e r]);;
    setup_out L (- EINVAL)
  else
  new_pw ← crypt_safe_alloc;
  let L := mk_setup_ptrs (p_activate L) (p_user_session L) (p_user_add_to_lr L)
                         new_pw NULL NULL in
  match new_pw with
  | None => setup_out L (- ENOMEM)
  | Some p =>
  let pw_ (key new_key : list byte) :=
    mk_opal_new_pw
      (mk_opal_session_info OPAL_ADMIN1
         (mk_opal_key (u8 segment_number) (u8 admin_key_len) key))
      (mk_opal_session_info (u32 (segment_number + 1))
         (mk_opal_key (u8 segment_number) (u8 (keylength vk)) new_key)) in
  store p (BNewPw (pw_ zero_key_array zero_key_array));;
  new_key ← memcpy_key zero_key_array (vk_key vk) (keylength vk);
  store p (BNewPw (pw_ zero_key_array new_key));;
  key ← memcpy_key zero_key_array admin_key admin_key_len;
  let pw := pw_ key new_key in
  store p (BNewPw pw);;
  log_dbg "User authority key length: %zu" (fun _ => [LInt (keylength vk)]);;
  '(r, _) ← ioctl fd IOC_OPAL_SET_PW pw;
  if negb (r =? OPAL_STATUS_SUCCESS) then
    log_dbg "Failed to set OPAL user password on device '%s': (%d) %s"
            (fun e => [dev_name e; LInt r; status_str e r]);;
    setup_out L (- EINVAL)
  else
  setup ← crypt_safe_alloc;
  let L := mk_setup_ptrs (p_activate L) (p_user_session L) (p_user_add_to_lr L)
                         (p_new_pw L) setup NULL in
  match setup with
  | None => setup_out L (- ENOMEM)
  | Some p =>
  let setup_ (key : list byte) :=
    mk_opal_user_lr_setup range_start range_length 1 1
      (mk_opal_session_info OPAL_ADMIN1
         (mk_opal_key (u8 segment_number) (u8 admin_key_len) key)) in
  store p (BLrSetup (setup_ zero_key_array));;
  key ← memcpy_key zero_key_array admin_key admin_key_len;
  let su := setup_ key in
  store p (BLrSetup su);;
  '(r, _) ← ioctl fd IOC_OPAL_LR_SETUP su;
  if negb (r =? OPAL_STATUS_SUCCESS) then
    log_dbg "Failed to setup locking range of length %llu at offset %llu on OPAL device '%s': %s"
            (fun e => [LInt (ls_range_length su); LInt (ls_range_start su);
                       dev_name e; status_str e r]);;
    setup_out L (- EINVAL)
  else
  (* After setup an OPAL device is unlocked: lock it immediately. *)
  lock ← crypt_safe_alloc;
  let L := mk_setup_ptrs (p_activate L) (p_user_session L) (p_user_add_to_lr L)
                         (p_new_pw L) (p_setup L) lock in
  match lock with
  | None => setup_out L (- ENOMEM)
  | Some p =>
  let lock_ (key : list byte) :=
    mk_opal_lock_unlock
      (mk_opal_session_info (u32 (segment_number + 1))
         (mk_opal_key (u8 segment_number) (u8 (keylength vk)) key))
      OPAL_LK 0 in
  store p (BLockUnlock (lock_ zero_key_array));;
  key ← memcpy_key zero_key_array (vk_key vk) (keylength vk);
  let lk := lock_ key in
  store p (BLockUnlock lk);;
  '(r, _) ← ioctl fd IOC_OPAL_LOCK_UNLOCK lk;
  if negb (r =? OPAL_STATUS_SUCCESS) then
    log_dbg "Failed to lock OPAL device '%s': %s"
            (fun e => [dev_name e; status_str e r]);;
    setup_out L (- EINVAL)
  else
  (* Double check the locking range is locked and the ranges are set up
     as configured. *)
  r ← opal_range_check_attributes_fd fd segment_number vk
        (Some range_start) (Some range_length) (Some true) (Some true);
  setup_out L r
  end end end end end
  end.

(** *** opal_lock_unlock, opal_lock, opal_unlock *)

Definition opal_lock_unlock
    (segment_number : Z) (vk : option volume_key) (lock : bool) : M E Z :=
  let unlock :=
    mk_opal_lock_unlock
      (mk_opal_session_info (u32 (segment_number + 1))
         (mk_opal_key (u8 segment_number) 0 zero_key_array))
      (if lock then OPAL_LK else OPAL_RW) 0 in
  u ← stack_var (BLockUnlock unlock);
  s ← opal_supported;
  if s <=? 0 then mret (- ENOTSUP) else
  if negb lock && negb (bool_decide (is_Some vk)) then mret (- EINVAL) else
  fd ← device_open;
  if fd <? 0 then mret (- EIO) else
  unlock ←
    (if negb lock then
       match vk with
       | Some vk =>
         assertM (keylength vk <=? OPAL_KEY_MAX);;
         let unlock_ (key : list byte) :=
           mk_opal_lock_unlock
             (mk_opal_session_info (si_who (lu_session unlock))
                (mk_opal_key (k_lr (si_opal_key (lu_session unlock)))
                   (u8 (keylength vk)) key))
             (lu_l_state unlock) (lu_flags unlock) in
         stack_set u (BLockUnlock
                        (unlock_ (k_key (si_opal_key (lu_session unlock)))));;
         key ← memcpy_key (k_key (si_opal_key (lu_session unlock)))
                          (vk_key vk) (keylength vk);
         mret (unlock_ key)
       | None => mret unlock
       end
     else mret unlock);
  stack_set u (BLockUnlock unlock);;
  let out (unlock : struct_opal_lock_unlock) (r : Z) : M E Z :=
    (if negb lock then
       stack_set u
         (BLockUnlock
            (mk_opal_lock_unlock
               (set_session_key (lu_session unlock)
                  (crypt_safe_memzero (k_key (si_opal_key (lu_session unlock)))
                                      (k_key_len (si_opal_key (lu_session unlock)))))
               (lu_l_state unlock) (lu_flags unlock)))
     else mret tt);;
    mret r in
  '(r, _) ← ioctl fd IOC_OPAL_LOCK_UNLOCK unlock;
  if r <? 0 then
    log_dbg "OPAL not supported on this kernel version, refusing." (fun _ => []);;
    out unlock (- ENOTSUP)
  else if r =? OPAL_STATUS_NOT_AUTHORIZED then
    log_dbg "Failed to %slock OPAL device '%s': permission denied"
            (fun e => [LStr (Some (if lock then "" else "un")); dev_name e]);;
    out unlock (- EPERM)
  else if negb (r =? OPAL_STATUS_SUCCESS) then
    log_dbg "Failed to %slock OPAL device '%s': %s"
            (fun e => [LStr (Some (if lock then "" else "un")); dev_name e;
                       status_str e r]);;
    out unlock (- EINVAL)
  else
  (* If we are unlocking, also tell the kernel to automatically unlock when
     resuming from suspend; do not error out if this fails, as the device
     will already be unlocked. *)
  if negb lock then
    let unlock :=
      mk_opal_lock_unlock (lu_session unlock) (lu_l_state unlock)
                          OPAL_SAVE_FOR_LOCK in
    stack_set u (BLockUnlock unlock);;
    '(r, _) ← ioctl fd IOC_OPAL_SAVE unlock;
    if negb (r =? OPAL_STATUS_SUCCESS) then
      log_std "Failed to prepare OPAL device '%s' for sleep resume, be aware before suspending: %s"
              (fun e => [dev_name e; status_str e r]);;
      out unlock 0
    else out unlock r
  else out unlock r.

Definition opal_lock (segment_number : Z) : M E Z :=
  opal_lock_unlock segment_number None true.

Definition opal_unlock (segment_number : Z) (vk : option volume_key) : M E Z :=
  opal_lock_unlock segment_number vk false.

(** *** opal_factory_reset *)

Definition opal_factory_reset (password : list byte) (password_len : Z)
  : M E Z :=
  let reset := mk_opal_key 0 (u8 password_len) zero_key_array in
  k ← stack_var (BKey reset);
  if password_len >? OPAL_KEY_MAX then mret (- EINVAL) else
  fd ← device_open;
  if fd <? 0 then mret (- EIO) else
  key ← memcpy_key (k_key reset) password password_len;
  let reset := set_key reset key in
  stack_set k (BKey reset);;
  let out (r : Z) : M E Z :=
    stack_set k (BKey (set_key reset
                         (crypt_safe_memzero (k_key reset) (k_key_len reset))));;
    mret r in
  '(r, _) ← ioctl fd IOC_OPAL_PSID_REVERT_TPR reset;
  if r <? 0 then
    log_dbg "OPAL not supported on this kernel version, refusing." (fun _ => []);;
    out (- ENOTSUP)
  else if r =? OPAL_STATUS_NOT_AUTHORIZED then
    log_dbg "Failed to reset OPAL device '%s', incorrect PSID?"
            (fun e => [dev_name e]);;
    out (- EPERM)
  else if negb (r =? OPAL_STATUS_SUCCESS) then
    (* r is assigned before the message is formatted *)
    let r := - EINVAL in
    log_dbg "Failed to reset OPAL device '%s' with PSID: %s"
            (fun e => [dev_name e; status_str e r]);;
    out r
  else out r.

(** *** opal_reset_segment *)

Definition opal_reset_segment
    (segment_number : Z) (password : list byte) (password_len : Z) : M E Z :=
  if password_len >? OPAL_KEY_MAX then mret (- EINVAL) else
  e ← opal_enabled;
  if e <=? 0 then mret (- EINVAL) else
  user_session ← crypt_safe_alloc;
  match user_session with
  | None => mret (- ENOMEM)
  | Some p =>
  let out (setup : ptr) (r : Z) : M E Z :=
    crypt_safe_free user_session;; crypt_safe_free setup;; mret r in
  let session (key : list byte) :=
    mk_opal_session_info OPAL_ADMIN1
      (mk_opal_key (u8 segment_number) (u8 password_len) key) in
  store p (BSession (session zero_key_array));;
  key ← memcpy_key zero_key_array password password_len;
  let us := session key in
  store p (BSession us);;
  fd ← device_open;
  if fd <? 0 then out NULL (- EIO) else
  '(r, _) ← ioctl fd IOC_OPAL_ERASE_LR us;
  if negb (r =? OPAL_STATUS_SUCCESS) then
    log_dbg "Failed to reset (erase) OPAL locking range %u on device '%s': %s"
            (fun e => [LInt segment_number; dev_name e; status_str e r]);;
    '(r, _) ← ioctl fd IOC_OPAL_SECURE_ERASE_LR us;
    if negb (r =? OPAL_STATUS_SUCCESS) then
      log_dbg "Failed to reset (secure erase) OPAL locking range %u on device '%s': %s"
              (fun e => [LInt segment_number; dev_name e; status_str e r]);;
      out NULL (- EINVAL)
    else
    (* Unlike IOC_OPAL_ERASE_LR, IOC_OPAL_SECURE_ERASE_LR does not disable
       the locking range, we have to do that by hand. *)
    setup ← crypt_safe_alloc;
    match setup with
    | None => out setup (- ENOMEM)
    | Some q =>
      let su :=
        mk_opal_user_lr_setup 0 0 0 0
          (mk_opal_session_info OPAL_ADMIN1 (si_opal_key us)) in
      store q (BLrSetup su);;
      '(r, _) ← ioctl fd IOC_OPAL_LR_SETUP su;
      if negb (r =? OPAL_STATUS_SUCCESS) then
        log_dbg "Failed to disable locking range on OPAL device '%s': %s"
                (fun e => [dev_name e; status_str e r]);;
        out setup (- EINVAL)
      else out setup r
    end
  else out NULL r
  end.

(** *** opal_geometry *)

Definition opal_geometry : M E (Z * option geometry_ret) :=
  fd ← device_open;
  if fd <? 0 then mret (- EIO, None) else
  opal_geometry_fd fd.

End Operations.

(** ** A simulated drive

    A concrete environment: a drive that answers every command with the
    status [sim_status] gives for its code and, when that is success,
    remembers the range configuration and the lock state it is given.  The
    allocator succeeds [sim_alloc_budget] times. *)

Record sim_drive := mk_sim
  { sim_fd : Z;
    sim_status : ioctl_code -> Z;
    sim_flags : Z;
    sim_block_size : Z;
    sim_range_start : Z; sim_range_length : Z;
    sim_RLE : Z; sim_WLE : Z; sim_l_state : Z;
    sim_alloc_budget : nat }.

Definition sim_when_ok (d : sim_drive) (c : ioctl_code) (d' : sim_drive)
  : sim_drive :=
  if sim_status d c =? 0 then d' else d.

Definition sim_ioctl (fd : Z) (c : ioctl_code)
  : ioctl_arg c -> sim_drive -> (Z * ioctl_out c) * sim_drive :=
  match c return ioctl_arg c -> sim_drive -> (Z * ioctl_out c) * sim_drive with
  | IOC_OPAL_GET_STATUS => fun _ d =>
      ((sim_status d IOC_OPAL_GET_STATUS, mk_opal_status (sim_flags d)), d)
  | IOC_OPAL_GET_GEOMETRY => fun _ d =>
      ((sim_status d IOC_OPAL_GET_GEOMETRY,
        mk_opal_geometry 0 (sim_block_size d) 0 0), d)
  | IOC_OPAL_GET_LR_STATUS => fun a d =>
      ((sim_status d IOC_OPAL_GET_LR_STATUS,
        mk_opal_lr_status (lrs_session a) (sim_range_start d) (sim_range_length d)
                          (sim_RLE d) (sim_WLE d) (sim_l_state d)), d)
  | IOC_OPAL_TAKE_OWNERSHIP => fun _ d =>
      ((sim_status d IOC_OPAL_TAKE_OWNERSHIP, tt), d)
  | IOC_OPAL_ACTIVATE_LSP => fun _ d =>
      ((sim_status d IOC_OPAL_ACTIVATE_LSP, tt),
       sim_when_ok d IOC_OPAL_ACTIVATE_LSP
         (mk_sim (sim_fd d) (sim_status d)
                 (Z.lor (sim_flags d) OPAL_FL_LOCKING_ENABLED) (sim_block_size d)
                 (sim_range_start d) (sim_range_length d)
                 (sim_RLE d) (sim_WLE d) (sim_l_state d) (sim_alloc_budget d)))
  | IOC_OPAL_ERASE_LR => fun _ d => ((sim_status d IOC_OPAL_ERASE_LR, tt), d)
  | IOC_OPAL_SECURE_ERASE_LR => fun _ d =>
      ((sim_status d IOC_OPAL_SECURE_ERASE_LR, tt), d)
  | IOC_OPAL_ACTIVATE_USR => fun _ d => ((sim_status d IOC_OPAL_ACTIVATE_USR, tt), d)
  | IOC_OPAL_ADD_USR_TO_LR => fun _ d => ((sim_status d IOC_OPAL_ADD_USR_TO_LR, tt), d)
  | IOC_OPAL_SET_PW => fun _ d => ((sim_status d IOC_OPAL_SET_PW, tt), d)
  | IOC_OPAL_LR_SETUP => fun a d =>
      ((sim_status d IOC_OPAL_LR_SETUP, tt),
       sim_when_ok d IOC_OPAL_LR_SETUP
         (mk_sim (sim_fd d) (sim_status d) (sim_flags d) (sim_block_size d)
                 (ls_range_start a) (ls_range_length a) (ls_RLE a) (ls_WLE a)
                 (sim_l_state d) (sim_alloc_budget d)))
  | IOC_OPAL_LOCK_UNLOCK => fun a d =>
      ((sim_status d IOC_OPAL_LOCK_UNLOCK, tt),
       sim_when_ok d IOC_OPAL_LOCK_UNLOCK
         (mk_sim (sim_fd d) (sim_status d) (sim_flags d) (sim_block_size d)
                 (sim_range_start d) (sim_range_length d) (sim_RLE d) (sim_WLE d)
                 (lu_l_state a) (sim_alloc_budget d)))
  | IOC_OPAL_SAVE => fun _ d => ((sim_status d IOC_OPAL_SAVE, tt), d)
  | IOC_OPAL_PSID_REVERT_TPR => fun _ d =>
      ((sim_status d IOC_OPAL_PSID_REVERT_TPR, tt), d)
  end.

Definition sim_alloc (d : sim_drive) : bool * sim_drive :=
  match sim_alloc_budget d with
  | O => (false, d)
  | S n =>
      (true, mk_sim (sim_fd d) (sim_status d) (sim_flags d) (sim_block_size d)
                    (sim_range_start d) (sim_range_length d)
                    (sim_RLE d) (sim_WLE d) (sim_l_state d) n)
  end.

#[export] Instance sim_env : Env sim_drive := {
  env_open d := (sim_fd d, d);
  env_ioctl := sim_ioctl;
  env_alloc := sim_alloc;
  env_device_name _ := Some "/dev/nvme0n1";
  env_strerror _ _ := "error"
}.

(** A drive on which every command succeeds. *)
Definition all_ok : ioctl_code -> Z := fun _ => OPAL_STATUS_SUCCESS.

(** A command status table that differs from [f] at one code. *)
Definition status_at (c : ioctl_code) (r : Z) (f : ioctl_code -> Z)
  : ioctl_code -> Z :=
  fun c' => if decide (c' = c) then r else f c'.

(** A drive that supports OPAL and locking, with [flags] and [block_size],
    no range configured, and [status] for its commands. *)
Definition sim_new (flags block_size : Z) (status : ioctl_code -> Z) : state sim_drive :=
  mk_state (mk_sim 3 status flags block_size 0 0 0 0 OPAL_RW 16) [].

Definition bytes_of (s : string) : list byte := list_byte_of_string s.

Definition a_admin_key : list byte := bytes_of "admin".
Definition a_volume_key : volume_key := mk_volume_key 4 (bytes_of "user").

(** Key material one byte longer than OPAL_KEY_MAX. *)
Definition a_long_key : list byte := replicate (Z.to_nat (OPAL_KEY_MAX + 1)) x00.
Definition a_long_volume_key : volume_key :=
  mk_volume_key (OPAL_KEY_MAX + 1) a_long_key.

(** Key material of exactly OPAL_KEY_MAX bytes, none of them zero. *)
Definition a_full_key : list byte := replicate (Z.to_nat OPAL_KEY_MAX) xa5.
Definition a_full_volume_key : volume_key :=
  mk_volume_key OPAL_KEY_MAX a_full_key.

(** ** Device-mapper backend flags (lib/utils_dm.h)

    The header only declares the functions of the backend; what it defines
    are the two families of flag macros, each written [1 << k], that are
    combined in the [uint32_t] flags words of [dm_flags] and of
    [struct crypt_dm_active_device]. *)

Module UtilsDm.
(* Device mapper backend - kernel support flags *)
Definition DM_KEY_WIPE_SUPPORTED : Z := Z.shiftl 1 0.
Definition DM_LMK_SUPPORTED : Z := Z.shiftl 1 1.
Definition DM_SECURE_SUPPORTED : Z := Z.shiftl 1 2.
Definition DM_PLAIN64_SUPPORTED : Z := Z.shiftl 1 3.
Definition DM_DISCARDS_SUPPORTED : Z := Z.shiftl 1 4.
Definition DM_VERITY_SUPPORTED : Z := Z.shiftl 1 5.
Definition DM_TCW_SUPPORTED : Z := Z.shiftl 1 6.
Definition DM_SAME_CPU_CRYPT_SUPPORTED : Z := Z.shiftl 1 7.
Definition DM_SUBMIT_FROM_CRYPT_CPUS_SUPPORTED : Z := Z.shiftl 1 8.
Definition DM_VERITY_ON_CORRUPTION_SUPPORTED : Z := Z.shiftl 1 9.
Definition DM_VERITY_FEC_SUPPORTED : Z := Z.shiftl 1 10.
Definition DM_KERNEL_KEYRING_SUPPORTED : Z := Z.shiftl 1 11.
Definition DM_INTEGRITY_SUPPORTED : Z := Z.shiftl 1 12.
Definition DM_SECTOR_SIZE_SUPPORTED : Z := Z.shiftl 1 13.
Definition DM_CAPI_STRING_SUPPORTED : Z := Z.shiftl 1 14.
Definition DM_DEFERRED_SUPPORTED : Z := Z.shiftl 1 15.
Definition DM_INTEGRITY_RECALC_SUPPORTED : Z := Z.shiftl 1 16.

(* typedef enum { DM_CRYPT = 0, DM_VERITY, DM_INTEGRITY, DM_UNKNOWN } *)
Inductive dm_target_type := DM_CRYPT | DM_VERITY | DM_INTEGRITY | DM_UNKNOWN.

(* flags of dm_query_device *)
Definition DM_ACTIVE_DEVICE : Z := Z.shiftl 1 0.
Definition DM_ACTIVE_UUID : Z := Z.shiftl 1 1.
Definition DM_ACTIVE_HOLDERS : Z := Z.shiftl 1 2.
Definition DM_ACTIVE_CRYPT_CIPHER : Z := Z.shiftl 1 3.
Definition DM_ACTIVE_CRYPT_KEYSIZE : Z := Z.shiftl 1 4.
Definition DM_ACTIVE_CRYPT_KEY : Z := Z.shiftl 1 5.
Definition DM_ACTIVE_VERITY_ROOT_HASH : Z := Z.shiftl 1 6.
Definition DM_ACTIVE_VERITY_HASH_DEVICE : Z := Z.shiftl 1 7.
Definition DM_ACTIVE_VERITY_PARAMS : Z := Z.shiftl 1 8.
Definition DM_ACTIVE_INTEGRITY_PARAMS : Z := Z.shiftl 1 9.

(** The macros of each family, in the order of the header. *)
Definition dm_support_flags : list Z :=
  [DM_KEY_WIPE_SUPPORTED; DM_LMK_SUPPORTED; DM_SECURE_SUPPORTED;
   DM_PLAIN64_SUPPORTED; DM_DISCARDS_SUPPORTED; DM_VERITY_SUPPORTED;
   DM_TCW_SUPPORTED; DM_SAME_CPU_CRYPT_SUPPORTED;
   DM_SUBMIT_FROM_CRYPT_CPUS_SUPPORTED; DM_VERITY_ON_CORRUPTION_SUPPORTED;
   DM_VERITY_FEC_SUPPORTED; DM_KERNEL_KEYRING_SUPPORTED;
   DM_INTEGRITY_SUPPORTED; DM_SECTOR_SIZE_SUPPORTED;
   DM_CAPI_STRING_SUPPORTED; DM_DEFERRED_SUPPORTED;
   DM_INTEGRITY_RECALC_SUPPORTED].

Definition dm_active_flags : list Z :=
  [DM_ACTIVE_DEVICE; DM_ACTIVE_UUID; DM_ACTIVE_HOLDERS;
   DM_ACTIVE_CRYPT_CIPHER; DM_ACTIVE_CRYPT_KEYSIZE; DM_ACTIVE_CRYPT_KEY;
   DM_ACTIVE_VERITY_ROOT_HASH; DM_ACTIVE_VERITY_HASH_DEVICE;
   DM_ACTIVE_VERITY_PARAMS; DM_ACTIVE_INTEGRITY_PARAMS].
End UtilsDm.
Export UtilsDm.

(** * Properties *)

(** ** Status translator *)

Section StatusTranslatorFacts.
Variable strerror : Z -> string.

Lemma opal_status_table_length :
  Z.of_nat (length opal_status_table) = _OPAL_STATUS_MAX.
Proof. reflexivity. Qed.

(** Negative codes are system errors and go to strerror. *)
Lemma opal_status_to_string_negative (t : Z) :
  t < 0 -> opal_status_to_string strerror t = Some (strerror (- t)).
Proof.
  intros Ht. unfold opal_status_to_string.
  destruct (Z.ltb_spec t 0); [reflexivity | lia].
Qed.

(** Codes at or above the table top are "unknown error". *)
Lemma opal_status_to_string_above (t : Z) :
  _OPAL_STATUS_MAX <= t -> opal_status_to_string strerror t = Some "unknown error".
Proof.
  intros Ht. unfold opal_status_to_string.
  assert (0 < _OPAL_STATUS_MAX) by reflexivity.
  destruct (Z.ltb_spec t 0); [lia |].
  destruct (Z.geb_spec t _OPAL_STATUS_MAX); [reflexivity | lia].
Qed.

Lemma opal_status_to_string_success :
  opal_status_to_string strerror OPAL_STATUS_SUCCESS = Some "success".
Proof. reflexivity. Qed.

(** Every code that has a designator is translated to its text. *)
Lemma opal_status_to_string_designated (t : Z) (txt : string) :
  (t, txt) ∈ opal_status_designators ->
  opal_status_to_string strerror t = Some txt.
Proof.
  unfold opal_status_designators. intros Hin.
  repeat (apply elem_of_cons in Hin as [Heq | Hin];
          [injection Heq as -> ->; reflexivity |]).
  inversion Hin.
Qed.

(** Inside the table, a code is translated to a string exactly when it is
    one of the defined status codes 0..17 or OPAL_STATUS_FAIL. *)
Lemma opal_status_to_string_in_table (t : Z) :
  0 <= t < _OPAL_STATUS_MAX ->
  (is_Some (opal_status_to_string strerror t) <->
   t <= OPAL_STATUS_AUTHORITY_LOCKED_OUT \/ t = OPAL_STATUS_FAIL).
Proof.
  intros [Hlo Hhi].
  assert (Hcases : exists n : nat, t = Z.of_nat n /\ (n < 64)%nat).
  { exists (Z.to_nat t). change _OPAL_STATUS_MAX with 64 in Hhi. lia. }
  destruct Hcases as (n & -> & Hn).
  unfold OPAL_STATUS_AUTHORITY_LOCKED_OUT, OPAL_STATUS_FAIL.
  do 64 (destruct n as [| n];
         [vm_compute; split;
          [ intros [x Hx]; first [discriminate Hx | (left; discriminate) | (right; reflexivity) ]
          | intros [Hc | Hc]; first [ eexists; reflexivity | exfalso; apply Hc; reflexivity | discriminate Hc ] ]
         |]).
  lia.
Qed.

End StatusTranslatorFacts.

(** C3 (as far as the code goes).  The table has _OPAL_STATUS_MAX entries
    but designators only for 0..17 and OPAL_STATUS_FAIL: for the status
    code 18, which is non-negative and below the table top, the translator
    returns the null pointer and not a string. *)
Theorem opal_status_to_string_reserved_code_is_null :
  forall strerror : Z -> string,
    0 <= 18 < _OPAL_STATUS_MAX /\ opal_status_to_string strerror 18 = None.
Proof.
  intros strerror. split; [| reflexivity].
  unfold _OPAL_STATUS_MAX, OPAL_STATUS_FAIL. lia.
Qed.

(** ** Running the operations *)

Lemma land_lor_eq_0 (f a b : Z) :
  Z.land f (Z.lor a b) = 0 <-> Z.land f a = 0 /\ Z.land f b = 0.
Proof. rewrite Z.land_lor_distr_r. apply Z.lor_eq_0_iff. Qed.

Lemma calls_app (t1 t2 : list event) : calls (t1 ++ t2) = calls t1 ++ calls t2.
Proof. apply omap_app. Qed.

Lemma codes_app (t1 t2 : list event) : codes (t1 ++ t2) = codes t1 ++ codes t2.
Proof. unfold codes. rewrite calls_app. apply fmap_app. Qed.

Lemma logs_app (t1 t2 : list event) : logs (t1 ++ t2) = logs t1 ++ logs t2.
Proof. apply omap_app. Qed.

Lemma allocs_app (t1 t2 : list event) : allocs (t1 ++ t2) = allocs t1 ++ allocs t2.
Proof. apply omap_app. Qed.

Lemma args_of_app (c : ioctl_code) (t1 t2 : list event) :
  args_of c (t1 ++ t2) = args_of c t1 ++ args_of c t2.
Proof. apply omap_app. Qed.

Lemma replies_of_app (c : ioctl_code) (t1 t2 : list event) :
  replies_of c (t1 ++ t2) = replies_of c t1 ++ replies_of c t2.
Proof. apply omap_app. Qed.

(** Unfolding of the monad and of the primitives. *)
Ltac unfold_M :=
  unfold mbind, M_mbind, M_bind, mret, M_mret, M_ret,
    device_open, ioctl, assertM, memcpy_key, crypt_safe_alloc,
    crypt_safe_free, store, stack_var, stack_set, log_dbg, log_err, log_std,
    log in *.

(** One step of a run: a test whose outcome is known is decided, otherwise
    case analysis on the next answer of a collaborator or on the next test
    of the code. *)
Ltac decide_test b :=
  tryif (match b with context [?x] => is_var x end) then fail
  else
    let v := eval vm_compute in b in
    match v with
    | true => change b with true; cbv iota
    | false => change b with false; cbv iota
    end.

(** A length that the code has already compared with OPAL_KEY_MAX. *)
Ltac decide_bound :=
  match goal with
  | |- context [if ?n <=? OPAL_KEY_MAX then _ else _] =>
      let Hfit := fresh "Hfit" in
      first
        [ assert (Hfit : (n <=? OPAL_KEY_MAX) = true)
            by (apply Z.leb_le;
                repeat match goal with
                       | H : (_ >? _) = false |- _ =>
                           rewrite Z.gtb_ltb in H; apply Z.ltb_ge in H
                       | H : (_ <=? _) = true |- _ => apply Z.leb_le in H
                       end; lia)
        | assert (Hfit : (n <=? OPAL_KEY_MAX) = false)
            by (apply Z.leb_gt;
                repeat match goal with
                       | H : (_ >? _) = true |- _ =>
                           rewrite Z.gtb_ltb in H; apply Z.ltb_lt in H
                       | H : (_ <=? _) = false |- _ => apply Z.leb_gt in H
                       end; lia) ];
      rewrite Hfit
  end.

Ltac run_step :=
  match goal with
  | |- _ => decide_bound
  | |- context [env_open ?e] => destruct (env_open e) as [? ?] eqn:?
  | |- context [env_ioctl ?fd ?c ?a ?e] =>
      destruct (env_ioctl fd c a e) as [[? ?] ?] eqn:?
  | |- context [env_alloc ?e] => destruct (env_alloc e) as [[] ?] eqn:?
  | |- context [match ?x with Some _ => _ | None => _ end] =>
      is_var x; destruct x
  | |- context [if ?b then ?x else _] =>
      lazymatch type of x with
      | string => fail
      | _ =>
          lazymatch b with
          | context [if _ then _ else _] => fail
          | _ =>
              first [ decide_test b
                    | match goal with Hb : b = _ |- _ => rewrite Hb end
                    | destruct b eqn:? ]
          end
      end
  end; cbn [fst snd st_env st_heap] in *.

(** The run under study, named and kept out of the statement while its
    cases are analysed. *)
Ltac abstract_run run :=
  let Hrun := fresh "Hrun" in
  pose proof (eq_refl run) as Hrun; unfold run at 2 in Hrun;
  clearbody run; revert Hrun.

(** The same, with the statement itself folded into [P] meanwhile. *)
Ltac abstract_run_as run P :=
  let Hrun := fresh "Hrun" in
  pose proof (eq_refl run) as Hrun; unfold run at 2 in Hrun;
  clearbody run; revert run Hrun;
  match goal with
  | |- forall r, r = ?X -> @?G r => set (P := G); intros run; cbv beta
  end.

(** Comparison of two request codes, evaluated. *)
Ltac eval_decide :=
  repeat match goal with
         | |- context [@decide (?a = ?b) ?i] =>
             let d := eval vm_compute in (@decide (a = b) i) in
             change (@decide (a = b) i) with d
         | H : context [@decide (?a = ?b) ?i] |- _ =>
             let d := eval vm_compute in (@decide (a = b) i) in
             change (@decide (a = b) i) with d in H
         end; cbn [eq_rect] in *.

(** Membership in a trace projection that has been computed. *)
Ltac inv_elem :=
  eval_decide;
  repeat match goal with
         | H : _ ∈ [] |- _ => solve [inversion H]
         | H : _ ∈ _ :: _ |- _ => apply elem_of_cons in H as [H | H]; simplify_eq
         end.

(** An element that occurs in a computed list. *)
Ltac elem_found :=
  cbn; eval_decide; cbn;
  solve [repeat first [apply list_elem_of_here | apply list_elem_of_further]].

Ltac solve_elem :=
  solve [repeat first [apply list_elem_of_here | apply list_elem_of_further]].

(** No element of a computed list is the given one. *)
Ltac elem_absent :=
  cbn; eval_decide; cbn;
  let Hin := fresh "Hin" in
  intros Hin; inv_elem; done.

(** The tests of the code, as propositions. *)
Ltac tests_to_prop :=
  repeat match goal with
         | H : negb _ = true |- _ => apply negb_true_iff in H
         | H : negb _ = false |- _ => apply negb_false_iff in H
         | H : (_ && _) = true |- _ => apply andb_true_iff in H as [? ?]
         | H : (_ || _) = false |- _ => apply orb_false_iff in H as [? ?]
         | H : (_ || _) = true |- _ => apply orb_true_iff in H as [H | H]
         | H : (_ <? _) = true |- _ => apply Z.ltb_lt in H
         | H : (_ <? _) = false |- _ => apply Z.ltb_ge in H
         | H : (_ <=? _) = true |- _ => apply Z.leb_le in H
         | H : (_ <=? _) = false |- _ => apply Z.leb_gt in H
         | H : (_ >? _) = true |- _ => rewrite Z.gtb_ltb in H; apply Z.ltb_lt in H
         | H : (_ >? _) = false |- _ => rewrite Z.gtb_ltb in H; apply Z.ltb_ge in H
         | H : (_ =? _) = true |- _ => apply Z.eqb_eq in H
         | H : (_ =? _) = false |- _ => apply Z.eqb_neq in H
         | H : Bool.eqb _ _ = true |- _ => apply Bool.eqb_prop in H
         | H : Bool.eqb _ _ = false |- _ => apply Bool.eqb_false_iff in H
         end.

Ltac unfold_consts :=
  unfold OPAL_STATUS_SUCCESS, OPAL_STATUS_NOT_AUTHORIZED, OPAL_KEY_MAX,
    EPERM, EIO, ENOMEM, EINVAL, ENOTSUP in *.

Ltac run_all := unfold_M; repeat run_step.

(** *** Symbolic execution that keeps the continuation folded *)

Lemma run_bind_eq {E A B} (k : A -> M E B) (m : M E A) (s : state E) :
  (m ≫= k) s =
  match m s with
  | (Ret a, t1, s1) => match k a s1 with (o, t2, s2) => (o, t1 ++ t2, s2) end
  | (AssertFail, t1, s1) => (AssertFail, t1, s1)
  | (Overrun, t1, s1) => (Overrun, t1, s1)
  end.
Proof. reflexivity. Qed.

Lemma ioctl_eq {E} `{Env E} (fd : Z) (c : ioctl_code) (a : ioctl_arg c)
    (s : state E) :
  ioctl fd c a s =
  let '(r, o, e) := env_ioctl fd c a (st_env s) in
  (Ret (r, o), [EvIoctl c a r o], mk_state e (st_heap s)).
Proof. reflexivity. Qed.

Ltac unfold_prims :=
  unfold mret, M_mret, M_ret,
    device_open, assertM, memcpy_key, crypt_safe_alloc, crypt_safe_free,
    store, stack_var, stack_set, log_dbg, log_err, log_std, log, NULL in *.

(** [exec_until stop]: run the operation step by step; [stop m] fails on
    the computation [m] at which the execution is to pause. *)
Ltac exec_bind stop :=
  match goal with
  | |- context [@mbind _ _ ?A ?B ?k ?m ?s] =>
      stop m; rewrite (run_bind_eq k m s)
  | |- context [ioctl ?fd ?c ?a ?s] => rewrite (ioctl_eq fd c a s)
  end.

Ltac exec_until stop :=
  unfold_prims;
  repeat (first [ exec_bind stop | run_step ]; cbv beta iota zeta;
          cbn [fst snd st_env st_heap p_activate p_user_session
               p_user_add_to_lr p_new_pw p_setup p_lock
               from_option ret_block_size]).

Ltac no_stop m := idtac.

(** The same execution, depth first: [leaf] closes each completed run
    before the next case is opened. *)
Ltac exec_dfs_loop stop leaf :=
  tryif first [ exec_bind stop | run_step ]
  then (cbv beta iota zeta;
        cbn [fst snd st_env st_heap p_activate p_user_session
             p_user_add_to_lr p_new_pw p_setup p_lock
             from_option ret_block_size];
        exec_dfs_loop stop leaf)
  else leaf.

Ltac exec_dfs leaf := unfold_prims; exec_dfs_loop no_stop leaf.

(** The part of the run that is not analysed, as an arbitrary outcome. *)
Ltac forget_rest :=
  match goal with
  | |- context [@mbind ?M ?i ?A ?B ?k ?m ?s] =>
      destruct (@mbind M i A B k m s) as [[[?| |] ?] ?]
  end; cbv beta iota.

Section Queries.
Context {E : Type} `{Env E}.

(** What opal_query_status returns once the device is open. *)
Lemma opal_query_status_run (expected : Z) (s : state E) fd e1 r st e2 :
  env_open (st_env s) = (fd, e1) -> 0 <= fd ->
  env_ioctl fd IOC_OPAL_GET_STATUS (mk_opal_status 0) e1 = ((r, st), e2) ->
  opal_query_status expected s =
    (Ret (if r <? 0 then - EINVAL
          else if negb (Z.land (st_flags st) expected =? 0) then 1 else 0),
     [EvOpen fd; EvIoctl IOC_OPAL_GET_STATUS (mk_opal_status 0) r st],
     mk_state e2 (st_heap s)).
Proof.
  intros Hopen Hfd Hio. unfold opal_query_status. unfold_M.
  rewrite Hopen. destruct (Z.ltb_spec fd 0); [lia |].
  cbn. rewrite Hio. reflexivity.
Qed.

(** C10.  Whatever the environment, when the status query of
    opal_supported does not fail (it returns r >= 0 and the flags st),
    opal_supported returns 1 exactly when at least one of the two flag
    bits OPAL_FL_SUPPORTED and OPAL_FL_LOCKING_SUPPORTED is set in the
    reported flags, and 0 exactly when both are clear; in particular a
    drive that reports only OPAL_FL_SUPPORTED is reported as supported. *)
Theorem opal_supported_any_bit (s : state E) (r : Z) (st : opal_status) :
  let run := opal_supported s in
  (r, st) ∈ replies_of IOC_OPAL_GET_STATUS (events run) ->
  0 <= r ->
  (result run = Ret 1 <->
     Z.land (st_flags st) OPAL_FL_SUPPORTED <> 0 \/
     Z.land (st_flags st) OPAL_FL_LOCKING_SUPPORTED <> 0) /\
  (result run = Ret 0 <->
     Z.land (st_flags st) OPAL_FL_SUPPORTED = 0 /\
     Z.land (st_flags st) OPAL_FL_LOCKING_SUPPORTED = 0) /\
  (st_flags st = OPAL_FL_SUPPORTED -> result run = Ret 1).
Proof.
  intros run. subst run. unfold opal_supported, opal_query_status.
  run_all; cbn; intros Hin Hr; inv_elem; tests_to_prop; try lia.
  all: match goal with
       | |- context [Z.land (st_flags ?x) OPAL_FL_SUPPORTED] =>
           pose proof (land_lor_eq_0 (st_flags x) OPAL_FL_SUPPORTED
                         OPAL_FL_LOCKING_SUPPORTED) as Hany;
           set (fl := st_flags x) in *
       end.
  - (* some bit of the mask is set *)
    assert (Hsome : Z.land fl OPAL_FL_SUPPORTED <> 0 \/
                    Z.land fl OPAL_FL_LOCKING_SUPPORTED <> 0).
    { destruct (Z.eq_dec (Z.land fl OPAL_FL_SUPPORTED) 0); [right | left; done].
      intros Hb. match goal with Hnz : _ <> 0 |- _ => apply Hnz, Hany end. done. }
    repeat split; try done.
    intros [Ha Hb]. destruct Hsome; done.
  - (* no bit of the mask is set *)
    match goal with Hz : Z.land _ _ = 0 |- _ => apply Hany in Hz as [Ha Hb] end.
    repeat split; try done.
    + intros [? | ?]; congruence.
    + intros Hf. rewrite Hf in Ha. discriminate Ha.
Qed.

End Queries.

Section ResetOperations.
Context {E : Type} `{Env E}.

(** C7.  Whatever the environment, when the PSID revert call of
    opal_factory_reset returns OPAL_STATUS_NOT_AUTHORIZED the operation
    returns -EPERM, when it returns any other non-success protocol status
    (a positive value) the operation returns -EINVAL, and the two
    classifications differ. *)
Theorem opal_factory_reset_wrong_psid
    (password : list byte) (password_len : Z) (s : state E) (r : Z) :
  let run := opal_factory_reset password password_len s in
  (IOC_OPAL_PSID_REVERT_TPR, r) ∈ calls (events run) ->
  (r = OPAL_STATUS_NOT_AUTHORIZED -> result run = Ret (- EPERM)) /\
  (0 < r -> r <> OPAL_STATUS_NOT_AUTHORIZED -> result run = Ret (- EINVAL)) /\
  - EPERM <> - EINVAL.
Proof.
  intros run Hcall. subst run. revert Hcall.
  unfold opal_factory_reset. run_all.
  all: cbn; intros Hcall; inv_elem.
  all: tests_to_prop; unfold_consts.
  all: repeat split; intros; subst; first [done | lia | (f_equal; lia)].
Qed.

(** A value that fits a __u8 field is stored unchanged. *)
Lemma u8_small (z : Z) : 0 <= z < 2 ^ 8 -> u8 z = z.
Proof. intros Hz. unfold u8. apply Z.mod_small. exact Hz. Qed.

(** C6.  Whatever the environment:
    - every control call of opal_reset_segment other than the status
      query is preceded by the status query of opal_enabled, which is the
      first call of the run, did not fail and reported the
      locking-enabled bit set;
    - when that query fails or reports the bit clear, opal_reset_segment
      returns -EINVAL and issues no other control call; when the operation
      returns 0, an erase or a configure-range call succeeded;
    - the erase call is made as Admin1 on the range: the range field,
      which is a __u8, holds segment_number modulo 256, that is
      segment_number itself for every segment below 256;
    - the secure erase call is issued exactly when the erase call failed;
    - when the erase call succeeds the operation returns 0 and issues no
      configure-range call;
    - a configure-range call is issued only after a successful secure
      erase, and when the secure erase succeeded and no allocation failed
      there is exactly one, with start 0 and length 0. *)
Theorem opal_reset_segment_sequence
    (segment_number : Z) (password : list byte) (password_len : Z)
    (s : state E) :
  let run := opal_reset_segment segment_number password password_len s in
  (forall c r0, (c, r0) ∈ calls (events run) -> c <> IOC_OPAL_GET_STATUS ->
     exists r st,
       replies_of IOC_OPAL_GET_STATUS (events run) = [(r, st)] /\
       head (calls (events run)) = Some (IOC_OPAL_GET_STATUS, r) /\
       0 <= r /\ Z.land (st_flags st) OPAL_FL_LOCKING_ENABLED <> 0) /\
  (result run = Ret 0 ->
     (IOC_OPAL_ERASE_LR, OPAL_STATUS_SUCCESS) ∈ calls (events run) \/
     (IOC_OPAL_LR_SETUP, OPAL_STATUS_SUCCESS) ∈ calls (events run)) /\
  (forall r st, (r, st) ∈ replies_of IOC_OPAL_GET_STATUS (events run) ->
     r < 0 \/ Z.land (st_flags st) OPAL_FL_LOCKING_ENABLED = 0 ->
     result run = Ret (- EINVAL) /\
     calls (events run) = [(IOC_OPAL_GET_STATUS, r)]) /\
  (forall a, a ∈ args_of IOC_OPAL_ERASE_LR (events run) ->
     si_who a = OPAL_ADMIN1 /\ k_lr (si_opal_key a) = u8 segment_number /\
     (0 <= segment_number < 2 ^ 8 -> k_lr (si_opal_key a) = segment_number)) /\
  (IOC_OPAL_SECURE_ERASE_LR ∈ codes (events run) <->
     exists r, r <> OPAL_STATUS_SUCCESS /\
               (IOC_OPAL_ERASE_LR, r) ∈ calls (events run)) /\
  ((IOC_OPAL_ERASE_LR, OPAL_STATUS_SUCCESS) ∈ calls (events run) ->
     result run = Ret 0 /\ args_of IOC_OPAL_LR_SETUP (events run) = []) /\
  ((IOC_OPAL_SECURE_ERASE_LR, OPAL_STATUS_SUCCESS) ∉ calls (events run) ->
     args_of IOC_OPAL_LR_SETUP (events run) = []) /\
  ((IOC_OPAL_SECURE_ERASE_LR, OPAL_STATUS_SUCCESS) ∈ calls (events run) ->
     NULL ∉ allocs (events run) ->
     exists a, args_of IOC_OPAL_LR_SETUP (events run) = [a] /\
               ls_range_start a = 0 /\ ls_range_length a = 0).
Proof.
  intros run. abstract_run run.
  unfold opal_reset_segment, opal_enabled, opal_query_status. run_all.
  all: intros ->; cbn; eval_decide; cbn; simplify_eq; tests_to_prop;
    unfold_consts; simplify_eq; try (exfalso; lia).
  all: repeat match goal with |- _ /\ _ => split end.
  all: lazymatch goal with
       | |- forall c r0, (c, r0) ∈ _ -> c <> _ -> _ =>
           intros ? ? ? ?; inv_elem; try done;
           eexists _, _; repeat split; first [ reflexivity | lia | assumption ]
       | |- _ = Ret 0 -> _ \/ _ =>
           let Hres := fresh in
           intros Hres;
           first [ discriminate Hres
                 | exfalso; injection Hres; lia
                 | left; elem_found | right; elem_found ]
       | |- forall r st, (r, st) ∈ _ -> _ \/ _ -> _ =>
           intros ? ? ? [? | ?]; inv_elem; first [done | exfalso; lia]
       | |- forall a, a ∈ _ -> _ /\ _ =>
           intros ? ?; inv_elem;
           repeat split; first [ done | intros ?; apply u8_small; assumption ]
       | |- _ <-> _ =>
           split;
           [ intros ?; inv_elem; try done; eexists; (split; [| elem_found]; lia)
           | intros (? & ? & ?); inv_elem; try done; try lia; elem_found ]
       | |- (_, _) ∉ _ -> _ =>
           let Hno := fresh in
           intros Hno; first [ reflexivity | exfalso; apply Hno; elem_found ]
       | |- (IOC_OPAL_ERASE_LR, _) ∈ _ -> _ =>
           intros ?; inv_elem; try done; try lia; (split; first [done | f_equal; lia])
       | |- (IOC_OPAL_SECURE_ERASE_LR, _) ∈ _ -> _ -> _ =>
           let Hall := fresh in
           intros ? Hall; inv_elem; try lia; try done;
           first [ exfalso; apply Hall; elem_found
                 | eexists; repeat apply conj; reflexivity ]
       end.
Qed.

End ResetOperations.


Section LockUnlock.
Context {E : Type} `{Env E}.

(** C8.  Whatever the environment: when the lock-state-change call of
    opal_unlock succeeds, the save-for-resume call is issued, the operation
    returns 0 whatever that call returns, and a failure of it is logged;
    opal_lock never issues the save-for-resume call. *)
Theorem opal_unlock_save_is_best_effort
    (segment_number : Z) (vk : option volume_key) (s : state E) :
  let run := opal_unlock segment_number vk s in
  ((IOC_OPAL_LOCK_UNLOCK, OPAL_STATUS_SUCCESS) ∈ calls (events run) ->
   result run = Ret 0 /\
   IOC_OPAL_SAVE ∈ codes (events run) /\
   forall r, (IOC_OPAL_SAVE, r) ∈ calls (events run) ->
             r <> OPAL_STATUS_SUCCESS ->
             exists args,
               (LOG_NORMAL,
                "Failed to prepare OPAL device '%s' for sleep resume, be aware before suspending: %s",
                args) ∈ logs (events run)) /\
  IOC_OPAL_SAVE ∉ codes (events (opal_lock segment_number s)).
Proof.
  intros run. subst run. split.
  - unfold opal_unlock, opal_lock_unlock, opal_supported, opal_query_status.
    cbn [negb]. destruct vk as [k |]; run_all.
    all: cbn; intros Hcall; inv_elem; tests_to_prop; unfold_consts; try lia.
    all: split; [first [done | f_equal; lia] | split; [elem_found |]].
    all: intros r Hsave Hr; inv_elem; try lia.
    all: eexists; elem_found.
  - unfold opal_lock, opal_lock_unlock, opal_supported, opal_query_status.
    cbn [negb]. run_all.
    all: elem_absent.
Qed.

End LockUnlock.

Section Verifier.
Context {E : Type} `{Env E}.

(** The two lock states derived from the reported state. *)
Lemma read_locked_of_spec (l : Z) : read_locked_of l = true <-> l = OPAL_LK.
Proof. unfold read_locked_of. apply Z.eqb_eq. Qed.

Lemma write_locked_of_bits (l : Z) :
  write_locked_of l = true <-> Z.testbit l 0 = true \/ Z.testbit l 2 = true.
Proof.
  unfold write_locked_of. rewrite negb_true_iff, Z.eqb_neq.
  change (Z.lor OPAL_RO OPAL_LK) with 5.
  split.
  - intros Hnz.
    destruct (Z.testbit l 0) eqn:H0; [by left |].
    destruct (Z.testbit l 2) eqn:H2; [by right |].
    exfalso. apply Hnz. apply Z.bits_inj'. intros n Hn.
    rewrite Z.land_spec, Z.bits_0.
    destruct (Z.eq_dec n 0) as [-> | Hn0]; [by rewrite H0 |].
    destruct (Z.eq_dec n 2) as [-> | Hn2]; [by rewrite H2 |].
    replace (Z.testbit 5 n) with false; [apply andb_false_r |].
    destruct (Z.eq_dec n 1) as [-> | Hn1]; [reflexivity |].
    symmetry. apply (Z.bits_above_log2 5 n); [lia |].
    change (Z.log2 5) with 2. lia.
  - intros Hbit Hz.
    assert (H0 : Z.testbit (Z.land l 5) 0 = false) by (rewrite Hz; apply Z.bits_0).
    assert (H2 : Z.testbit (Z.land l 5) 2 = false) by (rewrite Hz; apply Z.bits_0).
    rewrite Z.land_spec in H0, H2.
    change (Z.testbit 5 0) with true in H0. change (Z.testbit 5 2) with true in H2.
    rewrite andb_true_r in H0, H2. destruct Hbit; congruence.
Qed.

Lemma write_locked_of_spec (l : Z) :
  l ∈ [OPAL_RO; OPAL_RW; OPAL_LK] ->
  (write_locked_of l = true <-> l = OPAL_LK \/ l = OPAL_RO).
Proof.
  intros Hl. inv_elem; (split; [intros Hw | intros [Heq | Heq]]);
    first [ discriminate | reflexivity | (left; reflexivity) | (right; reflexivity) ].
Qed.

(** C5.  Whatever the environment and whichever expectations are passed:
    once the geometry query and the range status query of the verifier
    have succeeded,
    - a clear range-lock-enabled or write-lock-enabled flag makes the
      verifier return -EINVAL and is logged;
    - every supplied expectation that does not hold is logged and makes
      the verifier return -EINVAL, whatever the other checks found;
    - the verifier returns 0 exactly when both flags are set and every
      supplied expectation holds;
    - the range is read-locked exactly when its state is OPAL_LK, and
      write-locked exactly when its state is OPAL_LK or OPAL_RO. *)
Theorem opal_range_check_attributes_fd_checks
    (fd segment_number : Z) (vk : volume_key)
    (check_offset_sectors check_length_sectors : option Z)
    (check_read_locked check_write_locked : option bool)
    (s : state E) (geo : struct_opal_geometry) (lrs : opal_lr_status) :
  let run := opal_range_check_attributes_fd fd segment_number vk
               check_offset_sectors check_length_sectors
               check_read_locked check_write_locked s in
  (OPAL_STATUS_SUCCESS, geo) ∈ replies_of IOC_OPAL_GET_GEOMETRY (events run) ->
  (OPAL_STATUS_SUCCESS, lrs) ∈ replies_of IOC_OPAL_GET_LR_STATUS (events run) ->
  let offset :=
    u64 (lrs_range_start lrs * geo_logical_block_size geo) / SECTOR_SIZE in
  let length :=
    u64 (lrs_range_length lrs * geo_logical_block_size geo) / SECTOR_SIZE in
  let read_locked := read_locked_of (lrs_l_state lrs) in
  let write_locked := write_locked_of (lrs_l_state lrs) in
  (lrs_RLE lrs = 0 \/ lrs_WLE lrs = 0 ->
   result run = Ret (- EINVAL) /\
   (LOG_ERROR, "OPAL range %d locking is disabled.", [LInt segment_number])
     ∈ logs (events run)) /\
  (forall x, check_offset_sectors = Some x -> offset <> x ->
   result run = Ret (- EINVAL) /\
   (LOG_ERROR, "OPAL range %d offset %lu does not match expected values %lu.",
    [LInt segment_number; LInt offset; LInt x]) ∈ logs (events run)) /\
  (forall x, check_length_sectors = Some x -> length <> x ->
   result run = Ret (- EINVAL) /\
   (LOG_ERROR, "OPAL range %d length %lu does not match device length %lu.",
    [LInt segment_number; LInt length; LInt x]) ∈ logs (events run)) /\
  (forall b, check_read_locked = Some b -> b <> read_locked ->
   result run = Ret (- EINVAL) /\
   (LOG_DEBUG, "OPAL range %d read lock is %slocked.",
    [LInt segment_number; LStr (Some (if b then "" else "not "))])
     ∈ logs (events run)) /\
  (forall b, check_write_locked = Some b -> b <> write_locked ->
   result run = Ret (- EINVAL) /\
   (LOG_DEBUG, "OPAL range %d write lock is %slocked.",
    [LInt segment_number; LStr (Some (if b then "" else "not "))])
     ∈ logs (events run)) /\
  (result run = Ret 0 <->
   lrs_RLE lrs <> 0 /\ lrs_WLE lrs <> 0 /\
   (forall x, check_offset_sectors = Some x -> offset = x) /\
   (forall x, check_length_sectors = Some x -> length = x) /\
   (forall b, check_read_locked = Some b -> b = read_locked) /\
   (forall b, check_write_locked = Some b -> b = write_locked)) /\
  (read_locked = true <-> lrs_l_state lrs = OPAL_LK) /\
  (lrs_l_state lrs ∈ [OPAL_RO; OPAL_RW; OPAL_LK] ->
   (write_locked = true <->
    lrs_l_state lrs = OPAL_LK \/ lrs_l_state lrs = OPAL_RO)).
Proof.
  intros run. abstract_run_as run P.
  unfold opal_range_check_attributes_fd, opal_geometry_fd.
  exec_dfs ltac:(
    intros ->; subst P; cbv beta zeta;
    cbn [events result final fst snd]; rewrite ?app_nil_r; cbn [app];
    cbn [replies_of reply_of logs log_of omap list_omap]; eval_decide;
    cbn [replies_of reply_of logs log_of omap list_omap];
    intros Hgeo Hlrs; inv_elem; tests_to_prop; try congruence;
    repeat match goal with |- _ /\ _ => split end;
    lazymatch goal with
    | |- _ \/ _ -> _ =>
        intros [? | ?];
        first [ congruence
              | split; [reflexivity | solve_elem] ]
    | |- forall x, _ = Some x -> _ -> _ /\ _ =>
        intros ? ? ?; simplify_eq;
        first [ congruence
              | split; [reflexivity | solve_elem] ]
    | |- Ret _ = Ret 0 <-> _ =>
        split;
        [ let Heq := fresh in
          intros Heq;
          first [ solve [repeat split; intros; simplify_eq; congruence]
                | exfalso; injection Heq; unfold EINVAL; lia ]
        | intros (? & ? & ? & ? & ? & ?);
          first [ reflexivity
                | exfalso;
                  repeat match goal with
                         | Hx : forall x, Some ?a = Some x -> _ |- _ =>
                             specialize (Hx a eq_refl)
                         end;
                  congruence ] ]
    | |- read_locked_of _ = true <-> _ => apply read_locked_of_spec
    | |- _ ∈ _ -> _ => apply write_locked_of_spec
    end).
Qed.

End Verifier.

Section KeyLength.
Context {E : Type} `{Env E}.

(** C4, as the code has it.  An admin key, PSID or password longer than
    OPAL_KEY_MAX is rejected with -EINVAL by opal_setup_ranges (when the
    volume key is within the maximum), opal_factory_reset and
    opal_reset_segment before the device is opened, anything is allocated
    or any control call is issued.  A volume key longer than OPAL_KEY_MAX
    is not rejected with a classification: opal_setup_ranges stops at its
    assertion before doing anything, and opal_unlock returns -ENOTSUP or
    -EIO or stops at its assertion, having issued at most the status query
    and never the lock-state-change call. *)
Theorem overlong_key_handling (s : state E) :
  (forall vk range_start range_length segment_number admin_key admin_key_len,
     keylength vk <= OPAL_KEY_MAX -> OPAL_KEY_MAX < admin_key_len ->
     opal_setup_ranges vk range_start range_length segment_number
       admin_key admin_key_len s = (Ret (- EINVAL), [], s)) /\
  (forall password password_len,
     OPAL_KEY_MAX < password_len ->
     result (opal_factory_reset password password_len s) = Ret (- EINVAL) /\
     events (opal_factory_reset password password_len s) = []) /\
  (forall segment_number password password_len,
     OPAL_KEY_MAX < password_len ->
     opal_reset_segment segment_number password password_len s =
       (Ret (- EINVAL), [], s)) /\
  (forall vk range_start range_length segment_number admin_key admin_key_len,
     OPAL_KEY_MAX < keylength vk ->
     opal_setup_ranges vk range_start range_length segment_number
       admin_key admin_key_len s = (AssertFail, [], s)) /\
  (forall segment_number vk,
     OPAL_KEY_MAX < keylength vk ->
     let run := opal_unlock segment_number (Some vk) s in
     result run ∈ [Ret (- ENOTSUP); Ret (- EIO); AssertFail] /\
     forall c, c ∈ codes (events run) -> c = IOC_OPAL_GET_STATUS).
Proof.
  repeat match goal with |- _ /\ _ => split end.
  - intros vk rs rl seg ak akl Hvk Hak.
    unfold opal_setup_ranges. rewrite run_bind_eq. unfold assertM.
    rewrite (proj2 (Z.leb_le _ _) Hvk).
    replace (akl >? OPAL_KEY_MAX) with true
      by (symmetry; rewrite Z.gtb_ltb; apply Z.ltb_lt; exact Hak).
    reflexivity.
  - intros pw len Hlen. unfold opal_factory_reset.
    rewrite run_bind_eq. unfold stack_var. cbv beta iota zeta.
    replace (len >? OPAL_KEY_MAX) with true
      by (symmetry; rewrite Z.gtb_ltb; apply Z.ltb_lt; exact Hlen).
    split; reflexivity.
  - intros seg pw len Hlen. unfold opal_reset_segment.
    replace (len >? OPAL_KEY_MAX) with true
      by (symmetry; rewrite Z.gtb_ltb; apply Z.ltb_lt; exact Hlen).
    reflexivity.
  - intros vk rs rl seg ak akl Hvk.
    unfold opal_setup_ranges. rewrite run_bind_eq. unfold assertM.
    rewrite (proj2 (Z.leb_gt _ _) Hvk). reflexivity.
  - intros seg vk Hvk run. abstract_run run.
    pose proof (proj2 (Z.leb_gt _ _) Hvk) as Hb.
    unfold opal_unlock, opal_lock_unlock, opal_supported, opal_query_status.
    replace (bool_decide (is_Some (Some vk))) with true by reflexivity.
    cbn [negb andb].
    exec_dfs ltac:(
      intros ->; cbn [events result final fst snd];
      split;
      [ solve_elem
      | rewrite ?app_nil_r; cbn [app codes calls call_of omap list_omap fmap list_fmap fst];
        intros c Hc; inv_elem; reflexivity ]).
Qed.

End KeyLength.

Section Provisioning.
Context {E : Type} `{Env E}.

(** The analysis pauses where locking is found enabled, and after the
    take-ownership call succeeded. *)
Ltac stop_after_take_ownership m :=
  lazymatch m with
  | ioctl _ IOC_OPAL_ERASE_LR _ => fail
  | ioctl _ IOC_OPAL_ACTIVATE_LSP _ => fail
  | _ => idtac
  end.


End Provisioning.

(** ** Sector and native-block units *)

(** On a drive with 512-byte blocks a block count and a sector count are
    the same number. *)
Lemma sectors_of_512_byte_blocks (x : Z) :
  0 <= x < 2 ^ 55 -> u64 (x * 512) / SECTOR_SIZE = x.
Proof.
  intros Hx. unfold u64. change SECTOR_SIZE with 512.
  rewrite Z.mod_small by lia. apply Z.div_mul. lia.
Qed.

(** On a drive with 4096-byte blocks a block count is an eighth of the
    sector count: a number read as blocks and then as sectors changes. *)
Lemma sectors_of_4096_byte_blocks (x : Z) :
  0 <= x < 2 ^ 52 -> u64 (x * 4096) / SECTOR_SIZE = 8 * x.
Proof.
  intros Hx. unfold u64. change SECTOR_SIZE with 512.
  rewrite Z.mod_small by lia.
  replace (x * 4096) with ((8 * x) * 512) by lia. apply Z.div_mul. lia.
Qed.

(** ** The provisioning sequence on concrete drives *)

(** On a drive with 512-byte blocks where locking was never enabled and
    every command succeeds, opal_setup_ranges succeeds, issues the twelve
    calls of the sequence in order and releases every block. *)
Lemma opal_setup_ranges_512_byte_drive :
  let run := opal_setup_ranges a_volume_key 8 16 1 a_admin_key 5
               (sim_new 3 512 all_ok) in
  result run = Ret 0 /\
  codes (events run) =
    [IOC_OPAL_GET_STATUS; IOC_OPAL_TAKE_OWNERSHIP; IOC_OPAL_ACTIVATE_LSP;
     IOC_OPAL_ACTIVATE_USR; IOC_OPAL_ADD_USR_TO_LR; IOC_OPAL_ADD_USR_TO_LR;
     IOC_OPAL_SET_PW; IOC_OPAL_LR_SETUP; IOC_OPAL_LOCK_UNLOCK;
     IOC_OPAL_GET_GEOMETRY; IOC_OPAL_GET_LR_STATUS] /\
  Forall (fun b => b = Freed) (st_heap (final run)).
Proof.
  vm_compute. repeat split; repeat constructor.
Qed.

(** C1 (as far as the code goes).  On a drive with 4096-byte blocks on
    which every command succeeds and which reports back the range it was
    given, opal_setup_ranges 8 16 passes start 8 and length 16 to the
    configure-range call unconverted, its own final verification then
    reads the range back as offset 64 and length 128 sectors, logs both
    mismatches and the operation returns -EINVAL; a following
    opal_range_check_attributes with the same offset and length returns
    -EINVAL as well. *)
Theorem opal_setup_ranges_4096_byte_drive_mismatch :
  let run := opal_setup_ranges a_volume_key 8 16 1 a_admin_key 5
               (sim_new 3 4096 all_ok) in
  (IOC_OPAL_LR_SETUP, OPAL_STATUS_SUCCESS) ∈ calls (events run) /\
  ls_range_start <$> args_of IOC_OPAL_LR_SETUP (events run) = [8] /\
  ls_range_length <$> args_of IOC_OPAL_LR_SETUP (events run) = [16] /\
  result run = Ret (- EINVAL) /\
  (LOG_ERROR, "OPAL range %d offset %lu does not match expected values %lu.",
   [LInt 1; LInt 64; LInt 8]) ∈ logs (events run) /\
  (LOG_ERROR, "OPAL range %d length %lu does not match device length %lu.",
   [LInt 1; LInt 128; LInt 16]) ∈ logs (events run) /\
  result (opal_range_check_attributes 1 a_volume_key (Some 8) (Some 16)
            None None (final run)) = Ret (- EINVAL).
Proof.
  vm_compute. repeat split; solve_elem.
Qed.

(** C9 (as far as the code goes).  On a drive where locking is already
    enabled and every command succeeds, opal_setup_ranges returns 0 and
    leaves the first block it allocated, the Admin1 session of the erase
    call with its copy of the admin key, neither wiped nor released: the
    pointer to it was overwritten by the second allocation.  Every other
    block is released. *)
Theorem opal_setup_ranges_leaks_admin_session :
  let run := opal_setup_ranges a_volume_key 8 16 1 a_admin_key 5
               (sim_new 7 512 all_ok) in
  result run = Ret 0 /\
  st_heap (final run) !! 0%nat =
    Some (Live (BSession
                  (mk_opal_session_info OPAL_ADMIN1
                     (mk_opal_key 1 5 (memcpy zero_key_array a_admin_key 5))))) /\
  take 5 (memcpy zero_key_array a_admin_key 5) = a_admin_key /\
  Forall (fun b => b = Freed) (drop 1 (st_heap (final run))).
Proof.
  vm_compute. repeat split; repeat constructor.
Qed.

(** C4 does not hold as stated: opal_unlock with a volume key of
    OPAL_KEY_MAX + 1 bytes, on a drive that supports OPAL, does not return
    -EINVAL before any control call: it issues the status query and then
    stops at its assertion. *)
Lemma opal_unlock_overlong_volume_key_not_rejected :
  let run := opal_unlock 1 (Some a_long_volume_key) (sim_new 3 512 all_ok) in
  OPAL_KEY_MAX < keylength a_long_volume_key /\
  result run = AssertFail /\
  calls (events run) = [(IOC_OPAL_GET_STATUS, OPAL_STATUS_SUCCESS)] /\
  ~ (result run = Ret (- EINVAL) /\ calls (events run) = []).
Proof.
  vm_compute. repeat split; try reflexivity.
  intros [Hres _]. discriminate Hres.
Qed.

(** ** The theorems at concrete drives *)


(** An over-long admin key, with a volume key within the maximum. *)
Lemma overlong_key_handling_witness :
  keylength a_volume_key <= OPAL_KEY_MAX /\
  OPAL_KEY_MAX < OPAL_KEY_MAX + 1 /\
  opal_setup_ranges a_volume_key 8 16 1 a_long_key (OPAL_KEY_MAX + 1)
    (sim_new 3 512 all_ok) = (Ret (- EINVAL), [], sim_new 3 512 all_ok).
Proof.
  assert (H1 : keylength a_volume_key <= OPAL_KEY_MAX) by (vm_compute; discriminate).
  assert (H2 : OPAL_KEY_MAX < OPAL_KEY_MAX + 1) by lia.
  exact (conj H1 (conj H2
           (proj1 (overlong_key_handling (sim_new 3 512 all_ok))
              a_volume_key 8 16 1 a_long_key (OPAL_KEY_MAX + 1) H1 H2))).
Defined.

(** A range whose enable flags are clear, verified against a length it
    does not have. *)
Lemma opal_range_check_attributes_fd_checks_witness :
  let run := opal_range_check_attributes_fd 3 1 a_volume_key
               (Some 0) (Some 5) (Some true) None (sim_new 7 512 all_ok) in
  let geo := mk_opal_geometry 0 512 0 0 in
  let lrs :=
    mk_opal_lr_status
      (mk_opal_session_info 2
         (mk_opal_key 1 4 (memcpy zero_key_array (vk_key a_volume_key) 4)))
      0 0 0 0 OPAL_RW in
  (OPAL_STATUS_SUCCESS, geo) ∈ replies_of IOC_OPAL_GET_GEOMETRY (events run) /\
  (OPAL_STATUS_SUCCESS, lrs) ∈ replies_of IOC_OPAL_GET_LR_STATUS (events run) /\
  result run = Ret (- EINVAL) /\
  (LOG_ERROR, "OPAL range %d locking is disabled.", [LInt 1]) ∈ logs (events run).
Proof.
  intros run geo lrs.
  assert (H1 : (OPAL_STATUS_SUCCESS, geo)
                 ∈ replies_of IOC_OPAL_GET_GEOMETRY (events run))
    by (vm_compute; solve_elem).
  assert (H2 : (OPAL_STATUS_SUCCESS, lrs)
                 ∈ replies_of IOC_OPAL_GET_LR_STATUS (events run))
    by (vm_compute; solve_elem).
  exact (conj H1 (conj H2
           (proj1 (opal_range_check_attributes_fd_checks
                     3 1 a_volume_key (Some 0) (Some 5) (Some true) None
                     (sim_new 7 512 all_ok) geo lrs H1 H2)
                  (or_introl eq_refl)))).
Defined.

(** A drive on which erase fails and secure erase succeeds. *)
Lemma opal_reset_segment_sequence_witness :
  let run := opal_reset_segment 1 a_admin_key 5
               (sim_new 7 512
                  (status_at IOC_OPAL_ERASE_LR OPAL_STATUS_FAIL all_ok)) in
  (IOC_OPAL_ERASE_LR, OPAL_STATUS_FAIL) ∈ calls (events run) /\
  IOC_OPAL_ERASE_LR <> IOC_OPAL_GET_STATUS /\
  (exists r st,
     replies_of IOC_OPAL_GET_STATUS (events run) = [(r, st)] /\
     head (calls (events run)) = Some (IOC_OPAL_GET_STATUS, r) /\
     0 <= r /\ Z.land (st_flags st) OPAL_FL_LOCKING_ENABLED <> 0) /\
  (IOC_OPAL_SECURE_ERASE_LR, OPAL_STATUS_SUCCESS) ∈ calls (events run) /\
  (NULL ∉ allocs (events run)) /\
  exists a, args_of IOC_OPAL_LR_SETUP (events run) = [a] /\
            ls_range_start a = 0 /\ ls_range_length a = 0.
Proof.
  intros run.
  pose (Hseq := opal_reset_segment_sequence 1 a_admin_key 5
                  (sim_new 7 512
                     (status_at IOC_OPAL_ERASE_LR OPAL_STATUS_FAIL all_ok))).
  assert (H0 : (IOC_OPAL_ERASE_LR, OPAL_STATUS_FAIL) ∈ calls (events run))
    by (vm_compute; solve_elem).
  assert (Hne : IOC_OPAL_ERASE_LR <> IOC_OPAL_GET_STATUS) by discriminate.
  assert (H1 : (IOC_OPAL_SECURE_ERASE_LR, OPAL_STATUS_SUCCESS)
                 ∈ calls (events run)) by (vm_compute; solve_elem).
  assert (Hallocs : allocs (events run) = [Some 0%nat; Some 1%nat])
    by (vm_compute; reflexivity).
  assert (H2 : NULL ∉ allocs (events run))
    by (rewrite Hallocs; intros Hin; inv_elem).
  exact (conj H0 (conj Hne
           (conj (proj1 Hseq IOC_OPAL_ERASE_LR OPAL_STATUS_FAIL H0 Hne)
              (conj H1 (conj H2
                 (proj2 (proj2 (proj2 (proj2 (proj2 (proj2 (proj2 Hseq))))))
                    H1 H2)))))).
Defined.

(** A drive that answers the PSID revert with "not authorized". *)
Lemma opal_factory_reset_wrong_psid_witness :
  let run := opal_factory_reset (bytes_of "psid") 4
               (sim_new 3 512
                  (status_at IOC_OPAL_PSID_REVERT_TPR OPAL_STATUS_NOT_AUTHORIZED
                             all_ok)) in
  (IOC_OPAL_PSID_REVERT_TPR, OPAL_STATUS_NOT_AUTHORIZED) ∈ calls (events run) /\
  result run = Ret (- EPERM).
Proof.
  intros run.
  assert (H1 : (IOC_OPAL_PSID_REVERT_TPR, OPAL_STATUS_NOT_AUTHORIZED)
                 ∈ calls (events run)) by (vm_compute; solve_elem).
  exact (conj H1
           (proj1 (opal_factory_reset_wrong_psid (bytes_of "psid") 4
                     (sim_new 3 512
                        (status_at IOC_OPAL_PSID_REVERT_TPR
                                   OPAL_STATUS_NOT_AUTHORIZED all_ok))
                     OPAL_STATUS_NOT_AUTHORIZED H1)
                  eq_refl)).
Defined.

(** A drive on which unlocking succeeds and save-for-resume fails. *)
Lemma opal_unlock_save_is_best_effort_witness :
  let run := opal_unlock 1 (Some a_volume_key)
               (sim_new 3 512 (status_at IOC_OPAL_SAVE OPAL_STATUS_FAIL all_ok)) in
  (IOC_OPAL_LOCK_UNLOCK, OPAL_STATUS_SUCCESS) ∈ calls (events run) /\
  (IOC_OPAL_SAVE, OPAL_STATUS_FAIL) ∈ calls (events run) /\
  result run = Ret 0.
Proof.
  intros run.
  assert (H1 : (IOC_OPAL_LOCK_UNLOCK, OPAL_STATUS_SUCCESS) ∈ calls (events run))
    by (vm_compute; solve_elem).
  assert (H2 : (IOC_OPAL_SAVE, OPAL_STATUS_FAIL) ∈ calls (events run))
    by (vm_compute; solve_elem).
  exact (conj H1 (conj H2
           (proj1 (proj1 (opal_unlock_save_is_best_effort 1 (Some a_volume_key)
                            (sim_new 3 512
                               (status_at IOC_OPAL_SAVE OPAL_STATUS_FAIL all_ok)))
                         H1)))).
Defined.

(** A drive that advertises OPAL support without locking support. *)
Lemma opal_supported_any_bit_witness :
  let run := opal_supported (sim_new OPAL_FL_SUPPORTED 512 all_ok) in
  (0, mk_opal_status OPAL_FL_SUPPORTED)
    ∈ replies_of IOC_OPAL_GET_STATUS (events run) /\
  0 <= 0 /\
  result run = Ret 1.
Proof.
  intros run.
  assert (H1 : (0, mk_opal_status OPAL_FL_SUPPORTED)
                 ∈ replies_of IOC_OPAL_GET_STATUS (events run))
    by (vm_compute; solve_elem).
  assert (H2 : 0 <= 0) by lia.
  exact (conj H1 (conj H2
           (proj2 (proj2 (opal_supported_any_bit
                            (sim_new OPAL_FL_SUPPORTED 512 all_ok)
                            0 (mk_opal_status OPAL_FL_SUPPORTED) H1 H2))
                  eq_refl))).
Defined.

(** * Further properties of the operations *)

(** The run under study, named, with the statement about it folded into
    [P] while its cases are analysed. *)
Ltac fold_run run P :=
  let Hrun := fresh "Hrun" in
  pose proof (eq_refl run) as Hrun; unfold run at 2 in Hrun;
  clearbody run; revert run Hrun;
  match goal with
  | |- forall r, r = ?X -> @?G r =>
      pose (P := G); change (forall r, r = X -> P r); intros run
  end.

Section QueryResults.
Context {E : Type} `{Env E}.

(** X1.  opal_query_status, and so opal_supported and opal_enabled,
    returns only -EIO, -EINVAL, 0 or 1 and issues at most the one status
    query; it returns -EIO exactly when it issued no control call (the
    device could not be opened); a negative status of the query gives
    -EINVAL, while a positive status is not treated as a failure: the
    reported flags are still tested against the mask. *)
Theorem opal_query_status_results (expected : Z) (s : state E) :
  let run := opal_query_status expected s in
  result run ∈ [Ret (- EIO); Ret (- EINVAL); Ret 0; Ret 1] /\
  (result run = Ret (- EIO) <-> calls (events run) = []) /\
  (forall r st, (r, st) ∈ replies_of IOC_OPAL_GET_STATUS (events run) ->
     calls (events run) = [(IOC_OPAL_GET_STATUS, r)] /\
     (r < 0 -> result run = Ret (- EINVAL)) /\
     (0 <= r ->
      result run = Ret (if Z.land (st_flags st) expected =? 0 then 0 else 1))).
Proof.
  intros run. abstract_run run. unfold opal_query_status.
  exec_dfs ltac:(
    intros ->; cbn [events result final fst snd]; rewrite ?app_nil_r; cbn [app];
    cbn [replies_of reply_of calls call_of omap list_omap]; eval_decide;
    cbn [replies_of reply_of calls call_of omap list_omap];
    tests_to_prop;
    repeat match goal with |- _ /\ _ => split end;
    lazymatch goal with
    | |- _ ∈ _ => solve_elem
    | |- _ <-> _ =>
        split; intros Heq; first [ reflexivity | discriminate Heq
                                 | exfalso; injection Heq; unfold_consts; lia ]
    | |- forall r st, _ ∈ _ -> _ =>
        intros ? ? Hin; inv_elem;
        repeat match goal with |- _ /\ _ => split end;
        first [ reflexivity
              | intros ?; first [ exfalso; lia | reflexivity
                                | repeat case_match; tests_to_prop;
                                  first [ reflexivity | congruence | lia ] ] ]
    end).
Qed.

End QueryResults.

Section LockUnlockResults.
Context {E : Type} `{Env E}.

(** Symbolic execution of opal_lock_unlock with the statement folded. *)
Ltac exec_lock_unlock leaf :=
  unfold opal_unlock, opal_lock, opal_lock_unlock, opal_supported,
    opal_query_status;
  exec_dfs leaf.

(** X2.  Whatever the environment, the key and the direction: the status
    r of the lock-state-change call decides the result of
    opal_lock_unlock: a negative r gives -ENOTSUP, OPAL_STATUS_NOT_AUTHORIZED
    gives -EPERM, any other positive status gives -EINVAL, and in all three
    cases the save-for-resume call is not issued; when locking, success
    gives 0. *)
Theorem opal_lock_unlock_classification
    (segment_number : Z) (vk : option volume_key) (lock : bool)
    (s : state E) (r : Z) :
  let run := opal_lock_unlock segment_number vk lock s in
  (IOC_OPAL_LOCK_UNLOCK, r) ∈ calls (events run) ->
  (r < 0 -> result run = Ret (- ENOTSUP)) /\
  (r = OPAL_STATUS_NOT_AUTHORIZED -> result run = Ret (- EPERM)) /\
  (OPAL_STATUS_NOT_AUTHORIZED < r -> result run = Ret (- EINVAL)) /\
  (r <> OPAL_STATUS_SUCCESS -> IOC_OPAL_SAVE ∉ codes (events run)) /\
  (lock = true -> r = OPAL_STATUS_SUCCESS ->
   result run = Ret 0 /\ IOC_OPAL_SAVE ∉ codes (events run)).
Proof.
  intros run. abstract_run_as run P.
  destruct lock, vk; cbn [negb].
  all: exec_lock_unlock ltac:(
    intros ->; subst P; cbv beta;
    cbn [events result final fst snd]; rewrite ?app_nil_r; cbn [app];
    cbn [codes calls call_of omap list_omap fmap list_fmap fst]; eval_decide;
    intros Hin; inv_elem; tests_to_prop; unfold_consts;
    repeat match goal with |- _ /\ _ => split end;
    intros; try (exfalso; lia); try discriminate; simplify_eq;
    first [ reflexivity
          | elem_absent
          | split; [reflexivity | elem_absent] ]).
Qed.

(** X3.  Whatever the environment, the key and the direction: when the
    status query of opal_lock_unlock fails or reports neither the
    OPAL-supported nor the locking-supported bit, the operation returns
    -ENOTSUP and issues no other control call; and when it issues no control
    call at all (the device could not be opened for the query) it returns
    -ENOTSUP as well, not -EIO. *)
Theorem opal_lock_unlock_not_supported
    (segment_number : Z) (vk : option volume_key) (lock : bool)
    (s : state E) :
  let run := opal_lock_unlock segment_number vk lock s in
  (forall r st, (r, st) ∈ replies_of IOC_OPAL_GET_STATUS (events run) ->
     r < 0 \/
     Z.land (st_flags st)
       (Z.lor OPAL_FL_SUPPORTED OPAL_FL_LOCKING_SUPPORTED) = 0 ->
     result run = Ret (- ENOTSUP) /\
     calls (events run) = [(IOC_OPAL_GET_STATUS, r)]) /\
  (calls (events run) = [] -> result run = Ret (- ENOTSUP)).
Proof.
  intros run. abstract_run_as run P.
  destruct lock, vk; cbn [negb].
  all: exec_lock_unlock ltac:(
    intros ->; subst P; cbv beta;
    cbn [events result final fst snd]; rewrite ?app_nil_r; cbn [app];
    cbn [replies_of reply_of calls call_of omap list_omap]; eval_decide;
    cbn [replies_of reply_of calls call_of omap list_omap];
    tests_to_prop; unfold_consts;
    split;
    [ intros ? ? Hin [? | ?]; inv_elem;
      first [ exfalso; lia | exfalso; congruence | split; reflexivity ]
    | intros Hnil; first [ discriminate Hnil | reflexivity ] ]).
Qed.

(** X4.  Whatever the environment: opal_unlock without a key never issues
    the lock-state-change call and never stops at an assertion; it returns
    -EINVAL when the status query succeeded and reported the
    OPAL-supported or the locking-supported bit, and -ENOTSUP in every
    other case: when no control call was issued, when the query failed,
    and when it reported neither bit. *)
Theorem opal_unlock_without_key (segment_number : Z) (s : state E) :
  let run := opal_unlock segment_number None s in
  result run ∈ [Ret (- ENOTSUP); Ret (- EINVAL)] /\
  (forall c, c ∈ codes (events run) -> c = IOC_OPAL_GET_STATUS) /\
  (forall r st, (r, st) ∈ replies_of IOC_OPAL_GET_STATUS (events run) ->
     0 <= r ->
     Z.land (st_flags st)
       (Z.lor OPAL_FL_SUPPORTED OPAL_FL_LOCKING_SUPPORTED) <> 0 ->
     result run = Ret (- EINVAL)) /\
  (forall r st, (r, st) ∈ replies_of IOC_OPAL_GET_STATUS (events run) ->
     r < 0 \/
     Z.land (st_flags st)
       (Z.lor OPAL_FL_SUPPORTED OPAL_FL_LOCKING_SUPPORTED) = 0 ->
     result run = Ret (- ENOTSUP)) /\
  (calls (events run) = [] -> result run = Ret (- ENOTSUP)) /\
  (result run = Ret (- EINVAL) ->
   exists r st,
     replies_of IOC_OPAL_GET_STATUS (events run) = [(r, st)] /\
     0 <= r /\
     Z.land (st_flags st)
       (Z.lor OPAL_FL_SUPPORTED OPAL_FL_LOCKING_SUPPORTED) <> 0).
Proof.
  intros run. fold_run run P.
  exec_lock_unlock ltac:(
    intros ->; subst P; cbv beta;
    cbn [events result final fst snd]; rewrite ?app_nil_r; cbn [app];
    cbn [replies_of reply_of codes calls call_of omap list_omap
         fmap list_fmap fst]; eval_decide;
    cbn [replies_of reply_of codes calls call_of omap list_omap
         fmap list_fmap fst];
    tests_to_prop; unfold_consts;
    (split; [ solve_elem |]);
    (split; [ intros ? Hin; inv_elem; reflexivity |]);
    (split;
     [ intros ? ? Hin ? ?; inv_elem;
       first [ reflexivity | exfalso; lia | exfalso; congruence ] |]);
    (split;
     [ intros ? ? Hin [? | ?]; inv_elem;
       first [ reflexivity | exfalso; lia | exfalso; congruence ] |]);
    (split; [ intros Hnil; first [ reflexivity | discriminate Hnil ] |]);
    intros Hres;
    first [ discriminate Hres
          | exfalso; injection Hres; lia
          | eexists _, _; repeat split;
            first [ reflexivity | lia | assumption ] ]).
Qed.

End LockUnlockResults.

(** ** Wiping of the key copies held in automatic variables *)

(** Wiping the bytes that were copied gives back the all-zero array. *)
Lemma memzero_memcpy (src : list byte) (n : Z) :
  0 <= n <= OPAL_KEY_MAX -> n <= Z.of_nat (length src) ->
  crypt_safe_memzero (memcpy zero_key_array src n) n = zero_key_array.
Proof.
  intros Hn Hsrc. unfold crypt_safe_memzero, memcpy, zero_key_array.
  assert (Hlen : length (take (Z.to_nat n) src) = Z.to_nat n)
    by (rewrite length_take; lia).
  rewrite drop_app_length' by (symmetry; exact Hlen).
  rewrite drop_replicate, <- replicate_add. f_equal. unfold OPAL_KEY_MAX in *. lia.
Qed.

(** The length that the wipe uses is the one read back from the __u8
    field: for a copy shorter than the array it is the length of the copy
    and the array is wiped. *)
Lemma memzero_u8_short (src : list byte) (n : Z) :
  0 <= n < OPAL_KEY_MAX -> n <= Z.of_nat (length src) ->
  crypt_safe_memzero (memcpy zero_key_array src n) (u8 n) = zero_key_array.
Proof.
  intros Hn Hsrc.
  rewrite u8_small by (unfold OPAL_KEY_MAX in Hn; lia).
  apply memzero_memcpy; lia.
Qed.

(** For a copy that fills the array it is 0, and nothing is wiped. *)
Lemma memzero_u8_full (src : list byte) :
  crypt_safe_memzero (memcpy zero_key_array src OPAL_KEY_MAX)
                     (u8 OPAL_KEY_MAX) = take (Z.to_nat OPAL_KEY_MAX) src.
Proof.
  change (u8 OPAL_KEY_MAX) with 0.
  unfold crypt_safe_memzero, memcpy, zero_key_array.
  change (Z.to_nat 0) with 0%nat. cbn [replicate drop app].
  rewrite drop_replicate, Nat.sub_diag. cbn [replicate].
  apply app_nil_r.
Qed.

Lemma insert_last {A} (l : list A) (x y : A) :
  <[length l := x]> (l ++ [y]) = l ++ [x].
Proof.
  rewrite insert_app_r_alt by lia. rewrite Nat.sub_diag. reflexivity.
Qed.

Section KeyWiping.
Context {E : Type} `{Env E}.

(** X5.  Whatever the environment and the direction, for a key buffer that
    holds keylength bytes, whenever opal_lock_unlock returns its automatic
    variable [unlock] is the only change to the memory, and:
    for a key shorter than OPAL_KEY_MAX its key array is all zero;
    for a key of exactly OPAL_KEY_MAX bytes, which the assertion accepts,
    the __u8 field key_len holds 0, so once the request has been issued
    the wipe at [out] clears nothing and the array still holds the key. *)
Theorem opal_lock_unlock_wipes_key
    (segment_number : Z) (vk : option volume_key) (lock : bool)
    (s : state E) :
  (forall k, vk = Some k -> 0 <= keylength k <= Z.of_nat (length (vk_key k))) ->
  let run := opal_lock_unlock segment_number vk lock s in
  forall z, result run = Ret z ->
    exists u,
      st_heap (final run) = st_heap s ++ [Stack (BLockUnlock u)] /\
      ((forall k, vk = Some k -> keylength k < OPAL_KEY_MAX) ->
       k_key (si_opal_key (lu_session u)) = zero_key_array) /\
      (forall k, vk = Some k -> lock = false ->
         keylength k = OPAL_KEY_MAX ->
         IOC_OPAL_LOCK_UNLOCK ∈ codes (events run) ->
         k_key_len (si_opal_key (lu_session u)) = 0 /\
         k_key (si_opal_key (lu_session u)) =
           take (Z.to_nat OPAL_KEY_MAX) (vk_key k)).
Proof.
  intros Hvk run. fold_run run P.
  destruct lock, vk as [k |]; cbn [negb];
    try (specialize (Hvk k eq_refl)).
  all: unfold opal_lock_unlock, opal_supported, opal_query_status.
  all: exec_dfs ltac:(
    intros ->; subst P; cbv beta;
    cbn [events result final fst snd st_heap];
    rewrite ?app_nil_r; cbn [app];
    cbn [codes calls call_of omap list_omap fmap list_fmap fst];
    repeat rewrite list_insert_insert_eq; rewrite ?insert_last;
    let Hres := fresh in
    intros ? Hres;
    first
      [ discriminate Hres
      | eexists;
        (split; [ reflexivity |]);
        cbn [k_key si_opal_key lu_session k_key_len set_session_key set_key
             si_who k_lr lu_l_state lu_flags];
        tests_to_prop;
        (split;
         [ intros Hshort;
           first [ reflexivity
                 | specialize (Hshort _ eq_refl);
                   apply memzero_u8_short; lia ]
         | intros k' Hk' Hlock Hfull Hcall;
           first [ discriminate Hk' | discriminate Hlock
                 | exfalso; inv_elem; done
                 | injection Hk' as <-; rewrite Hfull;
                   split; [ reflexivity | apply memzero_u8_full ] ] ]) ]).
Qed.

(** X6.  Whatever the environment, for a PSID buffer that holds
    password_len bytes: opal_factory_reset always returns, its automatic
    variable [reset] is the only change to the memory, and:
    for a PSID of any other length than OPAL_KEY_MAX its key array is all
    zero when the operation returns;
    for a PSID of exactly OPAL_KEY_MAX bytes, which the length check
    accepts, the __u8 field key_len holds 0, so once the device has been
    opened the wipe at [out] clears nothing and the array still holds
    the PSID. *)
Theorem opal_factory_reset_wipes_key
    (password : list byte) (password_len : Z) (s : state E) :
  0 <= password_len <= Z.of_nat (length password) ->
  let run := opal_factory_reset password password_len s in
  (exists z, result run = Ret z) /\
  exists k,
    st_heap (final run) = st_heap s ++ [Stack (BKey k)] /\
    (password_len <> OPAL_KEY_MAX -> k_key k = zero_key_array) /\
    (password_len = OPAL_KEY_MAX ->
     IOC_OPAL_PSID_REVERT_TPR ∈ codes (events run) ->
     k_key_len k = 0 /\
     k_key k = take (Z.to_nat OPAL_KEY_MAX) password).
Proof.
  intros Hlen run. fold_run run P.
  unfold opal_factory_reset.
  exec_dfs ltac:(
    intros ->; subst P; cbv beta;
    cbn [events result final fst snd st_heap];
    rewrite ?app_nil_r; cbn [app];
    cbn [codes calls call_of omap list_omap fmap list_fmap fst];
    repeat rewrite list_insert_insert_eq; rewrite ?insert_last;
    (split; [ eexists; reflexivity |]);
    eexists;
    (split; [ reflexivity |]);
    cbn [k_key k_key_len set_key k_lr]; tests_to_prop;
    (split;
     [ intros Hne;
       first [ reflexivity
             | apply memzero_u8_short; unfold OPAL_KEY_MAX in *; lia ]
     | intros Hfull Hcall;
       first [ exfalso; inv_elem; done
             | rewrite Hfull;
               split; [ reflexivity | apply memzero_u8_full ] ] ])).
Qed.

End KeyWiping.

(** A key of exactly OPAL_KEY_MAX bytes, unlocking on a drive that accepts
    it: the request announces the length 0, and the copy of the key is
    still in the parameter block when the operation has returned. *)
Lemma opal_lock_unlock_wipes_key_witness :
  let s := sim_new 3 512 all_ok in
  let run := opal_lock_unlock 1 (Some a_full_volume_key) false s in
  (forall k, Some a_full_volume_key = Some k ->
             0 <= keylength k <= Z.of_nat (length (vk_key k))) /\
  result run = Ret 0 /\
  exists u,
    st_heap (final run) = st_heap s ++ [Stack (BLockUnlock u)] /\
    k_key_len (si_opal_key (lu_session u)) = 0 /\
    k_key (si_opal_key (lu_session u)) = a_full_key.
Proof.
  intros s run.
  assert (H1 : forall k, Some a_full_volume_key = Some k ->
                         0 <= keylength k <= Z.of_nat (length (vk_key k))).
  { intros k [= <-]. vm_compute. split; discriminate. }
  assert (H2 : result run = Ret 0) by (vm_compute; reflexivity).
  assert (H3 : IOC_OPAL_LOCK_UNLOCK ∈ codes (events run)).
  { replace (codes (events run))
      with [IOC_OPAL_GET_STATUS; IOC_OPAL_LOCK_UNLOCK; IOC_OPAL_SAVE]
      by (vm_compute; reflexivity).
    solve_elem. }
  split; [ exact H1 |]. split; [ exact H2 |].
  destruct (opal_lock_unlock_wipes_key 1 (Some a_full_volume_key) false s H1
              0 H2) as (u & Hheap & _ & Hfull).
  exists u. split; [ exact Hheap |].
  destruct (Hfull a_full_volume_key eq_refl eq_refl eq_refl H3) as [Hlen Hkey].
  split; [ exact Hlen |]. rewrite Hkey. vm_compute. reflexivity.
Defined.

(** A PSID of exactly OPAL_KEY_MAX bytes on a drive that performs the
    revert: the request announces the length 0, and the copy of the PSID
    is still in the key block when the operation has returned. *)
Lemma opal_factory_reset_wipes_key_witness :
  let s := sim_new 3 512 all_ok in
  let run := opal_factory_reset a_full_key OPAL_KEY_MAX s in
  0 <= OPAL_KEY_MAX <= Z.of_nat (length a_full_key) /\
  result run = Ret 0 /\
  exists k,
    st_heap (final run) = st_heap s ++ [Stack (BKey k)] /\
    k_key_len k = 0 /\ k_key k = a_full_key.
Proof.
  intros s run.
  assert (H1 : 0 <= OPAL_KEY_MAX <= Z.of_nat (length a_full_key))
    by (vm_compute; split; discriminate).
  assert (H2 : result run = Ret 0) by (vm_compute; reflexivity).
  assert (H3 : IOC_OPAL_PSID_REVERT_TPR ∈ codes (events run)).
  { replace (codes (events run)) with [IOC_OPAL_PSID_REVERT_TPR]
      by (vm_compute; reflexivity).
    solve_elem. }
  split; [ exact H1 |]. split; [ exact H2 |].
  destruct (opal_factory_reset_wipes_key a_full_key OPAL_KEY_MAX s H1)
    as (_ & k & Hheap & _ & Hfull).
  exists k. split; [ exact Hheap |].
  destruct (Hfull eq_refl H3) as [Hlen Hkey].
  split; [ exact Hlen |]. rewrite Hkey. vm_compute. reflexivity.
Defined.

(** ** Release of the blocks of the secure heap *)

Lemma insert_at_length {A} (l1 l2 : list A) (x : A) :
  <[length l1 := x]> (l1 ++ l2) = l1 ++ <[0%nat := x]> l2.
Proof.
  rewrite <- (Nat.add_0_r (length l1)) at 1. apply insert_app_r.
Qed.

(** A heap written as the initial heap followed by the blocks of the run. *)
Ltac heap_norm :=
  repeat (progress (
    rewrite ?length_insert, ?length_app, <- ?Nat.add_assoc, <- ?app_assoc,
      ?insert_app_r, ?insert_at_length;
    cbn [length app Nat.add insert list_insert])).

Ltac heap_norm_in Hh :=
  repeat (progress (
    rewrite ?length_insert, ?length_app, <- ?Nat.add_assoc, <- ?app_assoc,
      ?insert_app_r, ?insert_at_length in Hh;
    cbn [length app Nat.add insert list_insert] in Hh)).

Section BlockRelease.
Context {E : Type} `{Env E}.

(** X7.  Whatever the environment and the arguments: opal_reset_segment
    always returns, and on every path each block it obtained from the
    secure heap has been released and no block of the caller is touched. *)
Theorem opal_reset_segment_releases_blocks
    (segment_number : Z) (password : list byte) (password_len : Z)
    (s : state E) :
  let run := opal_reset_segment segment_number password password_len s in
  (exists z, result run = Ret z) /\
  st_heap (final run) =
    st_heap s ++ replicate (length (omap id (allocs (events run)))) Freed.
Proof.
  intros run. abstract_run_as run P.
  unfold opal_reset_segment, opal_enabled, opal_query_status.
  exec_dfs ltac:(
    intros ->; subst P; cbv beta;
    cbn [events result final fst snd st_heap];
    rewrite ?app_nil_r; cbn [app];
    cbn [allocs alloc_of omap list_omap id length replicate];
    heap_norm; rewrite ?app_nil_r;
    split; [ eexists; reflexivity | reflexivity ]).
Qed.

(** The runs of the verifier, for every environment: it stops after a
    failed geometry query, after a failed allocation, after the range
    status query, or at the copy of a volume key that is longer than the
    key array. *)
Lemma opal_range_check_attributes_fd_runs
    (fd segment_number : Z) (vk : volume_key)
    (check_offset_sectors check_length_sectors : option Z)
    (check_read_locked check_write_locked : option bool) (s : state E) :
  0 <= fd ->
  let run := opal_range_check_attributes_fd fd segment_number vk
               check_offset_sectors check_length_sectors
               check_read_locked check_write_locked s in
  let session (key : list byte) :=
    mk_opal_session_info (u32 (segment_number + 1))
      (mk_opal_key (u8 segment_number) (u8 (keylength vk)) key) in
  exists o tv sv,
    run = (o, tv, sv) /\
    (forall c, c <> IOC_OPAL_GET_GEOMETRY -> c <> IOC_OPAL_GET_LR_STATUS ->
               args_of c tv = []) /\
    ((exists r,
        calls tv = [(IOC_OPAL_GET_GEOMETRY, r)] /\
        args_of IOC_OPAL_GET_LR_STATUS tv = [] /\
        allocs tv = [] /\ logs tv = [] /\ st_heap sv = st_heap s /\
        r <> OPAL_STATUS_SUCCESS /\ o = Ret (- EINVAL)) \/
     (calls tv = [(IOC_OPAL_GET_GEOMETRY, OPAL_STATUS_SUCCESS)] /\
      args_of IOC_OPAL_GET_LR_STATUS tv = [] /\
      allocs tv = [NULL] /\ logs tv = [] /\ st_heap sv = st_heap s /\
      o = Ret (- ENOMEM)) \/
     (exists r z,
        calls tv = [(IOC_OPAL_GET_GEOMETRY, OPAL_STATUS_SUCCESS);
                    (IOC_OPAL_GET_LR_STATUS, r)] /\
        args_of IOC_OPAL_GET_LR_STATUS tv =
          [mk_opal_lr_status
             (session (memcpy zero_key_array (vk_key vk) (keylength vk)))
             0 0 0 0 0] /\
        allocs tv = [Some (length (st_heap s))] /\
        st_heap sv = st_heap s ++ [Freed] /\
        keylength vk <= OPAL_KEY_MAX /\
        o = Ret z /\
        (z = 0 \/ z = - EINVAL) /\
        (r <> OPAL_STATUS_SUCCESS ->
         z = - EINVAL /\ Forall (fun l => l.1.1 = LOG_DEBUG) (logs tv))) \/
     (calls tv = [(IOC_OPAL_GET_GEOMETRY, OPAL_STATUS_SUCCESS)] /\
      args_of IOC_OPAL_GET_LR_STATUS tv = [] /\
      allocs tv = [Some (length (st_heap s))] /\ logs tv = [] /\
      st_heap sv =
        st_heap s ++
        [Live (BLrStatus (mk_opal_lr_status (session zero_key_array)
                                            0 0 0 0 0))] /\
      OPAL_KEY_MAX < keylength vk /\
      o = Overrun)).
Proof.
  intros Hfd run. fold_run run P.
  apply Z.leb_le in Hfd.
  unfold opal_range_check_attributes_fd, opal_geometry_fd.
  exec_dfs ltac:(
    intros ->; subst P; cbv beta zeta;
    cbn [events result final fst snd st_heap];
    rewrite ?app_nil_r; cbn [app];
    first
      [ discriminate
      | eexists _, _, _; (split; [ reflexivity |]);
        (split;
         [ intros c Hc1 Hc2; cbn [args_of omap list_omap arg_of];
           repeat (destruct (decide _) as [Heq | _]; [ congruence |]);
           reflexivity |]);
        cbn [calls call_of allocs alloc_of logs log_of args_of arg_of
             omap list_omap];
        eval_decide; heap_norm; tests_to_prop; subst;
        first
          [ left; eexists;
            solve [ repeat (split; [ reflexivity |]);
                    split; [ assumption | reflexivity ] ]
          | right; left; solve [ repeat split ]
          | right; right; left; eexists _, _;
            do 4 (split; [ reflexivity |]);
            (split; [ assumption |]);
            (split; [ reflexivity |]);
            (split; [ first [ left; reflexivity | right; reflexivity ] |]);
            intros Hr;
            first [ exfalso; apply Hr; reflexivity
                  | split; [ reflexivity | repeat constructor ] ]
          | right; right; right;
            do 5 (split; [ reflexivity |]);
            split; [ assumption | reflexivity ] ] ]).
Qed.

(** The same for a volume key that fits the key array, as the callers of
    the verifier inside this file guarantee: the verifier returns. *)
Lemma opal_range_check_attributes_fd_summary
    (fd segment_number : Z) (vk : volume_key)
    (check_offset_sectors check_length_sectors : option Z)
    (check_read_locked check_write_locked : option bool) (s : state E) :
  0 <= fd -> keylength vk <= OPAL_KEY_MAX ->
  let run := opal_range_check_attributes_fd fd segment_number vk
               check_offset_sectors check_length_sectors
               check_read_locked check_write_locked s in
  exists z tv sv,
    run = (Ret z, tv, sv) /\
    (forall c, c <> IOC_OPAL_GET_GEOMETRY -> c <> IOC_OPAL_GET_LR_STATUS ->
               args_of c tv = []) /\
    ((exists r,
        calls tv = [(IOC_OPAL_GET_GEOMETRY, r)] /\
        args_of IOC_OPAL_GET_LR_STATUS tv = [] /\
        allocs tv = [] /\ logs tv = [] /\ st_heap sv = st_heap s /\
        r <> OPAL_STATUS_SUCCESS /\ z = - EINVAL) \/
     (calls tv = [(IOC_OPAL_GET_GEOMETRY, OPAL_STATUS_SUCCESS)] /\
      args_of IOC_OPAL_GET_LR_STATUS tv = [] /\
      allocs tv = [NULL] /\ logs tv = [] /\ st_heap sv = st_heap s /\
      z = - ENOMEM) \/
     (exists r,
        calls tv = [(IOC_OPAL_GET_GEOMETRY, OPAL_STATUS_SUCCESS);
                    (IOC_OPAL_GET_LR_STATUS, r)] /\
        args_of IOC_OPAL_GET_LR_STATUS tv =
          [mk_opal_lr_status
             (mk_opal_session_info (u32 (segment_number + 1))
                (mk_opal_key (u8 segment_number) (u8 (keylength vk))
                   (memcpy zero_key_array (vk_key vk) (keylength vk))))
             0 0 0 0 0] /\
        allocs tv = [Some (length (st_heap s))] /\
        st_heap sv = st_heap s ++ [Freed] /\
        (z = 0 \/ z = - EINVAL) /\
        (r <> OPAL_STATUS_SUCCESS ->
         z = - EINVAL /\ Forall (fun l => l.1.1 = LOG_DEBUG) (logs tv)))).
Proof.
  intros Hfd Hvk run.
  destruct (opal_range_check_attributes_fd_runs fd segment_number vk
              check_offset_sectors check_length_sectors
              check_read_locked check_write_locked s Hfd)
    as (o & tv & sv & Hrun & Hargs & Hshape).
  cbv zeta in Hshape.
  destruct Hshape
    as [(r & Hc & Ha & Hal & Hl & Hh & Hr & ->)
       | [(Hc & Ha & Hal & Hl & Hh & ->)
         | [(r & z & Hc & Ha & Hal & Hh & _ & -> & Hz & Hfail)
           | (_ & _ & _ & _ & _ & Hlong & _)]]].
  - exists (- EINVAL), tv, sv. split; [ exact Hrun |]. split; [ exact Hargs |].
    left. exists r. repeat split; assumption.
  - exists (- ENOMEM), tv, sv. split; [ exact Hrun |]. split; [ exact Hargs |].
    right; left. repeat split; assumption.
  - exists z, tv, sv. split; [ exact Hrun |]. split; [ exact Hargs |].
    right; right. exists r. repeat split; try assumption; apply Hfail; assumption.
  - exfalso. lia.
Qed.

(** X8.  Whatever the environment, the range and the expectations: called
    with an open descriptor and a volume key of at most OPAL_KEY_MAX
    bytes, opal_range_check_attributes_fd always returns; it obtains at
    most one block from the secure heap, has released it on every path,
    and touches no block of the caller. *)
Theorem opal_range_check_attributes_fd_releases_block
    (fd segment_number : Z) (vk : volume_key)
    (check_offset_sectors check_length_sectors : option Z)
    (check_read_locked check_write_locked : option bool) (s : state E) :
  0 <= fd -> keylength vk <= OPAL_KEY_MAX ->
  let run := opal_range_check_attributes_fd fd segment_number vk
               check_offset_sectors check_length_sectors
               check_read_locked check_write_locked s in
  (exists z, result run = Ret z) /\
  (length (allocs (events run)) <= 1)%nat /\
  st_heap (final run) =
    st_heap s ++ replicate (length (omap id (allocs (events run)))) Freed.
Proof.
  intros Hfd Hvk run.
  destruct (opal_range_check_attributes_fd_summary fd segment_number vk
              check_offset_sectors check_length_sectors
              check_read_locked check_write_locked s Hfd Hvk)
    as (z & tv & sv & Hrun & _ & Hshape).
  subst run. rewrite Hrun. cbn [result events final fst snd].
  split; [ eexists; reflexivity |].
  destruct Hshape as [(r & _ & _ & -> & _ & -> & _)
                     | [(_ & _ & -> & _ & -> & _)
                       | (r & _ & _ & -> & -> & _)]];
    cbn [length omap list_omap id replicate NULL]; rewrite ?app_nil_r;
    (split; [ lia | reflexivity ]).
Qed.

(** X9.  Whatever the environment, the range and the expectations, for an
    open descriptor and a volume key of at most OPAL_KEY_MAX bytes: a
    geometry query that does not succeed makes the verifier return -EINVAL
    without allocating, logging or querying the range; an allocation
    failure gives -ENOMEM without a range query; a range status query that
    does not succeed gives -EINVAL with debug messages only; and the range
    status is requested as the user of the segment (segment_number + 1)
    with a copy of the volume key, the __u8 fields of the key block
    holding the segment number and the key length modulo 256. *)
Theorem opal_range_check_attributes_fd_failures
    (fd segment_number : Z) (vk : volume_key)
    (check_offset_sectors check_length_sectors : option Z)
    (check_read_locked check_write_locked : option bool) (s : state E) :
  0 <= fd -> keylength vk <= OPAL_KEY_MAX ->
  let run := opal_range_check_attributes_fd fd segment_number vk
               check_offset_sectors check_length_sectors
               check_read_locked check_write_locked s in
  (forall r, (IOC_OPAL_GET_GEOMETRY, r) ∈ calls (events run) ->
     r <> OPAL_STATUS_SUCCESS ->
     result run = Ret (- EINVAL) /\
     calls (events run) = [(IOC_OPAL_GET_GEOMETRY, r)] /\
     allocs (events run) = [] /\ logs (events run) = []) /\
  (NULL ∈ allocs (events run) ->
     result run = Ret (- ENOMEM) /\
     codes (events run) = [IOC_OPAL_GET_GEOMETRY]) /\
  (forall r, (IOC_OPAL_GET_LR_STATUS, r) ∈ calls (events run) ->
     r <> OPAL_STATUS_SUCCESS ->
     result run = Ret (- EINVAL) /\
     forall l, l ∈ logs (events run) -> l.1.1 = LOG_DEBUG) /\
  (forall a, a ∈ args_of IOC_OPAL_GET_LR_STATUS (events run) ->
     si_who (lrs_session a) = u32 (segment_number + 1) /\
     k_lr (si_opal_key (lrs_session a)) = u8 segment_number /\
     k_key_len (si_opal_key (lrs_session a)) = u8 (keylength vk) /\
     k_key (si_opal_key (lrs_session a)) =
       memcpy zero_key_array (vk_key vk) (keylength vk)).
Proof.
  intros Hfd Hvk run.
  destruct (opal_range_check_attributes_fd_summary fd segment_number vk
              check_offset_sectors check_length_sectors
              check_read_locked check_write_locked s Hfd Hvk)
    as (z & tv & sv & Hrun & _ & Hshape).
  subst run. rewrite Hrun. cbn [result events final fst snd]. unfold codes.
  destruct Hshape as [(r & Hc & Hargs & Ha & Hl & _ & Hr & ->)
                     | [(Hc & Hargs & Ha & Hl & _ & ->)
                       | (r & Hc & Hargs & Ha & _ & Hz & Hfail)]];
    rewrite ?Hc, ?Hargs, ?Ha, ?Hl; cbn [fmap list_fmap fst].
  - repeat match goal with |- _ /\ _ => split end.
    + intros r' Hin _; inv_elem. repeat split.
    + intros Hin; inv_elem.
    + intros r' Hin; inv_elem.
    + intros a Hin; inv_elem.
  - repeat match goal with |- _ /\ _ => split end.
    + intros r' Hin Hr'; inv_elem; try (exfalso; apply Hr'; reflexivity).
    + intros _. split; reflexivity.
    + intros r' Hin; inv_elem.
    + intros a Hin; inv_elem.
  - repeat match goal with |- _ /\ _ => split end.
    + intros r' Hin Hr'; inv_elem; try (exfalso; apply Hr'; reflexivity).
    + intros Hin; inv_elem.
    + intros r' Hin Hr'; inv_elem; try (exfalso; apply Hr'; reflexivity).
      destruct (Hfail Hr') as [-> Hlogs].
      split; [ reflexivity |].
      intros l Hl. rewrite Forall_forall in Hlogs. apply Hlogs, Hl.
    + intros a Hin; inv_elem. repeat split.
Qed.


End BlockRelease.

(** ** The provisioning sequence, for every environment *)

Section SetupSummary.
Context {E : Type} `{Env E}.

Ltac stop_at_verifier m :=
  lazymatch m with
  | opal_range_check_attributes_fd _ _ _ _ _ _ _ => fail
  | _ => idtac
  end.

(** Depth-first execution that keeps the heap written as the initial heap
    followed by the blocks of the run, so that the addresses of the blocks
    stay small. *)
Ltac exec_heap_loop stop leaf :=
  tryif first [ exec_bind stop | run_step ]
  then (cbv beta iota zeta;
        cbn [fst snd st_env st_heap p_activate p_user_session
             p_user_add_to_lr p_new_pw p_setup p_lock
             from_option ret_block_size];
        heap_norm;
        exec_heap_loop stop leaf)
  else leaf.

(** A completed run: its projections are computed once each, the part of
    the verifier is replaced by what is known of it, and the statement is
    proved from them. *)
Ltac setup_final P :=
  let Hrun := fresh "Hrun" in
  let Hres := fresh "Hres" in
  let Hcalls := fresh "Hcalls" in
  let Hallocs := fresh "Hallocs" in
  let Hheap := fresh "Hheap" in
  let Hpw := fresh "Hpw" in
  let Hsetup := fresh "Hsetup" in
  let Hlock := fresh "Hlock" in
  let Hadd := fresh "Hadd" in
  intros Hrun;
  rewrite ?app_nil_r in Hrun;
  lazymatch type of Hrun with
  | ?run = (?o, ?t, ?st) =>
      let t' := eval cbn [app] in t in
      let vcalls := eval cbn [calls call_of omap list_omap] in (calls t') in
      let vallocs :=
        eval cbn [allocs alloc_of omap list_omap] in (allocs t') in
      let vheap := eval cbn [st_heap] in (st_heap st) in
      let vpw := eval cbn [args_of arg_of omap list_omap]
                 in (args_of IOC_OPAL_SET_PW t') in
      let vsetup := eval cbn [args_of arg_of omap list_omap]
                    in (args_of IOC_OPAL_LR_SETUP t') in
      let vlock := eval cbn [args_of arg_of omap list_omap]
                   in (args_of IOC_OPAL_LOCK_UNLOCK t') in
      let vadd := eval cbn [args_of arg_of omap list_omap]
                  in (args_of IOC_OPAL_ADD_USR_TO_LR t') in
      assert (Hres : result run = o) by (rewrite Hrun; reflexivity);
      assert (Hcalls : calls (events run) = vcalls)
        by (rewrite Hrun; reflexivity);
      assert (Hallocs : allocs (events run) = vallocs)
        by (rewrite Hrun; reflexivity);
      assert (Hheap : st_heap (final run) = vheap)
        by (rewrite Hrun; reflexivity);
      assert (Hpw : args_of IOC_OPAL_SET_PW (events run) = vpw)
        by (rewrite Hrun; reflexivity);
      assert (Hsetup : args_of IOC_OPAL_LR_SETUP (events run) = vsetup)
        by (rewrite Hrun; reflexivity);
      assert (Hlock : args_of IOC_OPAL_LOCK_UNLOCK (events run) = vlock)
        by (rewrite Hrun; reflexivity);
      assert (Hadd : args_of IOC_OPAL_ADD_USR_TO_LR (events run) = vadd)
        by (rewrite Hrun; reflexivity);
      clear Hrun
  end;
  eval_decide; cbn [omap list_omap] in Hpw, Hsetup, Hlock, Hadd;
  lazymatch goal with
  | Hshape : _ \/ _ \/ _, Hargs : forall c, _ -> _ -> args_of c _ = [] |- _ =>
      let Hx := fresh "Hx" in
      pose proof (Hargs IOC_OPAL_SET_PW ltac:(discriminate) ltac:(discriminate))
        as Hx; unfold args_of in Hx; rewrite Hx in Hpw; clear Hx;
      pose proof (Hargs IOC_OPAL_LR_SETUP ltac:(discriminate)
                    ltac:(discriminate))
        as Hx; unfold args_of in Hx; rewrite Hx in Hsetup; clear Hx;
      pose proof (Hargs IOC_OPAL_LOCK_UNLOCK ltac:(discriminate)
                    ltac:(discriminate))
        as Hx; unfold args_of in Hx; rewrite Hx in Hlock; clear Hx;
      pose proof (Hargs IOC_OPAL_ADD_USR_TO_LR ltac:(discriminate)
                    ltac:(discriminate))
        as Hx; unfold args_of in Hx; rewrite Hx in Hadd; clear Hx Hargs;
      destruct Hshape as
        [(rg & Hc & _ & Ha & _ & Hh & Hrg & ->)
        | [(Hc & _ & Ha & _ & Hh & ->)
          | (rl & Hc & _ & Ha & Hh & Hz & Hfail)]];
      [ | | destruct (decide (rl = OPAL_STATUS_SUCCESS)) as [-> | Hrl];
            [ destruct Hz as [-> | ->]
            | destruct (Hfail Hrl) as [-> _] ] ];
      unfold calls, allocs in Hc, Ha; cbn [st_heap] in Hh, Ha;
      rewrite Hc in Hcalls; rewrite Ha in Hallocs; rewrite Hh in Hheap;
      clear Hc Ha Hh
  | _ => idtac
  end;
  heap_norm_in Hheap; rewrite ?app_nil_r in Hheap;
  subst P; cbv beta zeta; unfold codes;
  rewrite Hres, Hcalls, Hallocs, Hheap, Hpw, Hsetup, Hlock, Hadd;
  clear Hres Hcalls Hallocs Hheap Hpw Hsetup Hlock Hadd;
  cbn [fmap list_fmap fst removelast last omap list_omap id length
       replicate Nat.sub];
  rewrite ?app_nil_r;
  tests_to_prop; subst;
  (split; [ eexists; (split; [ reflexivity | solve_elem ]) |]);
  (split;
   [ intros Hres';
     first [ reflexivity | discriminate Hres'
           | exfalso; injection Hres'; unfold_consts; lia
           | exfalso; congruence ] |]);
  (split;
   [ first [ left; eexists; reflexivity
           | right; left; eexists; reflexivity
           | right; right; eexists; reflexivity ] |]);
  (split;
   [ repeat (constructor;
             [ cbn [fst snd];
               first [ left; reflexivity
                     | right; left; reflexivity
                     | right; right; split; [ reflexivity | lia ] ] |]);
     constructor |]);
  (split;
   [ intros Hn1 Hn2;
     first [ reflexivity
           | exfalso;
             first [ apply Hn1; solve_elem | apply Hn2; solve_elem ] ] |]);
  (split;
   [ intros Hin;
     first [ reflexivity
           | exfalso; destruct Hin as [Hin | Hin]; inv_elem;
             first [ done | congruence ] ] |]);
  do 3 (split; [ intros a Hin; inv_elem; reflexivity |]);
  (split; [ eexists; reflexivity |]);
  unfold NULL;
  (split;
   [ intros Hin; first [ reflexivity | exfalso; inv_elem; done ]
   | intros Hres';
     first [ solve_elem | discriminate Hres'
           | exfalso; injection Hres'; unfold_consts; lia ] ]).

(** At the call of the verifier its summary is used; elsewhere the run is
    complete. *)
Ltac setup_leaf P :=
  idtac;
  lazymatch goal with
  | |- context [@mbind _ _ _ _ ?k
                  (opal_range_check_attributes_fd ?fd ?seg ?vk ?a ?b ?c ?d) ?s0] =>
      let Hfd := fresh "Hfd" in
      assert (Hfd : 0 <= fd) by (apply Z.ltb_ge; assumption);
      let Hfit := fresh "Hfit" in
      assert (Hfit : keylength vk <= OPAL_KEY_MAX)
        by (apply Z.leb_le; assumption);
      rewrite (run_bind_eq k
                 (opal_range_check_attributes_fd fd seg vk a b c d) s0);
      let Hs := fresh "Hs" in
      pose proof (opal_range_check_attributes_fd_summary
                    fd seg vk a b c d s0 Hfd Hfit) as Hs;
      cbv zeta in Hs;
      destruct Hs as (zv & tv & sv & Hv & Hargs & Hshape);
      rewrite Hv; clear Hv;
      cbv beta iota zeta;
      cbn [fst snd st_env st_heap p_activate p_user_session
           p_user_add_to_lr p_new_pw p_setup p_lock];
      exec_heap_loop no_stop ltac:(setup_final P)
  | _ => setup_final P
  end.

(** The runs of opal_setup_ranges, for every environment. *)
Lemma opal_setup_ranges_summary
    (vk : volume_key) (range_start range_length segment_number : Z)
    (admin_key : list byte) (admin_key_len : Z) (s : state E) :
  keylength vk <= OPAL_KEY_MAX ->
  let run := opal_setup_ranges vk range_start range_length segment_number
               admin_key admin_key_len s in
  let admin :=
    mk_opal_key (u8 segment_number) (u8 admin_key_len)
      (memcpy zero_key_array admin_key admin_key_len) in
  let user :=
    mk_opal_session_info (u32 (segment_number + 1))
      (mk_opal_key (u8 segment_number) (u8 (keylength vk))
         (memcpy zero_key_array (vk_key vk) (keylength vk))) in
  (exists z, result run = Ret z /\
             z ∈ [0; - EINVAL; - EIO; - ENOMEM; - ENOTSUP; - EPERM]) /\
  (result run = Ret 0 ->
   last (calls (events run)) =
     Some (IOC_OPAL_GET_LR_STATUS, OPAL_STATUS_SUCCESS)) /\
  (codes (events run) `prefix_of`
     [IOC_OPAL_GET_STATUS; IOC_OPAL_TAKE_OWNERSHIP; IOC_OPAL_ACTIVATE_LSP;
      IOC_OPAL_ACTIVATE_USR; IOC_OPAL_ADD_USR_TO_LR; IOC_OPAL_ADD_USR_TO_LR;
      IOC_OPAL_SET_PW; IOC_OPAL_LR_SETUP; IOC_OPAL_LOCK_UNLOCK;
      IOC_OPAL_GET_GEOMETRY; IOC_OPAL_GET_LR_STATUS] \/
   codes (events run) `prefix_of`
     [IOC_OPAL_GET_STATUS; IOC_OPAL_ERASE_LR;
      IOC_OPAL_ACTIVATE_USR; IOC_OPAL_ADD_USR_TO_LR; IOC_OPAL_ADD_USR_TO_LR;
      IOC_OPAL_SET_PW; IOC_OPAL_LR_SETUP; IOC_OPAL_LOCK_UNLOCK;
      IOC_OPAL_GET_GEOMETRY; IOC_OPAL_GET_LR_STATUS] \/
   codes (events run) `prefix_of`
     [IOC_OPAL_GET_STATUS; IOC_OPAL_ERASE_LR; IOC_OPAL_SECURE_ERASE_LR;
      IOC_OPAL_ACTIVATE_USR; IOC_OPAL_ADD_USR_TO_LR; IOC_OPAL_ADD_USR_TO_LR;
      IOC_OPAL_SET_PW; IOC_OPAL_LR_SETUP; IOC_OPAL_LOCK_UNLOCK;
      IOC_OPAL_GET_GEOMETRY; IOC_OPAL_GET_LR_STATUS]) /\
  Forall (fun cr => cr.2 = OPAL_STATUS_SUCCESS \/
                    cr.1 = IOC_OPAL_ERASE_LR \/
                    (cr.1 = IOC_OPAL_GET_STATUS /\ 0 <= cr.2))
         (removelast (calls (events run))) /\
  ((IOC_OPAL_ERASE_LR, OPAL_STATUS_SUCCESS) ∉ calls (events run) ->
   (IOC_OPAL_SECURE_ERASE_LR, OPAL_STATUS_SUCCESS) ∉ calls (events run) ->
   st_heap (final run) =
     st_heap s ++ replicate (length (omap id (allocs (events run)))) Freed) /\
  ((IOC_OPAL_ERASE_LR, OPAL_STATUS_SUCCESS) ∈ calls (events run) \/
   (IOC_OPAL_SECURE_ERASE_LR, OPAL_STATUS_SUCCESS) ∈ calls (events run) ->
   st_heap (final run) =
     st_heap s ++
     Live (BSession (mk_opal_session_info OPAL_ADMIN1 admin)) ::
     replicate (length (omap id (allocs (events run))) - 1) Freed) /\
  (forall a, a ∈ args_of IOC_OPAL_SET_PW (events run) ->
     a = mk_opal_new_pw (mk_opal_session_info OPAL_ADMIN1 admin) user) /\
  (forall a, a ∈ args_of IOC_OPAL_LR_SETUP (events run) ->
     a = mk_opal_user_lr_setup range_start range_length 1 1
           (mk_opal_session_info OPAL_ADMIN1 admin)) /\
  (forall a, a ∈ args_of IOC_OPAL_LOCK_UNLOCK (events run) ->
     a = mk_opal_lock_unlock user OPAL_LK 0) /\
  args_of IOC_OPAL_ADD_USR_TO_LR (events run) `prefix_of`
    [mk_opal_lock_unlock
       (mk_opal_session_info (u32 (segment_number + 1)) admin) OPAL_RO 0;
     mk_opal_lock_unlock
       (mk_opal_session_info (u32 (segment_number + 1)) admin) OPAL_RW 0] /\
  (NULL ∈ allocs (events run) <-> result run = Ret (- ENOMEM)).
Proof.
  intros Hvk run. fold_run run P.
  apply Z.leb_le in Hvk.
  unfold opal_setup_ranges, setup_out, opal_enabled, opal_query_status.
  unfold_prims.
  exec_heap_loop stop_at_verifier ltac:(setup_leaf P).
Qed.

(** X10.  Whatever the environment, for a volume key within OPAL_KEY_MAX:
    opal_setup_ranges always returns, with 0 or one of -EINVAL, -EIO,
    -ENOMEM, -ENOTSUP, -EPERM; it returns 0 only when its last control call
    is the range status query of the final verification and that query
    succeeded; and it returns -ENOMEM exactly when an allocation failed. *)
Theorem opal_setup_ranges_results
    (vk : volume_key) (range_start range_length segment_number : Z)
    (admin_key : list byte) (admin_key_len : Z) (s : state E) :
  keylength vk <= OPAL_KEY_MAX ->
  let run := opal_setup_ranges vk range_start range_length segment_number
               admin_key admin_key_len s in
  (exists z, result run = Ret z /\
             z ∈ [0; - EINVAL; - EIO; - ENOMEM; - ENOTSUP; - EPERM]) /\
  (result run = Ret 0 ->
   last (calls (events run)) =
     Some (IOC_OPAL_GET_LR_STATUS, OPAL_STATUS_SUCCESS)) /\
  (NULL ∈ allocs (events run) <-> result run = Ret (- ENOMEM)).
Proof.
  intros Hvk run.
  pose proof (opal_setup_ranges_summary vk range_start range_length
                segment_number admin_key admin_key_len s Hvk) as Hsum.
  cbv zeta in Hsum. fold run in Hsum.
  destruct Hsum as (H1 & H2 & _ & _ & _ & _ & _ & _ & _ & _ & H11).
  exact (conj H1 (conj H2 H11)).
Qed.

(** X11.  Whatever the environment, for a volume key within OPAL_KEY_MAX:
    the control calls of opal_setup_ranges are an initial part of one of
    three fixed sequences: the status query, then take-ownership and
    activation of the locking SP (locking never enabled) or erase, possibly
    followed by secure erase (locking enabled), then user activation, the
    two additions of the user to the range, the password, the range setup,
    the lock and the two queries of the verification. *)
Theorem opal_setup_ranges_call_order
    (vk : volume_key) (range_start range_length segment_number : Z)
    (admin_key : list byte) (admin_key_len : Z) (s : state E) :
  keylength vk <= OPAL_KEY_MAX ->
  let run := opal_setup_ranges vk range_start range_length segment_number
               admin_key admin_key_len s in
  let common :=
    [IOC_OPAL_ACTIVATE_USR; IOC_OPAL_ADD_USR_TO_LR; IOC_OPAL_ADD_USR_TO_LR;
     IOC_OPAL_SET_PW; IOC_OPAL_LR_SETUP; IOC_OPAL_LOCK_UNLOCK;
     IOC_OPAL_GET_GEOMETRY; IOC_OPAL_GET_LR_STATUS] in
  codes (events run) `prefix_of`
    (IOC_OPAL_GET_STATUS :: IOC_OPAL_TAKE_OWNERSHIP ::
     IOC_OPAL_ACTIVATE_LSP :: common) \/
  codes (events run) `prefix_of`
    (IOC_OPAL_GET_STATUS :: IOC_OPAL_ERASE_LR :: common) \/
  codes (events run) `prefix_of`
    (IOC_OPAL_GET_STATUS :: IOC_OPAL_ERASE_LR ::
     IOC_OPAL_SECURE_ERASE_LR :: common).
Proof.
  intros Hvk run common.
  pose proof (opal_setup_ranges_summary vk range_start range_length
                segment_number admin_key admin_key_len s Hvk) as Hsum.
  cbv zeta in Hsum. fold run in Hsum.
  destruct Hsum as (_ & _ & H3 & _).
  exact H3.
Qed.

(** X12.  Whatever the environment, for a volume key within OPAL_KEY_MAX:
    a control call of opal_setup_ranges that is followed by another one
    returned OPAL_STATUS_SUCCESS, unless it is the erase (whose failure is
    followed by the secure erase) or the status query (which may return any
    non-negative status).  So the first other call that does not succeed is
    the last call of the run. *)
Theorem opal_setup_ranges_stops_at_first_failure
    (vk : volume_key) (range_start range_length segment_number : Z)
    (admin_key : list byte) (admin_key_len : Z) (s : state E)
    (pre post : list (ioctl_code * Z)) (c : ioctl_code) (r : Z) :
  keylength vk <= OPAL_KEY_MAX ->
  let run := opal_setup_ranges vk range_start range_length segment_number
               admin_key admin_key_len s in
  calls (events run) = pre ++ (c, r) :: post -> post <> [] ->
  r = OPAL_STATUS_SUCCESS \/ c = IOC_OPAL_ERASE_LR \/
  (c = IOC_OPAL_GET_STATUS /\ 0 <= r).
Proof.
  intros Hvk run Hcalls Hpost.
  pose proof (opal_setup_ranges_summary vk range_start range_length
                segment_number admin_key admin_key_len s Hvk) as Hsum.
  cbv zeta in Hsum. fold run in Hsum.
  destruct Hsum as (_ & _ & _ & H4 & _).
  rewrite Hcalls in H4.
  rewrite List.removelast_app in H4 by discriminate.
  destruct post as [| x post]; [ congruence |].
  change (removelast ((c, r) :: x :: post))
    with ((c, r) :: removelast (x :: post)) in H4.
  apply Forall_app in H4 as [_ H4].
  apply Forall_cons in H4 as [H4 _]. exact H4.
Qed.

(** X13.  Whatever the environment, for a volume key within OPAL_KEY_MAX:
    unless an erase or secure erase of the range succeeded, every block
    opal_setup_ranges obtained from the secure heap has been released when
    it returns, and no block of the caller is touched. *)
Theorem opal_setup_ranges_releases_blocks
    (vk : volume_key) (range_start range_length segment_number : Z)
    (admin_key : list byte) (admin_key_len : Z) (s : state E) :
  keylength vk <= OPAL_KEY_MAX ->
  let run := opal_setup_ranges vk range_start range_length segment_number
               admin_key admin_key_len s in
  (IOC_OPAL_ERASE_LR, OPAL_STATUS_SUCCESS) ∉ calls (events run) ->
  (IOC_OPAL_SECURE_ERASE_LR, OPAL_STATUS_SUCCESS) ∉ calls (events run) ->
  st_heap (final run) =
    st_heap s ++ replicate (length (omap id (allocs (events run)))) Freed.
Proof.
  intros Hvk run.
  pose proof (opal_setup_ranges_summary vk range_start range_length
                segment_number admin_key admin_key_len s Hvk) as Hsum.
  cbv zeta in Hsum. fold run in Hsum.
  destruct Hsum as (_ & _ & _ & _ & H5 & _).
  exact H5.
Qed.

(** X14.  Whatever the environment, for a volume key within OPAL_KEY_MAX:
    once an erase or secure erase of the range succeeded, the first block
    opal_setup_ranges obtained, which holds the Admin1 session with the
    copy of the admin key, is still live when the operation returns,
    whatever its result; all other blocks have been released.  The __u8
    fields lr and key_len of the key block hold the segment number and
    the length of the admin key modulo 256. *)
Theorem opal_setup_ranges_keeps_admin_session
    (vk : volume_key) (range_start range_length segment_number : Z)
    (admin_key : list byte) (admin_key_len : Z) (s : state E) :
  keylength vk <= OPAL_KEY_MAX ->
  let run := opal_setup_ranges vk range_start range_length segment_number
               admin_key admin_key_len s in
  (IOC_OPAL_ERASE_LR, OPAL_STATUS_SUCCESS) ∈ calls (events run) \/
  (IOC_OPAL_SECURE_ERASE_LR, OPAL_STATUS_SUCCESS) ∈ calls (events run) ->
  st_heap (final run) =
    st_heap s ++
    Live (BSession
            (mk_opal_session_info OPAL_ADMIN1
               (mk_opal_key (u8 segment_number) (u8 admin_key_len)
                  (memcpy zero_key_array admin_key admin_key_len)))) ::
    replicate (length (omap id (allocs (events run))) - 1) Freed.
Proof.
  intros Hvk run.
  pose proof (opal_setup_ranges_summary vk range_start range_length
                segment_number admin_key admin_key_len s Hvk) as Hsum.
  cbv zeta in Hsum. fold run in Hsum.
  destruct Hsum as (_ & _ & _ & _ & _ & H6 & _).
  exact H6.
Qed.

(** X15.  Whatever the environment, for a volume key within OPAL_KEY_MAX:
    every password request of opal_setup_ranges is authenticated as Admin1
    with the copy of the admin key and sets, for the user segment_number + 1,
    the copy of the volume key; every range setup request is authenticated
    the same way, carries range_start and range_length as given and sets
    both enable flags; every lock request is opened by that user with the
    volume key and asks for the state OPAL_LK; and the user is added to the
    range read-only first and read-write second.  In every key block the
    __u8 fields lr and key_len hold the segment number and the key length
    modulo 256: an admin key of exactly OPAL_KEY_MAX bytes is accepted
    and announced with length 0. *)
Theorem opal_setup_ranges_requests
    (vk : volume_key) (range_start range_length segment_number : Z)
    (admin_key : list byte) (admin_key_len : Z) (s : state E) :
  keylength vk <= OPAL_KEY_MAX ->
  let run := opal_setup_ranges vk range_start range_length segment_number
               admin_key admin_key_len s in
  let admin :=
    mk_opal_session_info OPAL_ADMIN1
      (mk_opal_key (u8 segment_number) (u8 admin_key_len)
         (memcpy zero_key_array admin_key admin_key_len)) in
  let user :=
    mk_opal_session_info (u32 (segment_number + 1))
      (mk_opal_key (u8 segment_number) (u8 (keylength vk))
         (memcpy zero_key_array (vk_key vk) (keylength vk))) in
  (forall a, a ∈ args_of IOC_OPAL_SET_PW (events run) ->
     pw_session a = admin /\ pw_new_user_pw a = user) /\
  (forall a, a ∈ args_of IOC_OPAL_LR_SETUP (events run) ->
     ls_session a = admin /\
     ls_range_start a = range_start /\ ls_range_length a = range_length /\
     ls_RLE a = 1 /\ ls_WLE a = 1) /\
  (forall a, a ∈ args_of IOC_OPAL_LOCK_UNLOCK (events run) ->
     lu_session a = user /\ lu_l_state a = OPAL_LK) /\
  (lu_l_state <$> args_of IOC_OPAL_ADD_USR_TO_LR (events run))
    `prefix_of` [OPAL_RO; OPAL_RW].
Proof.
  intros Hvk run admin user.
  pose proof (opal_setup_ranges_summary vk range_start range_length
                segment_number admin_key admin_key_len s Hvk) as Hsum.
  cbv zeta in Hsum. fold run in Hsum.
  destruct Hsum as (_ & _ & _ & _ & _ & _ & H7 & H8 & H9 & H10 & _).
  repeat match goal with |- _ /\ _ => split end.
  - intros a Hin. rewrite (H7 a Hin). split; reflexivity.
  - intros a Hin. rewrite (H8 a Hin). repeat split.
  - intros a Hin. rewrite (H9 a Hin). split; reflexivity.
  - destruct H10 as [k Hk].
    exists (lu_l_state <$> k).
    change [OPAL_RO; OPAL_RW]
      with (lu_l_state <$>
              [mk_opal_lock_unlock
                 (mk_opal_session_info (u32 (segment_number + 1))
                    (mk_opal_key (u8 segment_number) (u8 admin_key_len)
                       (memcpy zero_key_array admin_key admin_key_len)))
                 OPAL_RO 0;
               mk_opal_lock_unlock
                 (mk_opal_session_info (u32 (segment_number + 1))
                    (mk_opal_key (u8 segment_number) (u8 admin_key_len)
                       (memcpy zero_key_array admin_key admin_key_len)))
                 OPAL_RW 0]).
    rewrite Hk, fmap_app. reflexivity.
Qed.

End SetupSummary.

(** ** The user authority of a segment *)

Section UserAuthority.
Context {E : Type} `{Env E}.

(** The parameter blocks of opal_lock_unlock, for every environment. *)
Lemma opal_lock_unlock_request_blocks
    (segment_number : Z) (vk : option volume_key) (lock : bool)
    (s : state E) :
  let run := opal_lock_unlock segment_number vk lock s in
  let key :=
    match vk with
    | Some k =>
        if lock then mk_opal_key (u8 segment_number) 0 zero_key_array
        else mk_opal_key (u8 segment_number) (u8 (keylength k))
               (memcpy zero_key_array (vk_key k) (keylength k))
    | None => mk_opal_key (u8 segment_number) 0 zero_key_array
    end in
  let session := mk_opal_session_info (u32 (segment_number + 1)) key in
  (forall a, a ∈ args_of IOC_OPAL_LOCK_UNLOCK (events run) ->
     a = mk_opal_lock_unlock session (if lock then OPAL_LK else OPAL_RW) 0) /\
  (forall a, a ∈ args_of IOC_OPAL_SAVE (events run) ->
     lock = false /\
     a = mk_opal_lock_unlock session OPAL_RW OPAL_SAVE_FOR_LOCK) /\
  (forall c, c ∈ codes (events run) ->
     c ∈ [IOC_OPAL_GET_STATUS; IOC_OPAL_LOCK_UNLOCK; IOC_OPAL_SAVE]) /\
  (args_of IOC_OPAL_LOCK_UNLOCK (events run) <> [] ->
   lock = true \/ exists k, vk = Some k /\ keylength k <= OPAL_KEY_MAX).
Proof.
  intros run. fold_run run P.
  destruct lock, vk as [k |]; cbn [negb].
  all: unfold opal_lock_unlock, opal_supported, opal_query_status.
  all: exec_dfs ltac:(
    intros ->; subst P; cbv beta zeta;
    cbn [events result final fst snd]; rewrite ?app_nil_r; cbn [app];
    cbn [args_of arg_of codes calls call_of omap list_omap
         fmap list_fmap fst];
    eval_decide;
    cbn [omap list_omap];
    (split; [ intros a Hin; inv_elem; reflexivity |]);
    (split; [ intros a Hin; inv_elem; split; reflexivity |]);
    (split; [ intros c Hin; inv_elem; solve_elem |]);
    intros Hne;
    first [ left; reflexivity
          | right; eexists; split; [ reflexivity | tests_to_prop; assumption ]
          | exfalso; apply Hne; reflexivity ]).
Qed.

(** X16.  Whatever the environment, the key and the direction: every
    lock-state-change request of opal_lock_unlock is opened by the user
    segment_number + 1 on the range whose number is segment_number modulo
    256 (the field lr is a __u8), asks for OPAL_LK when locking and OPAL_RW
    when unlocking, and has no flags; when locking it carries an empty key
    (length 0, all-zero array) even if a key was passed, when unlocking it
    carries the copy of the volume key, of at most OPAL_KEY_MAX bytes, and
    announces its length modulo 256 (the field key_len is a __u8): the
    length itself below 256, and 0 for a key of exactly OPAL_KEY_MAX
    bytes.  The save-for-resume request is only issued when unlocking,
    with the same session and state and the flag OPAL_SAVE_FOR_LOCK.  No
    other request than the status query and these two is issued. *)
Theorem opal_lock_unlock_requests
    (segment_number : Z) (vk : option volume_key) (lock : bool)
    (s : state E) :
  let run := opal_lock_unlock segment_number vk lock s in
  (forall a, a ∈ args_of IOC_OPAL_LOCK_UNLOCK (events run) ->
     si_who (lu_session a) = u32 (segment_number + 1) /\
     k_lr (si_opal_key (lu_session a)) = u8 segment_number /\
     lu_l_state a = (if lock then OPAL_LK else OPAL_RW) /\
     lu_flags a = 0 /\
     (lock = true ->
      k_key_len (si_opal_key (lu_session a)) = 0 /\
      k_key (si_opal_key (lu_session a)) = zero_key_array) /\
     (lock = false ->
      exists k, vk = Some k /\
        keylength k <= OPAL_KEY_MAX /\
        k_key_len (si_opal_key (lu_session a)) = u8 (keylength k) /\
        (0 <= keylength k < OPAL_KEY_MAX ->
         k_key_len (si_opal_key (lu_session a)) = keylength k) /\
        (keylength k = OPAL_KEY_MAX ->
         k_key_len (si_opal_key (lu_session a)) = 0) /\
        k_key (si_opal_key (lu_session a)) =
          memcpy zero_key_array (vk_key k) (keylength k))) /\
  (forall a, a ∈ args_of IOC_OPAL_SAVE (events run) ->
     lock = false /\ lu_flags a = OPAL_SAVE_FOR_LOCK /\
     forall b, b ∈ args_of IOC_OPAL_LOCK_UNLOCK (events run) ->
       lu_session a = lu_session b /\ lu_l_state a = lu_l_state b) /\
  (forall c, c ∈ codes (events run) ->
     c ∈ [IOC_OPAL_GET_STATUS; IOC_OPAL_LOCK_UNLOCK; IOC_OPAL_SAVE]).
Proof.
  intros run.
  pose proof (opal_lock_unlock_request_blocks segment_number vk lock s)
    as Hblocks.
  cbv zeta in Hblocks. fold run in Hblocks.
  destruct Hblocks as (Hlu & Hsave & Hcodes & Hkey).
  split; [| split; [| exact Hcodes ]].
  - intros a Hin.
    assert (Hne : args_of IOC_OPAL_LOCK_UNLOCK (events run) <> [])
      by (intros Hnil; rewrite Hnil in Hin; inversion Hin).
    specialize (Hkey Hne). rewrite (Hlu a Hin).
    cbn [lu_session lu_l_state lu_flags si_who si_opal_key].
    destruct lock.
    + destruct vk; repeat split; discriminate.
    + destruct Hkey as [Hkey | (k & -> & Hk)]; [ discriminate Hkey |].
      repeat split; try discriminate.
      intros _. exists k. cbn [k_key_len k_key].
      split; [ reflexivity |]. split; [ exact Hk |].
      split; [ reflexivity |].
      split; [ intros Hlt; apply u8_small; unfold OPAL_KEY_MAX in Hlt; lia |].
      split; [ intros ->; reflexivity | reflexivity ].
  - intros a Hin. destruct (Hsave a Hin) as [-> ->].
    split; [ reflexivity |]. split; [ reflexivity |].
    intros b Hb. rewrite (Hlu b Hb). split; reflexivity.
Qed.

(** X17.  Whatever the environments, for a volume key within OPAL_KEY_MAX:
    the user and key that opal_setup_ranges installs with its password
    request for a segment are the session with which opal_unlock opens its
    request for that segment and key, and with which
    opal_range_check_attributes queries the range status. *)
Theorem user_authority_is_consistent
    (vk : volume_key) (range_start range_length segment_number : Z)
    (admin_key : list byte) (admin_key_len : Z)
    (check_offset_sectors check_length_sectors : option Z)
    (check_read_locked check_write_locked : option bool)
    (s1 s2 s3 : state E) :
  keylength vk <= OPAL_KEY_MAX ->
  let setup := opal_setup_ranges vk range_start range_length segment_number
                 admin_key admin_key_len s1 in
  let unlock := opal_unlock segment_number (Some vk) s2 in
  let check := opal_range_check_attributes segment_number vk
                 check_offset_sectors check_length_sectors
                 check_read_locked check_write_locked s3 in
  forall a, a ∈ args_of IOC_OPAL_SET_PW (events setup) ->
    (forall b, b ∈ args_of IOC_OPAL_LOCK_UNLOCK (events unlock) ->
       lu_session b = pw_new_user_pw a /\ lu_l_state b = OPAL_RW) /\
    (forall b, b ∈ args_of IOC_OPAL_GET_LR_STATUS (events check) ->
       lrs_session b = pw_new_user_pw a).
Proof.
  intros Hvk setup unlock check a Ha.
  pose proof (opal_setup_ranges_summary vk range_start range_length
                segment_number admin_key admin_key_len s1 Hvk) as Hsum.
  cbv zeta in Hsum. fold setup in Hsum.
  destruct Hsum as (_ & _ & _ & _ & _ & _ & Hpw & _).
  rewrite (Hpw a Ha). cbn [pw_new_user_pw].
  split.
  - intros b Hb.
    pose proof (opal_lock_unlock_request_blocks segment_number (Some vk)
                  false s2) as Hblocks.
    cbv zeta in Hblocks. destruct Hblocks as (Hlu & _).
    rewrite (Hlu b Hb). split; reflexivity.
  - intros b Hb. subst check. revert Hb.
    unfold opal_range_check_attributes.
    rewrite run_bind_eq. unfold device_open at 1.
    destruct (env_open (st_env s3)) as [fd e] eqn:Ho.
    cbv beta iota zeta.
    destruct (fd <? 0) eqn:Hfd.
    + cbn [events fst snd app]. unfold mret, M_mret, M_ret.
      cbn [events fst snd app args_of omap list_omap arg_of].
      intros Hb; inversion Hb.
    + apply Z.ltb_ge in Hfd.
      pose proof (opal_range_check_attributes_fd_summary fd segment_number
                    vk check_offset_sectors check_length_sectors
                    check_read_locked check_write_locked
                    (mk_state e (st_heap s3)) Hfd Hvk) as Hs.
      cbv zeta in Hs.
      destruct Hs as (z & tv & sv & Hv & _ & Hshape).
      rewrite Hv. cbn [events fst snd app args_of omap list_omap arg_of].
      fold (args_of IOC_OPAL_GET_LR_STATUS tv).
      destruct Hshape as [(r & _ & -> & _) | [(_ & -> & _) | (r & _ & -> & _)]];
        intros Hb; inv_elem. reflexivity.
Qed.

End UserAuthority.

(** ** Results of the reset operations *)

Section ResetResults.
Context {E : Type} `{Env E}.

(** X18.  Whatever the environment and the PSID: opal_factory_reset issues
    no status query and at most one control call, the PSID revert, with a
    key block for range 0 that holds the copy of the PSID, of at most
    OPAL_KEY_MAX bytes, and announces password_len modulo 256 (the field
    key_len is a __u8): the length itself below 256, and 0 for a PSID of
    exactly OPAL_KEY_MAX bytes; it returns 0 exactly when that call
    returned OPAL_STATUS_SUCCESS, -ENOTSUP when it returned a negative
    value, and -EINVAL or -EIO when it was not issued. *)
Theorem opal_factory_reset_results
    (password : list byte) (password_len : Z) (s : state E) :
  let run := opal_factory_reset password password_len s in
  (exists z, result run = Ret z /\
             z ∈ [0; - EINVAL; - EIO; - ENOTSUP; - EPERM]) /\
  (result run = Ret 0 <->
   calls (events run) = [(IOC_OPAL_PSID_REVERT_TPR, OPAL_STATUS_SUCCESS)]) /\
  (forall r, (IOC_OPAL_PSID_REVERT_TPR, r) ∈ calls (events run) ->
     calls (events run) = [(IOC_OPAL_PSID_REVERT_TPR, r)] /\
     (r < 0 -> result run = Ret (- ENOTSUP))) /\
  (forall c, c ∈ codes (events run) -> c = IOC_OPAL_PSID_REVERT_TPR) /\
  (forall a, a ∈ args_of IOC_OPAL_PSID_REVERT_TPR (events run) ->
     password_len <= OPAL_KEY_MAX /\
     a = mk_opal_key 0 (u8 password_len)
           (memcpy zero_key_array password password_len) /\
     (0 <= password_len < OPAL_KEY_MAX -> k_key_len a = password_len) /\
     (password_len = OPAL_KEY_MAX -> k_key_len a = 0)) /\
  (calls (events run) = [] ->
   result run = Ret (if password_len >? OPAL_KEY_MAX
                     then - EINVAL else - EIO)).
Proof.
  intros run. fold_run run P.
  unfold opal_factory_reset.
  exec_dfs ltac:(
    intros ->; subst P; cbv beta zeta;
    cbn [events result final fst snd]; rewrite ?app_nil_r; cbn [app];
    cbn [args_of arg_of codes calls call_of omap list_omap
         fmap list_fmap fst];
    eval_decide; cbn [omap list_omap];
    cbv iota;
    tests_to_prop; subst; unfold_consts;
    (split; [ eexists; (split; [ reflexivity | solve_elem ]) |]);
    (split;
     [ split; intros Heq;
       first [ reflexivity | discriminate Heq | congruence
             | exfalso; simplify_eq; lia ] |]);
    (split;
     [ intros r Hin; inv_elem;
       (split; [ reflexivity |]); intros Hr;
       first [ reflexivity | exfalso; lia ] |]);
    (split; [ intros c Hin; inv_elem; reflexivity |]);
    (split;
     [ intros a Hin; inv_elem;
       (split; [ assumption |]); (split; [ reflexivity |]);
       cbn [k_key_len];
       (split; [ intros Hlt; apply u8_small; lia | intros ->; reflexivity ])
     |]);
    intros Hnil; first [ reflexivity | discriminate Hnil ]).
Qed.

(** X19.  Whatever the environment and the arguments: opal_reset_segment
    returns 0, -EINVAL, -EIO or -ENOMEM; it returns 0 exactly when the
    erase succeeded, or the range was disabled successfully after a secure
    erase; it returns -ENOMEM exactly when an allocation failed; and the
    erase, the secure erase and the request that disables the range are all
    authenticated as Admin1 with the copy of the password, the last one
    with both enable flags clear.  The __u8 fields lr and key_len of the
    key block hold the segment number and the password length modulo 256;
    no request is issued for a password longer than OPAL_KEY_MAX. *)
Theorem opal_reset_segment_results
    (segment_number : Z) (password : list byte) (password_len : Z)
    (s : state E) :
  let run := opal_reset_segment segment_number password password_len s in
  let admin :=
    mk_opal_session_info OPAL_ADMIN1
      (mk_opal_key (u8 segment_number) (u8 password_len)
         (memcpy zero_key_array password password_len)) in
  (exists z, result run = Ret z /\ z ∈ [0; - EINVAL; - EIO; - ENOMEM]) /\
  (OPAL_KEY_MAX < password_len -> calls (events run) = []) /\
  (result run = Ret 0 <->
   (IOC_OPAL_ERASE_LR, OPAL_STATUS_SUCCESS) ∈ calls (events run) \/
   (IOC_OPAL_LR_SETUP, OPAL_STATUS_SUCCESS) ∈ calls (events run)) /\
  (NULL ∈ allocs (events run) <-> result run = Ret (- ENOMEM)) /\
  (forall a, a ∈ args_of IOC_OPAL_ERASE_LR (events run) -> a = admin) /\
  (forall a, a ∈ args_of IOC_OPAL_SECURE_ERASE_LR (events run) ->
     a = admin) /\
  (forall a, a ∈ args_of IOC_OPAL_LR_SETUP (events run) ->
     a = mk_opal_user_lr_setup 0 0 0 0 admin).
Proof.
  intros run. fold_run run P.
  unfold opal_reset_segment, opal_enabled, opal_query_status.
  exec_dfs ltac:(
    intros ->; subst P; cbv beta zeta;
    cbn [events result final fst snd]; rewrite ?app_nil_r; cbn [app];
    cbn [args_of arg_of allocs alloc_of calls call_of omap list_omap];
    eval_decide; cbn [omap list_omap];
    tests_to_prop; subst; unfold NULL;
    (split; [ eexists; (split; [ reflexivity | solve_elem ]) |]);
    (split; [ intros Hlong; first [ reflexivity | exfalso; lia ] |]);
    (split;
     [ split;
       [ intros Heq;
         first [ left; solve_elem | right; solve_elem
               | discriminate Heq
               | exfalso; injection Heq; unfold_consts; lia ]
       | intros Hin;
         first [ reflexivity
               | exfalso; destruct Hin as [Hin | Hin]; inv_elem;
                 first [ done | congruence ] ] ] |]);
    (split;
     [ split;
       [ intros Hin; first [ reflexivity | exfalso; inv_elem; done ]
       | intros Heq;
         first [ solve_elem | discriminate Heq
               | exfalso; injection Heq; unfold_consts; lia ] ] |]);
    do 2 (split; [ intros a Hin; inv_elem; reflexivity |]);
    intros a Hin; inv_elem; reflexivity).
Qed.

End ResetResults.

(** ** The device cannot be opened *)

Section OpenFailure.
Context {E : Type} `{Env E}.

(** The run with a known answer of the first device_open. *)
Ltac exec_known_open Ho leaf :=
  unfold_prims;
  repeat (first [ rewrite Ho | exec_bind no_stop | run_step ];
          cbv beta iota zeta; cbn [fst snd st_env st_heap]);
  leaf.

(** X20.  Whatever the environment and the arguments (with key lengths
    within OPAL_KEY_MAX): when the device cannot be opened, no operation
    issues a control call, but the classification differs from one
    operation to the other: opal_geometry, opal_range_check_attributes,
    opal_factory_reset and opal_setup_ranges return -EIO, opal_lock_unlock
    returns -ENOTSUP and opal_reset_segment returns -EINVAL. *)
Theorem device_open_failure_classification
    (s : state E) (segment_number : Z) (vk : volume_key)
    (check_offset_sectors check_length_sectors : option Z)
    (check_read_locked check_write_locked : option bool)
    (range_start range_length : Z) (key : list byte) (key_len : Z)
    (ovk : option volume_key) (lock : bool) :
  (env_open (st_env s)).1 < 0 ->
  keylength vk <= OPAL_KEY_MAX -> key_len <= OPAL_KEY_MAX ->
  let geometry := opal_geometry s in
  let check := opal_range_check_attributes segment_number vk
                 check_offset_sectors check_length_sectors
                 check_read_locked check_write_locked s in
  let factory := opal_factory_reset key key_len s in
  let setup := opal_setup_ranges vk range_start range_length segment_number
                 key key_len s in
  let lock_unlock := opal_lock_unlock segment_number ovk lock s in
  let reset := opal_reset_segment segment_number key key_len s in
  (result geometry = Ret (- EIO, None) /\ calls (events geometry) = []) /\
  (result check = Ret (- EIO) /\ calls (events check) = []) /\
  (result factory = Ret (- EIO) /\ calls (events factory) = []) /\
  (result setup = Ret (- EIO) /\ calls (events setup) = []) /\
  (result lock_unlock = Ret (- ENOTSUP) /\ calls (events lock_unlock) = []) /\
  (result reset = Ret (- EINVAL) /\ calls (events reset) = []).
Proof.
  intros Hopen Hvk Hkey.
  destruct (env_open (st_env s)) as [fd e] eqn:Ho. cbn [fst] in Hopen.
  apply Z.ltb_lt in Hopen. apply Z.leb_le in Hvk.
  assert (Hkey' : (key_len >? OPAL_KEY_MAX) = false)
    by (rewrite Z.gtb_ltb; apply Z.ltb_ge; exact Hkey).
  cbv zeta.
  unfold opal_geometry, opal_range_check_attributes, opal_factory_reset,
    opal_setup_ranges, opal_lock_unlock, opal_reset_segment,
    opal_enabled, opal_supported, opal_query_status.
  repeat match goal with |- _ /\ _ => split end.
  all: exec_known_open Ho ltac:(idtac; reflexivity).
Qed.

End OpenFailure.

(** ** The geometry query *)

Section GeometryResults.
Context {E : Type} `{Env E}.

(** X21.  Whatever the environment: opal_geometry never stops at the
    assertion of opal_geometry_fd; it issues at most the one geometry
    query and returns its status unchanged, also a positive OPAL status;
    the four values are produced exactly when the status is
    OPAL_STATUS_SUCCESS, the alignment flag being the test of the reported
    field against 1. *)
Theorem opal_geometry_results (s : state E) :
  let run := opal_geometry s in
  (exists z g, result run = Ret (z, g)) /\
  (calls (events run) = [] -> result run = Ret (- EIO, None)) /\
  (forall r geo,
     (r, geo) ∈ replies_of IOC_OPAL_GET_GEOMETRY (events run) ->
     calls (events run) = [(IOC_OPAL_GET_GEOMETRY, r)] /\
     result run =
       Ret (r, if r =? OPAL_STATUS_SUCCESS
               then Some (mk_geometry_ret (geo_align geo =? 1)
                            (geo_logical_block_size geo)
                            (geo_alignment_granularity geo)
                            (geo_lowest_aligned_lba geo))
               else None)).
Proof.
  intros run. abstract_run_as run P.
  unfold opal_geometry, opal_geometry_fd.
  exec_dfs ltac:(
    intros ->; subst P; cbv beta;
    cbn [events result final fst snd]; rewrite ?app_nil_r; cbn [app];
    cbn [replies_of reply_of calls call_of omap list_omap]; eval_decide;
    cbn [replies_of reply_of calls call_of omap list_omap];
    first
      [ solve [ exfalso; tests_to_prop; lia ]
      | split; [ eexists _, _; reflexivity |];
        split;
        [ intros Hnil; first [ discriminate Hnil | reflexivity ]
        | intros ? ? Hin; inv_elem;
          (split;
           [ reflexivity
           | match goal with
             | Hb : negb ?b = _ |- _ => destruct b; try discriminate Hb
             end; reflexivity ]) ] ]).
Qed.

End GeometryResults.

(** ** The null entries of the status table *)

Section StatusTranslatorGap.
Variable strerror : Z -> string.

(** X22.  The translator returns the null pointer exactly for the codes
    18 to 62: every negative code, every code from 0 to 17, the code 63
    and every code from 64 on is translated to a string. *)
Theorem opal_status_to_string_null_iff (t : Z) :
  opal_status_to_string strerror t = None <->
  OPAL_STATUS_AUTHORITY_LOCKED_OUT < t < OPAL_STATUS_FAIL.
Proof.
  assert (Hmax : _OPAL_STATUS_MAX = OPAL_STATUS_FAIL + 1) by reflexivity.
  assert (Hfail : OPAL_STATUS_AUTHORITY_LOCKED_OUT < OPAL_STATUS_FAIL)
    by reflexivity.
  assert (Hpos : 0 <= OPAL_STATUS_AUTHORITY_LOCKED_OUT) by discriminate.
  destruct (Z.lt_ge_cases t 0) as [Hneg | Hnn].
  { rewrite opal_status_to_string_negative by exact Hneg.
    split; [ discriminate | lia ]. }
  destruct (Z.lt_ge_cases t _OPAL_STATUS_MAX) as [Hin | Habove].
  - pose proof (opal_status_to_string_in_table strerror t (conj Hnn Hin))
      as Htab.
    split.
    + intros Hnone. rewrite Hnone in Htab.
      assert (Hno : ~ (t <= OPAL_STATUS_AUTHORITY_LOCKED_OUT \/
                       t = OPAL_STATUS_FAIL)).
      { intros Hc. apply Htab in Hc. destruct Hc as [x Hx]. discriminate Hx. }
      lia.
    + intros Hgap.
      destruct (opal_status_to_string strerror t) as [txt |] eqn:Hs;
        [| reflexivity].
      exfalso.
      assert (Hsome : is_Some (Some txt)) by (eexists; reflexivity).
      apply Htab in Hsome. lia.
  - rewrite opal_status_to_string_above by exact Habove.
    split; [ discriminate | lia ].
Qed.

End StatusTranslatorGap.

(** ** The flag macros of utils_dm.h *)

(** Two different bits have no bit in common. *)
Lemma shiftl_1_disjoint (j k : Z) :
  0 <= j -> 0 <= k -> j <> k -> Z.land (Z.shiftl 1 j) (Z.shiftl 1 k) = 0.
Proof.
  intros Hj Hk Hjk. rewrite !Z.shiftl_1_l.
  apply Z.bits_inj'. intros n Hn.
  rewrite Z.land_spec, !Z.pow2_bits_eqb, Z.bits_0 by lia.
  destruct (Z.eqb_spec j n), (Z.eqb_spec k n); try reflexivity. lia.
Qed.

Lemma shiftl_1_bounds (k n : Z) :
  0 <= k < n -> 0 < Z.shiftl 1 k < 2 ^ n.
Proof.
  intros Hk. rewrite Z.shiftl_1_l. split.
  - apply Z.pow_pos_nonneg; lia.
  - apply Z.pow_lt_mono_r; lia.
Qed.

Lemma dm_support_flags_bits :
  dm_support_flags = Z.shiftl 1 <$> seqZ 0 17.
Proof. reflexivity. Qed.

Lemma dm_active_flags_bits :
  dm_active_flags = Z.shiftl 1 <$> seqZ 0 10.
Proof. reflexivity. Qed.

Lemma bit_flags_disjoint (n : Z) (F G : Z) :
  0 <= n <= 32 ->
  F ∈ (Z.shiftl 1 <$> seqZ 0 n) -> G ∈ (Z.shiftl 1 <$> seqZ 0 n) ->
  0 < F < 2 ^ 32 /\ (F <> G -> Z.land F G = 0).
Proof.
  intros Hn HF HG.
  apply list_elem_of_fmap in HF as (j & -> & Hj).
  apply list_elem_of_fmap in HG as (k & -> & Hk).
  apply elem_of_seqZ in Hj, Hk.
  split.
  - apply shiftl_1_bounds. lia.
  - intros Hne. apply shiftl_1_disjoint; [ lia | lia |].
    intros ->. apply Hne. reflexivity.
Qed.

(** X23.  In each of the two families of flag macros of utils_dm.h, the
    kernel support flags and the flags of dm_query_device, every macro is a
    non-zero value that fits the uint32_t flags word, and two different
    macros of the family have no bit in common. *)
Theorem dm_flags_are_disjoint_bits (F G : Z) :
  (F ∈ dm_support_flags -> G ∈ dm_support_flags ->
   0 < F < 2 ^ 32 /\ (F <> G -> Z.land F G = 0)) /\
  (F ∈ dm_active_flags -> G ∈ dm_active_flags ->
   0 < F < 2 ^ 32 /\ (F <> G -> Z.land F G = 0)).
Proof.
  rewrite dm_support_flags_bits, dm_active_flags_bits.
  split; apply bit_flags_disjoint; lia.
Qed.

(** ** The further properties at concrete drives *)

(** A drive that supports OPAL and has never had locking enabled. *)
Lemma opal_query_status_results_witness :
  let run := opal_query_status OPAL_FL_LOCKING_ENABLED (sim_new 3 512 all_ok) in
  (0, mk_opal_status 3) ∈ replies_of IOC_OPAL_GET_STATUS (events run) /\
  0 <= 0 /\
  result run = Ret 0.
Proof.
  intros run.
  assert (H1 : (0, mk_opal_status 3)
                 ∈ replies_of IOC_OPAL_GET_STATUS (events run))
    by (vm_compute; solve_elem).
  assert (H2 : 0 <= 0) by lia.
  exact (conj H1 (conj H2
           (proj2 (proj2 (proj2 (proj2
              (opal_query_status_results OPAL_FL_LOCKING_ENABLED
                 (sim_new 3 512 all_ok))) 0 (mk_opal_status 3) H1)) H2))).
Defined.

(** Unlocking with a key the drive does not accept. *)
Lemma opal_lock_unlock_classification_witness :
  let run := opal_lock_unlock 1 (Some a_volume_key) false
               (sim_new 3 512
                  (status_at IOC_OPAL_LOCK_UNLOCK OPAL_STATUS_NOT_AUTHORIZED
                             all_ok)) in
  (IOC_OPAL_LOCK_UNLOCK, OPAL_STATUS_NOT_AUTHORIZED) ∈ calls (events run) /\
  result run = Ret (- EPERM).
Proof.
  intros run.
  assert (H1 : (IOC_OPAL_LOCK_UNLOCK, OPAL_STATUS_NOT_AUTHORIZED)
                 ∈ calls (events run)) by (vm_compute; solve_elem).
  exact (conj H1
           (proj1 (proj2
              (opal_lock_unlock_classification 1 (Some a_volume_key) false
                 (sim_new 3 512
                    (status_at IOC_OPAL_LOCK_UNLOCK
                               OPAL_STATUS_NOT_AUTHORIZED all_ok))
                 OPAL_STATUS_NOT_AUTHORIZED H1)) eq_refl)).
Defined.

(** A drive that reports only the locking-enabled bit. *)
Lemma opal_lock_unlock_not_supported_witness :
  let run := opal_lock_unlock 1 None true (sim_new 4 512 all_ok) in
  (0, mk_opal_status 4) ∈ replies_of IOC_OPAL_GET_STATUS (events run) /\
  result run = Ret (- ENOTSUP) /\
  calls (events run) = [(IOC_OPAL_GET_STATUS, 0)].
Proof.
  intros run.
  assert (H1 : (0, mk_opal_status 4)
                 ∈ replies_of IOC_OPAL_GET_STATUS (events run))
    by (vm_compute; solve_elem).
  exact (conj H1
           (proj1 (opal_lock_unlock_not_supported 1 None true
                     (sim_new 4 512 all_ok))
                  0 (mk_opal_status 4) H1 (or_intror eq_refl))).
Defined.

(** Unlocking without a key on a drive that supports OPAL. *)
Lemma opal_unlock_without_key_witness :
  let run := opal_unlock 1 None (sim_new 3 512 all_ok) in
  (0, mk_opal_status 3) ∈ replies_of IOC_OPAL_GET_STATUS (events run) /\
  result run = Ret (- EINVAL).
Proof.
  intros run.
  assert (H1 : (0, mk_opal_status 3)
                 ∈ replies_of IOC_OPAL_GET_STATUS (events run))
    by (vm_compute; solve_elem).
  assert (H2 : 0 <= 0) by lia.
  assert (H3 : Z.land (st_flags (mk_opal_status 3))
                 (Z.lor OPAL_FL_SUPPORTED OPAL_FL_LOCKING_SUPPORTED) <> 0)
    by (vm_compute; discriminate).
  pose (Hc := opal_unlock_without_key 1 (sim_new 3 512 all_ok)).
  exact (conj H1
           (proj1 (proj2 (proj2 Hc)) 0 (mk_opal_status 3) H1 H2 H3)).
Defined.

(** The verifier with the descriptor 3 on a drive with a locked range. *)
Lemma opal_range_check_attributes_fd_releases_block_witness :
  let s := sim_new 7 512 all_ok in
  let run := opal_range_check_attributes_fd 3 1 a_volume_key
               (Some 0) None None None s in
  0 <= 3 /\ keylength a_volume_key <= OPAL_KEY_MAX /\
  (exists z, result run = Ret z) /\
  (length (allocs (events run)) <= 1)%nat /\
  st_heap (final run) =
    st_heap s ++ replicate (length (omap id (allocs (events run)))) Freed.
Proof.
  intros s run.
  assert (H1 : 0 <= 3) by lia.
  assert (H2 : keylength a_volume_key <= OPAL_KEY_MAX)
    by (vm_compute; discriminate).
  exact (conj H1 (conj H2
           (opal_range_check_attributes_fd_releases_block 3 1 a_volume_key
              (Some 0) None None None s H1 H2))).
Defined.

(** The verifier when the secure allocator has no block left. *)
Lemma opal_range_check_attributes_fd_failures_witness :
  let s := mk_state (mk_sim 3 all_ok 7 512 0 0 0 0 OPAL_RW 0) [] in
  let run := opal_range_check_attributes_fd 3 1 a_volume_key
               (Some 0) None None None s in
  0 <= 3 /\ keylength a_volume_key <= OPAL_KEY_MAX /\
  NULL ∈ allocs (events run) /\
  result run = Ret (- ENOMEM) /\
  codes (events run) = [IOC_OPAL_GET_GEOMETRY].
Proof.
  intros s run.
  assert (H1 : 0 <= 3) by lia.
  assert (H2 : keylength a_volume_key <= OPAL_KEY_MAX)
    by (vm_compute; discriminate).
  assert (H3 : NULL ∈ allocs (events run)) by (vm_compute; solve_elem).
  pose (Hc := opal_range_check_attributes_fd_failures 3 1 a_volume_key
                (Some 0) None None None s H1 H2).
  exact (conj H1 (conj H2 (conj H3 (proj1 (proj2 Hc) H3)))).
Defined.


(** Provisioning a drive with 512-byte blocks on which every command
    succeeds. *)
Lemma opal_setup_ranges_results_witness :
  let run := opal_setup_ranges a_volume_key 8 16 1 a_admin_key 5
               (sim_new 3 512 all_ok) in
  keylength a_volume_key <= OPAL_KEY_MAX /\
  result run = Ret 0 /\
  last (calls (events run)) =
    Some (IOC_OPAL_GET_LR_STATUS, OPAL_STATUS_SUCCESS).
Proof.
  intros run.
  assert (H1 : keylength a_volume_key <= OPAL_KEY_MAX)
    by (vm_compute; discriminate).
  assert (H2 : result run = Ret 0) by (vm_compute; reflexivity).
  exact (conj H1 (conj H2
           (proj1 (proj2
              (opal_setup_ranges_results a_volume_key 8 16 1 a_admin_key 5
                 (sim_new 3 512 all_ok) H1)) H2))).
Defined.

(** Provisioning a drive on which the range setup is refused. *)
Lemma opal_setup_ranges_call_order_witness :
  let run := opal_setup_ranges a_volume_key 8 16 1 a_admin_key 5
               (sim_new 7 512
                  (status_at IOC_OPAL_LR_SETUP OPAL_STATUS_FAIL all_ok)) in
  let common :=
    [IOC_OPAL_ACTIVATE_USR; IOC_OPAL_ADD_USR_TO_LR; IOC_OPAL_ADD_USR_TO_LR;
     IOC_OPAL_SET_PW; IOC_OPAL_LR_SETUP; IOC_OPAL_LOCK_UNLOCK;
     IOC_OPAL_GET_GEOMETRY; IOC_OPAL_GET_LR_STATUS] in
  keylength a_volume_key <= OPAL_KEY_MAX /\
  (codes (events run) `prefix_of`
     (IOC_OPAL_GET_STATUS :: IOC_OPAL_TAKE_OWNERSHIP ::
      IOC_OPAL_ACTIVATE_LSP :: common) \/
   codes (events run) `prefix_of`
     (IOC_OPAL_GET_STATUS :: IOC_OPAL_ERASE_LR :: common) \/
   codes (events run) `prefix_of`
     (IOC_OPAL_GET_STATUS :: IOC_OPAL_ERASE_LR ::
      IOC_OPAL_SECURE_ERASE_LR :: common)).
Proof.
  intros run common.
  assert (H1 : keylength a_volume_key <= OPAL_KEY_MAX)
    by (vm_compute; discriminate).
  exact (conj H1
           (opal_setup_ranges_call_order a_volume_key 8 16 1 a_admin_key 5
              (sim_new 7 512
                 (status_at IOC_OPAL_LR_SETUP OPAL_STATUS_FAIL all_ok)) H1)).
Defined.

(** The status query of a run that stops at the take-ownership call. *)
Lemma opal_setup_ranges_stops_at_first_failure_witness :
  let run := opal_setup_ranges a_volume_key 8 16 1 a_admin_key 5
               (sim_new 3 512
                  (status_at IOC_OPAL_TAKE_OWNERSHIP OPAL_STATUS_NOT_AUTHORIZED
                             all_ok)) in
  keylength a_volume_key <= OPAL_KEY_MAX /\
  calls (events run) =
    [] ++ (IOC_OPAL_GET_STATUS, 0) ::
          [(IOC_OPAL_TAKE_OWNERSHIP, OPAL_STATUS_NOT_AUTHORIZED)] /\
  [(IOC_OPAL_TAKE_OWNERSHIP, OPAL_STATUS_NOT_AUTHORIZED)] <> [] /\
  (0 = OPAL_STATUS_SUCCESS \/ IOC_OPAL_GET_STATUS = IOC_OPAL_ERASE_LR \/
   (IOC_OPAL_GET_STATUS = IOC_OPAL_GET_STATUS /\ 0 <= 0)).
Proof.
  intros run.
  assert (H1 : keylength a_volume_key <= OPAL_KEY_MAX)
    by (vm_compute; discriminate).
  assert (H2 : calls (events run) =
               [] ++ (IOC_OPAL_GET_STATUS, 0) ::
                     [(IOC_OPAL_TAKE_OWNERSHIP, OPAL_STATUS_NOT_AUTHORIZED)])
    by (vm_compute; reflexivity).
  assert (H3 : [(IOC_OPAL_TAKE_OWNERSHIP, OPAL_STATUS_NOT_AUTHORIZED)] <> [])
    by discriminate.
  exact (conj H1 (conj H2 (conj H3
           (opal_setup_ranges_stops_at_first_failure a_volume_key 8 16 1
              a_admin_key 5
              (sim_new 3 512
                 (status_at IOC_OPAL_TAKE_OWNERSHIP
                            OPAL_STATUS_NOT_AUTHORIZED all_ok))
              [] [(IOC_OPAL_TAKE_OWNERSHIP, OPAL_STATUS_NOT_AUTHORIZED)]
              IOC_OPAL_GET_STATUS 0 H1 H2 H3)))).
Defined.

(** Provisioning a drive on which locking was never enabled and the user
    cannot be activated. *)
Lemma opal_setup_ranges_releases_blocks_witness :
  let s := sim_new 3 512
             (status_at IOC_OPAL_ACTIVATE_USR OPAL_STATUS_FAIL all_ok) in
  let run := opal_setup_ranges a_volume_key 8 16 1 a_admin_key 5 s in
  keylength a_volume_key <= OPAL_KEY_MAX /\
  ((IOC_OPAL_ERASE_LR, OPAL_STATUS_SUCCESS) ∉ calls (events run)) /\
  ((IOC_OPAL_SECURE_ERASE_LR, OPAL_STATUS_SUCCESS) ∉ calls (events run)) /\
  st_heap (final run) =
    st_heap s ++ replicate (length (omap id (allocs (events run)))) Freed.
Proof.
  intros s run.
  assert (H1 : keylength a_volume_key <= OPAL_KEY_MAX)
    by (vm_compute; discriminate).
  assert (Hcalls : calls (events run) =
                   [(IOC_OPAL_GET_STATUS, 0); (IOC_OPAL_TAKE_OWNERSHIP, 0);
                    (IOC_OPAL_ACTIVATE_LSP, 0);
                    (IOC_OPAL_ACTIVATE_USR, OPAL_STATUS_FAIL)])
    by (vm_compute; reflexivity).
  assert (H2 : (IOC_OPAL_ERASE_LR, OPAL_STATUS_SUCCESS) ∉ calls (events run))
    by (rewrite Hcalls; intros Hin; inv_elem).
  assert (H3 : (IOC_OPAL_SECURE_ERASE_LR, OPAL_STATUS_SUCCESS)
                 ∉ calls (events run))
    by (rewrite Hcalls; intros Hin; inv_elem).
  exact (conj H1 (conj H2 (conj H3
           (opal_setup_ranges_releases_blocks a_volume_key 8 16 1
              a_admin_key 5 s H1 H2 H3)))).
Defined.

(** Provisioning a drive on which locking is already enabled and the user
    cannot be activated. *)
Lemma opal_setup_ranges_keeps_admin_session_witness :
  let s := sim_new 7 512
             (status_at IOC_OPAL_ACTIVATE_USR OPAL_STATUS_FAIL all_ok) in
  let run := opal_setup_ranges a_volume_key 8 16 1 a_admin_key 5 s in
  keylength a_volume_key <= OPAL_KEY_MAX /\
  (IOC_OPAL_ERASE_LR, OPAL_STATUS_SUCCESS) ∈ calls (events run) /\
  result run = Ret (- EINVAL) /\
  st_heap (final run) =
    st_heap s ++
    Live (BSession
            (mk_opal_session_info OPAL_ADMIN1
               (mk_opal_key 1 5 (memcpy zero_key_array a_admin_key 5)))) ::
    replicate (length (omap id (allocs (events run))) - 1) Freed.
Proof.
  intros s run.
  assert (H1 : keylength a_volume_key <= OPAL_KEY_MAX)
    by (vm_compute; discriminate).
  assert (H2 : (IOC_OPAL_ERASE_LR, OPAL_STATUS_SUCCESS) ∈ calls (events run))
    by (vm_compute; solve_elem).
  assert (H3 : result run = Ret (- EINVAL)) by (vm_compute; reflexivity).
  exact (conj H1 (conj H2 (conj H3
           (opal_setup_ranges_keeps_admin_session a_volume_key 8 16 1
              a_admin_key 5 s H1 (or_introl H2))))).
Defined.

(** The password request of a successful provisioning. *)
Lemma opal_setup_ranges_requests_witness :
  let run := opal_setup_ranges a_volume_key 8 16 1 a_admin_key 5
               (sim_new 3 512 all_ok) in
  let admin :=
    mk_opal_session_info OPAL_ADMIN1
      (mk_opal_key 1 5 (memcpy zero_key_array a_admin_key 5)) in
  let user :=
    mk_opal_session_info 2
      (mk_opal_key 1 4 (memcpy zero_key_array (vk_key a_volume_key) 4)) in
  keylength a_volume_key <= OPAL_KEY_MAX /\
  mk_opal_new_pw admin user ∈ args_of IOC_OPAL_SET_PW (events run) /\
  pw_session (mk_opal_new_pw admin user) = admin /\
  pw_new_user_pw (mk_opal_new_pw admin user) = user.
Proof.
  intros run admin user.
  assert (H1 : keylength a_volume_key <= OPAL_KEY_MAX)
    by (vm_compute; discriminate).
  assert (H2 : mk_opal_new_pw admin user
                 ∈ args_of IOC_OPAL_SET_PW (events run))
    by (vm_compute; solve_elem).
  exact (conj H1 (conj H2
           (proj1 (opal_setup_ranges_requests a_volume_key 8 16 1
                     a_admin_key 5 (sim_new 3 512 all_ok) H1)
                  (mk_opal_new_pw admin user) H2))).
Defined.

(** Locking with a key passed: the request carries none. *)
Lemma opal_lock_unlock_requests_witness :
  let run := opal_lock_unlock 1 (Some a_volume_key) true
               (sim_new 3 512 all_ok) in
  let a := mk_opal_lock_unlock
             (mk_opal_session_info 2 (mk_opal_key 1 0 zero_key_array))
             OPAL_LK 0 in
  a ∈ args_of IOC_OPAL_LOCK_UNLOCK (events run) /\
  k_key_len (si_opal_key (lu_session a)) = 0 /\
  k_key (si_opal_key (lu_session a)) = zero_key_array.
Proof.
  intros run a.
  assert (H1 : a ∈ args_of IOC_OPAL_LOCK_UNLOCK (events run))
    by (vm_compute; solve_elem).
  exact (conj H1
           (proj1 (proj2 (proj2 (proj2 (proj2
              (proj1 (opal_lock_unlock_requests 1 (Some a_volume_key) true
                        (sim_new 3 512 all_ok)) a H1)))))
              eq_refl)).
Defined.

(** Provisioning a drive and unlocking it afterwards. *)
Lemma user_authority_is_consistent_witness :
  let setup := opal_setup_ranges a_volume_key 8 16 1 a_admin_key 5
                 (sim_new 3 512 all_ok) in
  let unlock := opal_unlock 1 (Some a_volume_key) (final setup) in
  let user :=
    mk_opal_session_info 2
      (mk_opal_key 1 4 (memcpy zero_key_array (vk_key a_volume_key) 4)) in
  let a :=
    mk_opal_new_pw
      (mk_opal_session_info OPAL_ADMIN1
         (mk_opal_key 1 5 (memcpy zero_key_array a_admin_key 5))) user in
  let b := mk_opal_lock_unlock user OPAL_RW 0 in
  keylength a_volume_key <= OPAL_KEY_MAX /\
  a ∈ args_of IOC_OPAL_SET_PW (events setup) /\
  b ∈ args_of IOC_OPAL_LOCK_UNLOCK (events unlock) /\
  lu_session b = pw_new_user_pw a /\ lu_l_state b = OPAL_RW.
Proof.
  intros setup unlock user a b.
  assert (H1 : keylength a_volume_key <= OPAL_KEY_MAX)
    by (vm_compute; discriminate).
  assert (H2 : a ∈ args_of IOC_OPAL_SET_PW (events setup))
    by (vm_compute; solve_elem).
  assert (H3 : b ∈ args_of IOC_OPAL_LOCK_UNLOCK (events unlock))
    by (vm_compute; solve_elem).
  exact (conj H1 (conj H2 (conj H3
           (proj1 (user_authority_is_consistent a_volume_key 8 16 1
                     a_admin_key 5 None None None None
                     (sim_new 3 512 all_ok) (final setup)
                     (sim_new 3 512 all_ok) H1 a H2)
                  b H3)))).
Defined.

(** A kernel that does not know the PSID revert request. *)
Lemma opal_factory_reset_results_witness :
  let run := opal_factory_reset (bytes_of "psid") 4
               (sim_new 3 512
                  (status_at IOC_OPAL_PSID_REVERT_TPR (-1) all_ok)) in
  (IOC_OPAL_PSID_REVERT_TPR, -1) ∈ calls (events run) /\
  -1 < 0 /\
  result run = Ret (- ENOTSUP).
Proof.
  intros run.
  assert (H1 : (IOC_OPAL_PSID_REVERT_TPR, -1) ∈ calls (events run))
    by (vm_compute; solve_elem).
  assert (H2 : -1 < 0) by lia.
  pose (Hc := opal_factory_reset_results (bytes_of "psid") 4
                (sim_new 3 512
                   (status_at IOC_OPAL_PSID_REVERT_TPR (-1) all_ok))).
  exact (conj H1 (conj H2
           (proj2 (proj1 (proj2 (proj2 Hc)) (-1) H1) H2))).
Defined.

(** A drive on which erase fails and secure erase succeeds. *)
Lemma opal_reset_segment_results_witness :
  let run := opal_reset_segment 1 a_admin_key 5
               (sim_new 7 512
                  (status_at IOC_OPAL_ERASE_LR OPAL_STATUS_FAIL all_ok)) in
  let admin :=
    mk_opal_session_info OPAL_ADMIN1
      (mk_opal_key 1 5 (memcpy zero_key_array a_admin_key 5)) in
  (IOC_OPAL_LR_SETUP, OPAL_STATUS_SUCCESS) ∈ calls (events run) /\
  result run = Ret 0 /\
  mk_opal_user_lr_setup 0 0 0 0 admin
    ∈ args_of IOC_OPAL_LR_SETUP (events run).
Proof.
  intros run admin.
  assert (H1 : (IOC_OPAL_LR_SETUP, OPAL_STATUS_SUCCESS) ∈ calls (events run))
    by (vm_compute; solve_elem).
  assert (H2 : mk_opal_user_lr_setup 0 0 0 0 admin
                 ∈ args_of IOC_OPAL_LR_SETUP (events run))
    by (vm_compute; solve_elem).
  pose (Hc := opal_reset_segment_results 1 a_admin_key 5
                (sim_new 7 512
                   (status_at IOC_OPAL_ERASE_LR OPAL_STATUS_FAIL all_ok))).
  exact (conj H1
           (conj (proj2 (proj1 (proj2 (proj2 Hc))) (or_intror H1)) H2)).
Defined.

(** A device node that cannot be opened. *)
Lemma device_open_failure_classification_witness :
  let s := mk_state (mk_sim (-1) all_ok 7 512 0 0 0 0 OPAL_RW 16) [] in
  (env_open (st_env s)).1 < 0 /\
  keylength a_volume_key <= OPAL_KEY_MAX /\
  5 <= OPAL_KEY_MAX /\
  result (opal_geometry s) = Ret (- EIO, None) /\
  result (opal_lock_unlock 1 (Some a_volume_key) false s) = Ret (- ENOTSUP) /\
  result (opal_reset_segment 1 a_admin_key 5 s) = Ret (- EINVAL).
Proof.
  intros s.
  assert (H1 : (env_open (st_env s)).1 < 0) by (vm_compute; reflexivity).
  assert (H2 : keylength a_volume_key <= OPAL_KEY_MAX)
    by (vm_compute; discriminate).
  assert (H3 : 5 <= OPAL_KEY_MAX) by (vm_compute; discriminate).
  pose (Hc := device_open_failure_classification s 1 a_volume_key
                None None None None 8 16 a_admin_key 5
                (Some a_volume_key) false H1 H2 H3).
  pose (Hgeometry := proj1 (proj1 Hc)).
  pose (Hlock := proj1 (proj1 (proj2 (proj2 (proj2 (proj2 Hc)))))).
  pose (Hreset := proj1 (proj2 (proj2 (proj2 (proj2 (proj2 Hc)))))).
  exact (conj H1 (conj H2 (conj H3 (conj Hgeometry (conj Hlock Hreset))))).
Defined.

(** The geometry of a drive with 4096-byte blocks. *)
Lemma opal_geometry_results_witness :
  let run := opal_geometry (sim_new 3 4096 all_ok) in
  (0, mk_opal_geometry 0 4096 0 0)
    ∈ replies_of IOC_OPAL_GET_GEOMETRY (events run) /\
  result run = Ret (0, Some (mk_geometry_ret false 4096 0 0)).
Proof.
  intros run.
  assert (H1 : (0, mk_opal_geometry 0 4096 0 0)
                 ∈ replies_of IOC_OPAL_GET_GEOMETRY (events run))
    by (vm_compute; solve_elem).
  exact (conj H1
           (proj2 (proj2 (proj2 (opal_geometry_results
                                   (sim_new 3 4096 all_ok)))
                         0 (mk_opal_geometry 0 4096 0 0) H1))).
Defined.

(** Two of the kernel support flags. *)
Lemma dm_flags_are_disjoint_bits_witness :
  DM_KEY_WIPE_SUPPORTED ∈ dm_support_flags /\
  DM_INTEGRITY_RECALC_SUPPORTED ∈ dm_support_flags /\
  DM_KEY_WIPE_SUPPORTED <> DM_INTEGRITY_RECALC_SUPPORTED /\
  0 < DM_KEY_WIPE_SUPPORTED < 2 ^ 32 /\
  Z.land DM_KEY_WIPE_SUPPORTED DM_INTEGRITY_RECALC_SUPPORTED = 0.
Proof.
  assert (H1 : DM_KEY_WIPE_SUPPORTED ∈ dm_support_flags)
    by (vm_compute; solve_elem).
  assert (H2 : DM_INTEGRITY_RECALC_SUPPORTED ∈ dm_support_flags)
    by (vm_compute; solve_elem).
  assert (H3 : DM_KEY_WIPE_SUPPORTED <> DM_INTEGRITY_RECALC_SUPPORTED)
    by (vm_compute; discriminate).
  pose (Hc := proj1 (dm_flags_are_disjoint_bits DM_KEY_WIPE_SUPPORTED
                       DM_INTEGRITY_RECALC_SUPPORTED) H1 H2).
  exact (conj H1 (conj H2 (conj H3 (conj (proj1 Hc) (proj2 Hc H3))))).
Defined.
